(** * IAM policy validator: extraction and rule checking

    A shallow embedding of [policy_validator.py] (class [PolicyValidator],
    methods [validate_policy] and [extract_policy_from_text]) and of
    [PolicyUtils.extract_and_save_policy], together with the parts of the
    Python runtime they lean on: [str] values, the decoded JSON value
    universe, [json.loads], and the fragment of [re] used by the two
    extraction patterns. *)

From Stdlib Require Import List String Ascii NArith ZArith Bool Arith Lia.
From Stdlib Require Import DecimalNat.
Import ListNotations.
Local Open Scope N_scope.

(* ===================================================================== *)
(** ** Python text *)
(* ===================================================================== *)

(** A Python [str] is a sequence of Unicode code points. *)
Definition char : Type := N.
Definition str : Type := list char.

Definition chr (a : ascii) : char := N_of_ascii a.

(** [u "abc"] is the [str] literal ['abc']; the literals written this way
    are ASCII. *)
Fixpoint u (s : string) : str :=
  match s with
  | EmptyString => []
  | String a r => chr a :: u r
  end.

(** [jq "{'a': 1}"] is the text [{"a": 1}]: in these literals an
    apostrophe stands for the double quote. *)
Definition jq (s : string) : str :=
  map (fun c => if c =? 39 then 34 else c) (u s).

Fixpoint str_eqb (a b : str) : bool :=
  match a, b with
  | [], [] => true
  | x :: a', y :: b' => (x =? y) && str_eqb a' b'
  | _, _ => false
  end.

(** [s.startswith(p)], returning what follows the prefix. *)
Fixpoint strip_prefix (p s : str) : option str :=
  match p, s with
  | [], _ => Some s
  | x :: p', y :: s' => if x =? y then strip_prefix p' s' else None
  | _ :: _, [] => None
  end.

Definition startswith (p s : str) : bool :=
  match strip_prefix p s with Some _ => true | None => false end.

(** [p in s] for two strings: substring search. *)
Fixpoint str_contains (p s : str) : bool :=
  startswith p s ||
  match s with
  | [] => false
  | _ :: s' => str_contains p s'
  end.

(** [Py_UNICODE_ISSPACE]: the class behind [str.strip()] and behind [\s]
    in a [str] pattern. *)
Definition isspace (c : char) : bool :=
  ((9 <=? c) && (c <=? 13)) || ((28 <=? c) && (c <=? 32)) ||
  (c =? 133) || (c =? 160) || (c =? 5760) ||
  ((8192 <=? c) && (c <=? 8202)) || (c =? 8232) || (c =? 8233) ||
  (c =? 8239) || (c =? 8287) || (c =? 12288).

Fixpoint lstrip (s : str) : str :=
  match s with
  | c :: r => if isspace c then lstrip r else s
  | [] => []
  end.

Definition rstrip (s : str) : str := rev (lstrip (rev s)).

(** [s.strip()] *)
Definition strip (s : str) : str := rstrip (lstrip s).

(** Decimal rendering of a number inside an f-string. *)
Fixpoint uint_str (d : Decimal.uint) : str :=
  match d with
  | Decimal.Nil => []
  | Decimal.D0 d => 48 :: uint_str d
  | Decimal.D1 d => 49 :: uint_str d
  | Decimal.D2 d => 50 :: uint_str d
  | Decimal.D3 d => 51 :: uint_str d
  | Decimal.D4 d => 52 :: uint_str d
  | Decimal.D5 d => 53 :: uint_str d
  | Decimal.D6 d => 54 :: uint_str d
  | Decimal.D7 d => 55 :: uint_str d
  | Decimal.D8 d => 56 :: uint_str d
  | Decimal.D9 d => 57 :: uint_str d
  end.

Definition str_of_nat (n : nat) : str := uint_str (Nat.to_uint n).

(* ===================================================================== *)
(** ** Python values and exceptions *)
(* ===================================================================== *)

(** The values [json.loads] can produce.  A [float] is kept as the text of
    its literal: the validator never looks inside a number.  A [dict] is
    an insertion-ordered association list with [str] keys. *)
#[local] Unset Elimination Schemes.
Inductive pyval : Type :=
| VNone
| VBool (b : bool)
| VInt (z : Z)
| VFloat (literal : str)
| VStr (s : str)
| VList (items : list pyval)
| VDict (pairs : list (str * pyval)).
#[local] Set Elimination Schemes.

(** The exceptions that occur; each is a subclass of [Exception].
    [JSONDecodeError] carries its message without the position suffix. *)
Inductive exn : Type :=
| JSONDecodeError (msg : str)
| TypeError (msg : str)
| KeyError (msg : str)
| RecursionError (msg : str)
| StopIteration.

(** [str(e)] *)
Definition str_of_exn (e : exn) : str :=
  match e with
  | JSONDecodeError m => m
  | TypeError m => m
  | KeyError m => m
  | RecursionError m => m
  | StopIteration => []
  end.

(** What a call does: it returns a value or raises. *)
Inductive outcome (A : Type) : Type :=
| Returns (a : A)
| Raises (e : exn).
Arguments Returns {A} a.
Arguments Raises {A} e.

Definition bind {A B : Type} (m : outcome A) (k : A -> outcome B) : outcome B :=
  match m with
  | Returns a => k a
  | Raises e => Raises e
  end.

Notation "x <- m ;; k" := (bind m (fun x => k))
  (at level 61, m at next level, right associativity).

(** [try: body except <handler>] where the handlers cover every exception. *)
Definition try_except {A : Type} (body : outcome A) (handler : exn -> outcome A)
  : outcome A :=
  match body with
  | Returns a => Returns a
  | Raises e => handler e
  end.

(** [type(v).__name__] *)
Definition type_name (v : pyval) : str :=
  match v with
  | VNone => u "NoneType"
  | VBool _ => u "bool"
  | VInt _ => u "int"
  | VFloat _ => u "float"
  | VStr _ => u "str"
  | VList _ => u "list"
  | VDict _ => u "dict"
  end.

(** [dict] lookup by key. *)
Fixpoint dict_get (k : str) (d : list (str * pyval)) : option pyval :=
  match d with
  | [] => None
  | (k', v) :: d' => if str_eqb k k' then Some v else dict_get k d'
  end.

(** [d[k] = v]: an existing key keeps its place, a new key goes last. *)
Fixpoint dict_set (k : str) (v : pyval) (d : list (str * pyval))
  : list (str * pyval) :=
  match d with
  | [] => [(k, v)]
  | (k', v') :: d' =>
      if str_eqb k k' then (k', v) :: d' else (k', v') :: dict_set k v d'
  end.

(** [dict(pairs)] *)
Definition dict_of_pairs (pairs : list (str * pyval)) : list (str * pyval) :=
  fold_left (fun d kv => dict_set (fst kv) (snd kv) d) pairs [].

(** [x == "literal"] for an arbitrary value [x]. *)
Definition eq_str (x : pyval) (lit : str) : bool :=
  match x with
  | VStr s => str_eqb s lit
  | _ => false
  end.

(** ["literal" in container] *)
Definition contains (lit : str) (container : pyval) : outcome bool :=
  match container with
  | VDict d => Returns (match dict_get lit d with Some _ => true | None => false end)
  | VList l => Returns (existsb (fun x => eq_str x lit) l)
  | VStr s => Returns (str_contains lit s)
  | v => Raises (TypeError (u "argument of type '" ++ type_name v ++ u "' is not iterable"))
  end.

(** [container["literal"]], reached only after [contains] said yes. *)
Definition getitem (container : pyval) (lit : str) : outcome pyval :=
  match container with
  | VDict d =>
      match dict_get lit d with
      | Some v => Returns v
      | None => Raises (KeyError (u "'" ++ lit ++ u "'"))
      end
  | VList _ => Raises (TypeError (u "list indices must be integers or slices, not str"))
  | VStr _ => Raises (TypeError (u "string indices must be integers, not 'str'"))
  | v => Raises (TypeError (u "'" ++ type_name v ++ u "' object is not subscriptable"))
  end.

(** [x if isinstance(x, list) else [x]] *)
Definition as_list (x : pyval) : list pyval :=
  match x with
  | VList l => l
  | _ => [x]
  end.

(** [x in names] for a list of strings [names]. *)
Definition in_names (x : pyval) (names : list str) : bool :=
  existsb (fun n => eq_str x n) names.

(* ===================================================================== *)
(** ** [json.loads] *)
(* ===================================================================== *)

(** The decoder follows [json/decoder.py] and [json/scanner.py].  A
    position in the source text is represented by the text that remains
    to be read. *)
Module Json.

(** Result of one scanning routine: a value and the remaining text, an
    exception, or exhausted fuel (shown below never to happen). *)
Inductive scan (A : Type) : Type :=
| Scanned (a : A) (rest : str)
| Fail (e : exn)
| OutOfFuel.
Arguments Scanned {A} a rest.
Arguments Fail {A} e.
Arguments OutOfFuel {A}.

(** [WHITESPACE_STR = ' \t\n\r'] *)
Definition is_ws (c : char) : bool :=
  (c =? 32) || (c =? 9) || (c =? 10) || (c =? 13).

(** [WHITESPACE.match(s, end).end()] *)
Fixpoint skip_ws (s : str) : str :=
  match s with
  | c :: r => if is_ws c then skip_ws r else s
  | [] => []
  end.

Definition is_digit (c : char) : bool := (48 <=? c) && (c <=? 57).

Definition hex_val (c : char) : option N :=
  if (48 <=? c) && (c <=? 57) then Some (c - 48)
  else if (65 <=? c) && (c <=? 70) then Some (c - 55)
  else if (97 <=? c) && (c <=? 102) then Some (c - 87)
  else None.

(** [_decode_uXXXX]: four hex digits, or nothing. *)
Definition decode_uXXXX (s : str) : option (N * str) :=
  match s with
  | a :: b :: c :: d :: r =>
      match hex_val a, hex_val b, hex_val c, hex_val d with
      | Some x, Some y, Some z, Some w => Some (((x * 16 + y) * 16 + z) * 16 + w, r)
      | _, _, _, _ => None
      end
  | _ => None
  end.

(** The [BACKSLASH] table. *)
Definition backslash (esc : char) : option char :=
  if esc =? 34 then Some 34          (* quote *)
  else if esc =? 92 then Some 92     (* backslash *)
  else if esc =? 47 then Some 47     (* slash *)
  else if esc =? 98 then Some 8      (* b: backspace *)
  else if esc =? 102 then Some 12    (* f: form feed *)
  else if esc =? 110 then Some 10    (* n: line feed *)
  else if esc =? 114 then Some 13    (* r: carriage return *)
  else if esc =? 116 then Some 9     (* t: tab *)
  else None.

Definition unterminated : exn :=
  JSONDecodeError (u "Unterminated string starting at").
Definition invalid_uXXXX : exn := JSONDecodeError (u "Invalid \uXXXX escape").

(** [py_scanstring] in strict mode; [s] starts after the opening quote and
    [chunks] is the text decoded so far. *)
Fixpoint scanstring (s : str) (chunks : str) : scan str :=
  match s with
  | [] => Fail unterminated
  | c :: r =>
      if c =? 34 then Scanned chunks r
      else if c =? 92 then
        match r with
        | [] => Fail unterminated
        | esc :: r1 =>
            if esc =? 117 then
              match r1 with
              | a :: b :: c0 :: d :: r2 =>
                  match decode_uXXXX [a; b; c0; d] with
                  | None => Fail invalid_uXXXX
                  | Some (uni, _) =>
                      if (55296 <=? uni) && (uni <=? 56319) then
                        match r2 with
                        | x :: y :: r2' =>
                            if (x =? 92) && (y =? 117) then
                              match r2' with
                              | a2 :: b2 :: c2 :: d2 :: r3 =>
                                  match decode_uXXXX [a2; b2; c2; d2] with
                                  | None => Fail invalid_uXXXX
                                  | Some (uni2, _) =>
                                      if (56320 <=? uni2) && (uni2 <=? 57343) then
                                        scanstring r3
                                          (chunks ++
                                           [65536 + N.lor (N.shiftl (uni - 55296) 10)
                                                          (uni2 - 56320)])
                                      else scanstring r2 (chunks ++ [uni])
                                  end
                              | _ => Fail invalid_uXXXX
                              end
                            else scanstring r2 (chunks ++ [uni])
                        | _ => scanstring r2 (chunks ++ [uni])
                        end
                      else scanstring r2 (chunks ++ [uni])
                  end
              | _ => Fail invalid_uXXXX
              end
            else
              match backslash esc with
              | Some ch => scanstring r1 (chunks ++ [ch])
              | None => Fail (JSONDecodeError (u "Invalid \escape"))
              end
        end
      else if c <? 32 then Fail (JSONDecodeError (u "Invalid control character at"))
      else scanstring r (chunks ++ [c])
  end.

(** Longest prefix of decimal digits, and what follows it. *)
Fixpoint span_digits (s : str) : str * str :=
  match s with
  | c :: r =>
      if is_digit c then let (ds, rest) := span_digits r in (c :: ds, rest)
      else ([], s)
  | [] => ([], [])
  end.

(** [int(digits)]; the interpreter's cap on the number of digits of an
    integer literal is left out. *)
Definition int_of_digits (ds : str) : Z :=
  fold_left (fun acc c => (acc * 10 + Z.of_N (c - 48))%Z) ds 0%Z.

(** [s[0:1] == c], returning what follows the character. *)
Definition next_is (c : char) (s : str) : option str :=
  match s with
  | x :: r => if x =? c then Some r else None
  | [] => None
  end.

(** One or more digits, or nothing at all. *)
Definition digits1 (s : str) : option (str * str) :=
  match span_digits s with
  | ([], _) => None
  | (ds, rest) => Some (ds, rest)
  end.

(** The integer part of [NUMBER_RE]: [0|[1-9][0-9]*]. *)
Definition match_intpart (s : str) : option (str * str) :=
  match s with
  | c :: r =>
      if c =? 48 then Some ([c], r)
      else if is_digit c then let (ds, rest) := span_digits r in Some (c :: ds, rest)
      else None
  | [] => None
  end.

(** The optional fraction [(\.[0-9]+)?]. *)
Definition match_frac (s : str) : str * str :=
  match next_is 46 s with
  | Some r =>
      match digits1 r with
      | Some (ds, rest) => (46 :: ds, rest)
      | None => ([], s)
      end
  | None => ([], s)
  end.

(** The optional exponent [([eE][-+]?[0-9]+)?]. *)
Definition match_exp (s : str) : str * str :=
  match s with
  | e :: r =>
      if (e =? 101) || (e =? 69) then
        match r with
        | sg :: r1 =>
            if (sg =? 45) || (sg =? 43) then
              match digits1 r1 with
              | Some (ds, rest) => (e :: sg :: ds, rest)
              | None => ([], s)
              end
            else
              match digits1 r with
              | Some (ds, rest) => (e :: ds, rest)
              | None => ([], s)
              end
        | [] => ([], s)
        end
      else ([], s)
  | [] => ([], s)
  end.

(** [NUMBER_RE.match] followed by [parse_int] or [parse_float]. *)
Definition match_number (s : str) : option (pyval * str) :=
  let (sign, s0) :=
    match next_is 45 s with
    | Some r => (true, r)
    | None => (false, s)
    end in
  match match_intpart s0 with
  | None => None
  | Some (digits, s1) =>
      let (frac, s2) := match_frac s1 in
      let (exp, s3) := match_exp s2 in
      let neg := if sign then [45] else [] in
      match frac, exp with
      | [], [] =>
          Some (VInt (if sign then Z.opp (int_of_digits digits) else int_of_digits digits), s3)
      | _, _ => Some (VFloat (neg ++ digits ++ frac ++ exp), s3)
      end
  end.

(** The constants [scan_once] recognises by name. *)
Definition match_constant (names : list (str * pyval)) (s : str)
  : option (pyval * str) :=
  fold_right
    (fun nv found =>
       match strip_prefix (fst nv) s with
       | Some r => Some (snd nv, r)
       | None => found
       end)
    None names.

(** [null], [true] and [false]. *)
Definition literals : list (str * pyval) :=
  [(u "null", VNone); (u "true", VBool true); (u "false", VBool false)].

(** The names [parse_constant] receives. *)
Definition float_constants : list (str * pyval) :=
  [(u "NaN", VFloat (u "NaN")); (u "Infinity", VFloat (u "Infinity"));
   (u "-Infinity", VFloat (u "-Infinity"))].

Definition expecting_value : exn := JSONDecodeError (u "Expecting value").
Definition expecting_comma : exn := JSONDecodeError (u "Expecting ',' delimiter").
Definition expecting_colon : exn := JSONDecodeError (u "Expecting ':' delimiter").
Definition expecting_name : exn :=
  JSONDecodeError (u "Expecting property name enclosed in double quotes").
Definition too_deep (what : string) : exn :=
  RecursionError
    (u "maximum recursion depth exceeded while decoding a JSON " ++ u what ++
     u " from a unicode string").

(** What the callers of [scan_once] do with its [StopIteration]. *)
Definition or_expecting_value {A : Type} (r : scan A) : scan A :=
  match r with
  | Fail StopIteration => Fail expecting_value
  | _ => r
  end.

(** The three mutually recursive routines of the scanner.  [depth] is the
    number of nested containers the interpreter still allows; entering an
    object or an array takes one. *)
Fixpoint scan_once (fuel depth : nat) (s : str) {struct fuel} : scan pyval :=
  match fuel with
  | O => OutOfFuel
  | S fuel' =>
      match s with
      | [] => Fail StopIteration
      | nextchar :: r =>
          if nextchar =? 34 then
            match scanstring r [] with
            | Scanned k r' => Scanned (VStr k) r'
            | Fail e => Fail e
            | OutOfFuel => OutOfFuel
            end
          else if nextchar =? 123 then
            match depth with
            | O => Fail (too_deep "object")
            | S depth' =>
                (* head of JSONObject *)
                let r0 := match next_is 34 r with
                          | Some _ => r
                          | None => skip_ws r
                          end in
                match next_is 125 r0, next_is 34 r0 with
                | Some r1, _ => Scanned (VDict []) r1
                | None, Some r1 => JSONObject fuel' depth' [] r1
                | None, None => Fail expecting_name
                end
            end
          else if nextchar =? 91 then
            match depth with
            | O => Fail (too_deep "array")
            | S depth' =>
                (* head of JSONArray *)
                let r0 := skip_ws r in
                match next_is 93 r0 with
                | Some r1 => Scanned (VList []) r1
                | None => JSONArray fuel' depth' [] r0
                end
            end
          else
            match match_constant literals s with
            | Some (v, r') => Scanned v r'
            | None =>
                match match_number s with
                | Some (v, r') => Scanned v r'
                | None =>
                    match match_constant float_constants s with
                    | Some (v, r') => Scanned v r'
                    | None => Fail StopIteration
                    end
                end
            end
      end
  end

(** The loop of [JSONObject]; [s] starts after the opening quote of a key. *)
with JSONObject (fuel depth : nat) (pairs : list (str * pyval)) (s : str)
  {struct fuel} : scan pyval :=
  match fuel with
  | O => OutOfFuel
  | S fuel' =>
      match scanstring s [] with
      | Scanned key s1 =>
          let s2 := match next_is 58 s1 with
                    | Some _ => s1
                    | None => skip_ws s1
                    end in
          match next_is 58 s2 with
          | Some s3 =>
              match or_expecting_value (scan_once fuel' depth (skip_ws s3)) with
              | Scanned value s4 =>
                  let pairs' := pairs ++ [(key, value)] in
                  let s4' := skip_ws s4 in
                  match next_is 125 s4', next_is 44 s4' with
                  | Some s5, _ => Scanned (VDict (dict_of_pairs pairs')) s5
                  | None, Some s5 =>
                      match next_is 34 (skip_ws s5) with
                      | Some s6 => JSONObject fuel' depth pairs' s6
                      | None => Fail expecting_name
                      end
                  | None, None => Fail expecting_comma
                  end
              | Fail e => Fail e
              | OutOfFuel => OutOfFuel
              end
          | None => Fail expecting_colon
          end
      | Fail e => Fail e
      | OutOfFuel => OutOfFuel
      end
  end

(** The loop of [JSONArray]; [s] starts at the next element. *)
with JSONArray (fuel depth : nat) (values : list pyval) (s : str)
  {struct fuel} : scan pyval :=
  match fuel with
  | O => OutOfFuel
  | S fuel' =>
      match or_expecting_value (scan_once fuel' depth s) with
      | Scanned value s1 =>
          let values' := values ++ [value] in
          let s1' := skip_ws s1 in
          match next_is 93 s1', next_is 44 s1' with
          | Some s2, _ => Scanned (VList values') s2
          | None, Some s2 => JSONArray fuel' depth values' (skip_ws s2)
          | None, None => Fail expecting_comma
          end
      | Fail e => Fail e
      | OutOfFuel => OutOfFuel
      end
  end.

(** Containers the decoder may nest before the interpreter raises
    [RecursionError] (the default recursion limit). *)
Definition recursion_limit : nat := 1000.

(** The scanner reads at least one character every second step, so this
    much fuel is never used up ([decode_fuel] below). *)
Definition fuel_for (s : str) : nat := 2 * List.length s + 1.

(** [JSONDecoder.decode] *)
Definition decode (s : str) : scan pyval :=
  let s0 := skip_ws s in
  match or_expecting_value (scan_once (fuel_for s0) recursion_limit s0) with
  | Scanned obj rest =>
      match skip_ws rest with
      | [] => Scanned obj []
      | _ :: _ => Fail (JSONDecodeError (u "Extra data"))
      end
  | r => r
  end.

(** [json.loads(s)] for a [str] argument. *)
Definition loads (s : str) : outcome pyval :=
  if startswith [65279] s then
    Raises (JSONDecodeError (u "Unexpected UTF-8 BOM (decode using utf-8-sig)"))
  else
    match decode s with
    | Scanned obj _ => Returns obj
    | Fail e => Raises e
    | OutOfFuel => Raises (RecursionError (u "maximum recursion depth exceeded"))
    end.

(** [x] is a scanner result on input [s] that used no more fuel than it
    had and, when it produced a value, read at least one character. *)
Definition consumes (x : scan pyval) (s : str) : Prop :=
  x <> OutOfFuel /\
  forall v r, x = Scanned v r -> (List.length r < List.length s)%nat.

End Json.

(* ===================================================================== *)
(** ** [re.search] on the fragment the two patterns use *)
(* ===================================================================== *)

(** A backtracking matcher: literal characters, a greedy or a lazy star
    over a character class, and one capturing group. *)
Module Re.

Inductive item : Type :=
| Lit (c : char)
| StarGreedy (cls : char -> bool)
| StarLazy (cls : char -> bool)
| GroupOpen
| GroupClose.

Definition pattern : Type := list item.

Definition lit (s : str) : pattern := map Lit s.

(** [\s] *)
Definition space : char -> bool := isspace.
(** [[\s\S]] *)
Definition any : char -> bool := fun c => isspace c || negb (isspace c).

(** A match object: where the match starts and ends, and the span of
    group 1. *)
Record match_object : Type := {
  m_start : nat;
  m_end : nat;
  m_group1 : nat * nat
}.

(** Match [p] at the current position [pos], [s] being the text from
    there on; alternatives are tried in the order the engine tries them. *)
Fixpoint match_here (p : pattern) (pos : nat) (g : nat * nat) (s : str)
  {struct p} : option (nat * (nat * nat)) :=
  match p with
  | [] => Some (pos, g)
  | Lit c :: p' =>
      match s with
      | x :: r => if x =? c then match_here p' (S pos) g r else None
      | [] => None
      end
  | StarGreedy cls :: p' =>
      (fix star (pos : nat) (s : str) {struct s} : option (nat * (nat * nat)) :=
         match s with
         | x :: r =>
             if cls x then
               match star (S pos) r with
               | Some m => Some m
               | None => match_here p' pos g s
               end
             else match_here p' pos g s
         | [] => match_here p' pos g []
         end) pos s
  | StarLazy cls :: p' =>
      (fix star (pos : nat) (s : str) {struct s} : option (nat * (nat * nat)) :=
         match match_here p' pos g s with
         | Some m => Some m
         | None =>
             match s with
             | x :: r => if cls x then star (S pos) r else None
             | [] => None
             end
         end) pos s
  | GroupOpen :: p' => match_here p' pos (pos, snd g) s
  | GroupClose :: p' => match_here p' pos (fst g, pos) s
  end.

(** Try every start position from left to right. *)
Fixpoint search_from (p : pattern) (pos : nat) (s : str) : option match_object :=
  match match_here p pos (pos, pos) s with
  | Some (e, g) => Some {| m_start := pos; m_end := e; m_group1 := g |}
  | None =>
      match s with
      | _ :: r => search_from p (S pos) r
      | [] => None
      end
  end.

(** [re.search(p, text)] *)
Definition search (p : pattern) (text : str) : option match_object :=
  search_from p 0 text.

(** [text[a:b]] *)
Definition slice (text : str) (a b : nat) : str := firstn (b - a) (skipn a text).

(** [match.group(0)] and [match.group(1)] *)
Definition group0 (text : str) (m : match_object) : str :=
  slice text (m_start m) (m_end m).
Definition group1 (text : str) (m : match_object) : str :=
  slice text (fst (m_group1 m)) (snd (m_group1 m)).

End Re.

(* ===================================================================== *)
(** ** class PolicyValidator *)
(* ===================================================================== *)

(** The instance attributes. *)
Record PolicyValidator : Type := {
  overly_permissive_actions : list str;
  sensitive_actions : list str
}.

Definition __init__ : PolicyValidator := {|
  overly_permissive_actions :=
    [u "*"; u "s3:*"; u "ec2:*"; u "iam:*"; u "dynamodb:*"; u "lambda:*";
     u "cloudformation:*"];
  sensitive_actions :=
    [u "iam:CreateUser"; u "iam:CreateRole"; u "iam:PutRolePolicy";
     u "iam:AttachRolePolicy"; u "iam:AttachUserPolicy"; u "s3:PutBucketPolicy";
     u "ec2:RunInstances"; u "lambda:CreateFunction"; u "kms:Decrypt";
     u "secretsmanager:GetSecretValue"]
|}.

(** The [results] dictionary. *)
Record report : Type := {
  valid : bool;
  issues : list str;
  recommendations : list str
}.

(** [results["issues"].append(i); results["recommendations"].append(r)] *)
Definition note (i r : str) (results : report) : report :=
  {| valid := valid results;
     issues := issues results ++ [i];
     recommendations := recommendations results ++ [r] |}.

Definition add_issue (i : str) (results : report) : report :=
  {| valid := valid results;
     issues := issues results ++ [i];
     recommendations := recommendations results |}.

Definition add_recommendation (r : str) (results : report) : report :=
  {| valid := valid results;
     issues := issues results;
     recommendations := recommendations results ++ [r] |}.

(** [results["valid"] = False] *)
Definition invalidate (results : report) : report :=
  {| valid := false;
     issues := issues results;
     recommendations := recommendations results |}.

(** [{x}] inside an f-string.  The validator formats an action only
    after it was found equal to a string, so only the [str] case is ever
    reached; the other cases sketch [str(x)]. *)
Definition format (x : pyval) : str :=
  match x with
  | VStr s => s
  | VNone => u "None"
  | VBool true => u "True"
  | VBool false => u "False"
  | VInt z => if (z <? 0)%Z then 45 :: str_of_nat (Z.abs_nat z) else str_of_nat (Z.abs_nat z)
  | VFloat l => l
  | VList _ => u "[...]"
  | VDict _ => u "{...}"
  end.

Definition issue_overly (i : nat) (action : str) : str :=
  u "Statement " ++ str_of_nat (i + 1) ++ u " contains overly permissive action: " ++ action.
Definition rec_overly (action : str) : str :=
  u "Replace '" ++ action ++ u "' with specific actions needed for the use case".
Definition issue_sensitive (i : nat) (action : str) : str :=
  u "Statement " ++ str_of_nat (i + 1) ++ u " contains sensitive action: " ++ action.
Definition rec_sensitive (action : str) : str :=
  u "Review if '" ++ action ++ u "' is absolutely necessary and consider adding conditions".
Definition issue_wildcard (i : nat) : str :=
  u "Statement " ++ str_of_nat (i + 1) ++ u " applies to all resources ('*')".
Definition rec_wildcard : str := u "Specify exact resource ARNs instead of using '*'".
Definition issue_no_resource (i : nat) : str :=
  u "Statement " ++ str_of_nat (i + 1) ++ u " is missing 'Resource' field".
Definition rec_no_resource : str := u "Add specific resource ARNs to the statement".
Definition rec_condition (i : nat) : str :=
  u "Consider adding conditions to Statement " ++ str_of_nat (i + 1) ++ u " for additional security".
Definition issue_no_version : str := u "Missing 'Version' field in policy".
Definition rec_no_version : str := u "Add 'Version': '2012-10-17' to the policy".
Definition issue_no_statement : str := u "Missing 'Statement' field in policy".

(** First loop over [actions]. *)
Definition check_overly (self : PolicyValidator) (i : nat) (actions : list pyval)
  (results : report) : report :=
  fold_left
    (fun res action =>
       if in_names action (overly_permissive_actions self) then
         invalidate (note (issue_overly i (format action)) (rec_overly (format action)) res)
       else res)
    actions results.

(** Second loop over [actions]. *)
Definition check_sensitive (self : PolicyValidator) (i : nat) (actions : list pyval)
  (results : report) : report :=
  fold_left
    (fun res action =>
       if in_names action (sensitive_actions self) then
         note (issue_sensitive i (format action)) (rec_sensitive (format action)) res
       else res)
    actions results.

(** Loop over [resources]. *)
Definition check_resources (i : nat) (resources : list pyval) (results : report)
  : report :=
  fold_left
    (fun res resource =>
       if eq_str resource (u "*") then
         invalidate (note (issue_wildcard i) rec_wildcard res)
       else res)
    resources results.

(** Body of [for i, statement in enumerate(statements)]. *)
Definition check_statement (self : PolicyValidator) (i : nat) (statement : pyval)
  (results : report) : outcome report :=
  has_action <- contains (u "Action") statement ;;
  results <-
    (if has_action then
       a <- getitem statement (u "Action") ;;
       let actions := as_list a in
       Returns (check_sensitive self i actions (check_overly self i actions results))
     else Returns results) ;;
  has_resource <- contains (u "Resource") statement ;;
  results <-
    (if has_resource then
       r <- getitem statement (u "Resource") ;;
       Returns (check_resources i (as_list r) results)
     else
       Returns (invalidate (note (issue_no_resource i) rec_no_resource results))) ;;
  has_condition <- contains (u "Condition") statement ;;
  Returns (if negb has_condition then add_recommendation (rec_condition i) results
           else results).

(** The [for] loop, [i] being the index of the first statement left. *)
Fixpoint for_statements (self : PolicyValidator) (i : nat) (statements : list pyval)
  (results : report) : outcome report :=
  match statements with
  | [] => Returns results
  | statement :: rest =>
      results' <- check_statement self i statement results ;;
      for_statements self (S i) rest results'
  end.

(** [json.loads(policy_json) if isinstance(policy_json, str) else policy_json] *)
Definition parse_policy (policy_json : pyval) : outcome pyval :=
  match policy_json with
  | VStr s => Json.loads s
  | _ => Returns policy_json
  end.

(** The body of the [try] block of [validate_policy]. *)
Definition validate_policy_try (self : PolicyValidator) (policy_json : pyval)
  : outcome report :=
  policy <- parse_policy policy_json ;;
  let results := {| valid := true; issues := []; recommendations := [] |} in
  has_version <- contains (u "Version") policy ;;
  let results :=
    if negb has_version then invalidate (note issue_no_version rec_no_version results)
    else results in
  has_statement <- contains (u "Statement") policy ;;
  if negb has_statement then
    Returns (invalidate (add_issue issue_no_statement results))
  else
    statements <- getitem policy (u "Statement") ;;
    for_statements self 0 (as_list statements) results.

Definition invalid_json_report : report :=
  {| valid := false;
     issues := [u "Invalid JSON format"];
     recommendations := [u "Check the policy syntax for errors"] |}.

Definition validation_error_report (e : exn) : report :=
  {| valid := false;
     issues := [u "Validation error: " ++ str_of_exn e];
     recommendations := [u "Review the policy structure"] |}.

(** [PolicyValidator.validate_policy] *)
Definition validate_policy (self : PolicyValidator) (policy_json : pyval)
  : outcome report :=
  try_except (validate_policy_try self policy_json)
    (fun e =>
       match e with
       | JSONDecodeError _ => Returns invalid_json_report
       | _ => Returns (validation_error_report e)
       end).

(** [r"```json\s*([\s\S]*?)\s*```"] *)
Definition json_pattern_fenced : Re.pattern :=
  Re.lit (u "```json") ++
  [Re.StarGreedy Re.space; Re.GroupOpen; Re.StarLazy Re.any; Re.GroupClose;
   Re.StarGreedy Re.space] ++
  Re.lit (u "```").

(** [r"\{\s*\"Version\"[\s\S]*?\"Statement\"[\s\S]*?\}"] *)
Definition json_pattern_braces : Re.pattern :=
  Re.lit (u "{") ++ [Re.StarGreedy Re.space] ++ Re.lit (jq "'Version'") ++
  [Re.StarLazy Re.any] ++ Re.lit (jq "'Statement'") ++ [Re.StarLazy Re.any] ++
  Re.lit (u "}").

(** The body of the [try] block of [extract_policy_from_text]. *)
Definition extract_policy_try (text : str) : outcome (option str) :=
  match Re.search json_pattern_fenced text with
  | Some m =>
      let json_str := strip (Re.group1 text m) in
      _ <- Json.loads json_str ;;
      Returns (Some json_str)
  | None =>
      match Re.search json_pattern_braces text with
      | Some m =>
          let json_str := strip (Re.group0 text m) in
          _ <- Json.loads json_str ;;
          Returns (Some json_str)
      | None => Returns None
      end
  end.

(** [PolicyValidator.extract_policy_from_text]; the bare [except] turns
    every exception into [None].  The method does not use [self]. *)
Definition extract_policy_from_text (self : PolicyValidator) (text : str)
  : outcome (option str) :=
  try_except (extract_policy_try text) (fun _ => Returns None).

(* ===================================================================== *)
(** ** class PolicyUtils *)
(* ===================================================================== *)

Section PolicyUtils.

(** [self.save_policy(json_str, name, description)] writes a file and
    gives back its path, or [None] when writing failed; it never raises.
    The file system is outside this development. *)
Variable save_policy : str -> option str -> option str -> option str.

Definition extract_and_save_try (text : str) (name description : option str)
  : outcome (bool * option str) :=
  match Re.search json_pattern_fenced text with
  | Some m =>
      let json_str := strip (Re.group1 text m) in
      _ <- Json.loads json_str ;;
      Returns (true, save_policy json_str name description)
  | None =>
      match Re.search json_pattern_braces text with
      | Some m =>
          let json_str := strip (Re.group0 text m) in
          _ <- Json.loads json_str ;;
          Returns (true, save_policy json_str name description)
      | None => Returns (false, Some (u "No valid policy JSON found in the text"))
      end
  end.

(** [PolicyUtils.extract_and_save_policy] *)
Definition extract_and_save_policy (text : str) (name description : option str)
  : outcome (bool * option str) :=
  try_except (extract_and_save_try text name description)
    (fun e =>
       match e with
       | JSONDecodeError _ =>
           Returns (false, Some (u "Invalid JSON format in the extracted policy"))
       | _ =>
           Returns (false, Some (u "Error extracting and saving policy: " ++ str_of_exn e))
       end).

End PolicyUtils.

(* ===================================================================== *)
(** ** The objects a call works on *)
(* ===================================================================== *)

(** The definitions above hand the validator's two lists and the report
    around as values.  In the program they are objects: the method reads
    the two lists through [self] each time it tests an action, creates
    the [results] dictionary and its two lists, and changes these three
    objects in place.  This module writes the method once more over a
    store of such objects, statement by statement, so that what a call
    leaves behind for the next call is part of the model.  The policy
    document, and the lists made to wrap a single value, are only read
    and stay values. *)
Module Store.

(** A reference is the position of an object in the store. *)
Definition ref : Type := nat.

Inductive object : Type :=
| PyList (items : list str)
| PyResults (flag : bool) (issue_list recommendation_list : ref)
| PyValidator (overly_list sensitive_list : ref).

Definition store : Type := list object.

(** A piece of program runs on a store, returns or raises, and leaves a
    store; what was written before an exception stays written.  The
    answer [None] stands for a reference that does not lead to an object
    of the kind the operation is for, which no reference made by the
    operations below does. *)
Definition proc (A : Type) : Type := store -> option (outcome A * store).

Definition ret {A : Type} (a : A) : proc A := fun h => Some (Returns a, h).

(** A computation that touches no object. *)
Definition lift {A : Type} (o : outcome A) : proc A := fun h => Some (o, h).

Definition seq {A B : Type} (m : proc A) (k : A -> proc B) : proc B :=
  fun h =>
    match m h with
    | Some (Returns a, h') => k a h'
    | Some (Raises e, h') => Some (Raises e, h')
    | None => None
    end.

Notation "x <~ m ;; k" := (seq m (fun x => k))
  (at level 61, m at next level, right associativity).

(** [try: body except <handler>] *)
Definition try_except {A : Type} (body : proc A) (handler : exn -> proc A) : proc A :=
  fun h =>
    match body h with
    | Some (Returns a, h') => Some (Returns a, h')
    | Some (Raises e, h') => handler e h'
    | None => None
    end.

(** A new object gets the next free reference. *)
Definition alloc (o : object) : proc ref :=
  fun h => Some (Returns (List.length h), h ++ [o]).

(** The store with the object at [a] replaced. *)
Fixpoint update (h : store) (a : ref) (o : object) : store :=
  match h, a with
  | [], _ => []
  | _ :: h', O => o :: h'
  | x :: h', S a' => x :: update h' a' o
  end.

(** [self.overly_permissive_actions] and [self.sensitive_actions] *)
Definition attr_overly (self : ref) : proc ref :=
  fun h =>
    match nth_error h self with
    | Some (PyValidator o _) => Some (Returns o, h)
    | _ => None
    end.

Definition attr_sensitive (self : ref) : proc ref :=
  fun h =>
    match nth_error h self with
    | Some (PyValidator _ s) => Some (Returns s, h)
    | _ => None
    end.

(** [x in l] for a list object [l] *)
Definition in_list (x : pyval) (l : ref) : proc bool :=
  fun h =>
    match nth_error h l with
    | Some (PyList names) => Some (Returns (in_names x names), h)
    | _ => None
    end.

(** [l.append(x)] *)
Definition append (l : ref) (x : str) : proc unit :=
  fun h =>
    match nth_error h l with
    | Some (PyList xs) => Some (Returns tt, update h l (PyList (xs ++ [x])))
    | _ => None
    end.

(** [results["issues"]] and [results["recommendations"]] *)
Definition item_issues (results : ref) : proc ref :=
  fun h =>
    match nth_error h results with
    | Some (PyResults _ i _) => Some (Returns i, h)
    | _ => None
    end.

Definition item_recommendations (results : ref) : proc ref :=
  fun h =>
    match nth_error h results with
    | Some (PyResults _ _ r) => Some (Returns r, h)
    | _ => None
    end.

(** [results["valid"] = b] *)
Definition set_valid (results : ref) (b : bool) : proc unit :=
  fun h =>
    match nth_error h results with
    | Some (PyResults _ i r) => Some (Returns tt, update h results (PyResults b i r))
    | _ => None
    end.

(** [results["issues"].append(x)] and [results["recommendations"].append(x)] *)
Definition append_issue (results : ref) (x : str) : proc unit :=
  l <~ item_issues results ;; append l x.

Definition append_recommendation (results : ref) (x : str) : proc unit :=
  l <~ item_recommendations results ;; append l x.

(** [{"valid": b, "issues": [...], "recommendations": [...]}]: the two
    lists are built first, then the dictionary that holds them. *)
Definition new_results (b : bool) (issue_items recommendation_items : list str)
  : proc ref :=
  i <~ alloc (PyList issue_items) ;;
  r <~ alloc (PyList recommendation_items) ;;
  alloc (PyResults b i r).

(** [PolicyValidator()]: the two lists [__init__] builds and the
    instance whose attributes lead to them. *)
Definition new_validator : proc ref :=
  o <~ alloc (PyList (overly_permissive_actions __init__)) ;;
  s <~ alloc (PyList (sensitive_actions __init__)) ;;
  alloc (PyValidator o s).

(** [for x in l: body] over a list that is a value. *)
Fixpoint for_each {A : Type} (l : list A) (body : A -> proc unit) : proc unit :=
  match l with
  | [] => ret tt
  | x :: rest => _ <~ body x ;; for_each rest body
  end.

(** First loop over [actions]. *)
Definition check_overly (self results : ref) (i : nat) (actions : list pyval)
  : proc unit :=
  for_each actions
    (fun action =>
       names <~ attr_overly self ;;
       hit <~ in_list action names ;;
       if hit then
         _ <~ append_issue results (issue_overly i (format action)) ;;
         _ <~ append_recommendation results (rec_overly (format action)) ;;
         set_valid results false
       else ret tt).

(** Second loop over [actions]. *)
Definition check_sensitive (self results : ref) (i : nat) (actions : list pyval)
  : proc unit :=
  for_each actions
    (fun action =>
       names <~ attr_sensitive self ;;
       hit <~ in_list action names ;;
       if hit then
         _ <~ append_issue results (issue_sensitive i (format action)) ;;
         append_recommendation results (rec_sensitive (format action))
       else ret tt).

(** Loop over [resources]. *)
Definition check_resources (results : ref) (i : nat) (resources : list pyval)
  : proc unit :=
  for_each resources
    (fun resource =>
       if eq_str resource (u "*") then
         _ <~ append_issue results (issue_wildcard i) ;;
         _ <~ append_recommendation results rec_wildcard ;;
         set_valid results false
       else ret tt).

(** Body of [for i, statement in enumerate(statements)]. *)
Definition check_statement (self results : ref) (i : nat) (statement : pyval)
  : proc unit :=
  has_action <~ lift (contains (u "Action") statement) ;;
  _ <~ (if has_action then
          a <~ lift (getitem statement (u "Action")) ;;
          _ <~ check_overly self results i (as_list a) ;;
          check_sensitive self results i (as_list a)
        else ret tt) ;;
  has_resource <~ lift (contains (u "Resource") statement) ;;
  _ <~ (if has_resource then
          r <~ lift (getitem statement (u "Resource")) ;;
          check_resources results i (as_list r)
        else
          _ <~ append_issue results (issue_no_resource i) ;;
          _ <~ append_recommendation results rec_no_resource ;;
          set_valid results false) ;;
  has_condition <~ lift (contains (u "Condition") statement) ;;
  if negb has_condition then append_recommendation results (rec_condition i)
  else ret tt.

(** The [for] loop, [i] being the index of the first statement left. *)
Fixpoint for_statements (self results : ref) (i : nat) (statements : list pyval)
  : proc unit :=
  match statements with
  | [] => ret tt
  | statement :: rest =>
      _ <~ check_statement self results i statement ;;
      for_statements self results (S i) rest
  end.

(** The body of the [try] block of [validate_policy]. *)
Definition validate_policy_try (self : ref) (policy_json : pyval) : proc ref :=
  policy <~ lift (parse_policy policy_json) ;;
  results <~ new_results true [] [] ;;
  has_version <~ lift (contains (u "Version") policy) ;;
  _ <~ (if negb has_version then
          _ <~ append_issue results issue_no_version ;;
          _ <~ append_recommendation results rec_no_version ;;
          set_valid results false
        else ret tt) ;;
  has_statement <~ lift (contains (u "Statement") policy) ;;
  if negb has_statement then
    _ <~ append_issue results issue_no_statement ;;
    _ <~ set_valid results false ;;
    ret results
  else
    statements <~ lift (getitem policy (u "Statement")) ;;
    _ <~ for_statements self results 0 (as_list statements) ;;
    ret results.

(** [PolicyValidator.validate_policy]: the reference it returns leads to
    the report. *)
Definition validate_policy (self : ref) (policy_json : pyval) : proc ref :=
  try_except (validate_policy_try self policy_json)
    (fun e =>
       match e with
       | JSONDecodeError _ =>
           new_results false [u "Invalid JSON format"]
                       [u "Check the policy syntax for errors"]
       | _ =>
           new_results false [u "Validation error: " ++ str_of_exn e]
                       [u "Review the policy structure"]
       end).

(** The validator a reference leads to, with the lists it holds now. *)
Definition validator_at (h : store) (self : ref) : option PolicyValidator :=
  match nth_error h self with
  | Some (PyValidator o s) =>
      match nth_error h o, nth_error h s with
      | Some (PyList overly), Some (PyList sensitive) =>
          Some {| overly_permissive_actions := overly; sensitive_actions := sensitive |}
      | _, _ => None
      end
  | _ => None
  end.

(** The report a reference leads to, with the lists it holds now. *)
Definition report_at (h : store) (results : ref) : option report :=
  match nth_error h results with
  | Some (PyResults b i r) =>
      match nth_error h i, nth_error h r with
      | Some (PyList issue_items), Some (PyList recommendation_items) =>
          Some {| valid := b; issues := issue_items;
                  recommendations := recommendation_items |}
      | _, _ => None
      end
  | _ => None
  end.

(** The references a report is made of: the dictionary and its lists. *)
Definition cells_of (h : store) (results : ref) : list ref :=
  match nth_error h results with
  | Some (PyResults _ i r) => [results; i; r]
  | _ => [results]
  end.

End Store.

(** The store [h] followed by the three objects of a report [r]; the
    dictionary is the last of them. *)
Definition with_results (h : Store.store) (r : report) : Store.store :=
  h ++ [Store.PyList (issues r); Store.PyList (recommendations r);
        Store.PyResults (valid r) (List.length h) (S (List.length h))].

Definition results_ref (h : Store.store) : Store.ref := S (S (List.length h)).

(** What a piece of the method does to the store [h] and a report kept
    in the three objects after it, next to what its value-level
    counterpart returns: the same outcome, and the three objects hold the
    report returned, or some report when it raised. *)
Definition agrees (h : Store.store) (run : option (outcome unit * Store.store))
  (pure : outcome report) : Prop :=
  match pure with
  | Returns r' => run = Some (Returns tt, with_results h r')
  | Raises e => exists r', run = Some (Raises e, with_results h r')
  end.

(* ===================================================================== *)
(** ** Vocabulary of the statements below *)
(* ===================================================================== *)

(** A policy in the sense of the data model: a JSON object whose
    [Statement] entry, once normalised to a list, holds JSON objects. *)
Definition is_dict (v : pyval) : Prop := exists d, v = VDict d.

Definition statements_of (policy : pyval) (statements : list pyval) : Prop :=
  exists d sv,
    policy = VDict d /\ dict_get (u "Statement") d = Some sv /\
    statements = as_list sv /\ Forall is_dict statements.

(** The normalised action list of a statement, empty when the statement
    has no [Action]. *)
Definition actions_of (statement : pyval) : list pyval :=
  match statement with
  | VDict d =>
      match dict_get (u "Action") d with
      | Some a => as_list a
      | None => []
      end
  | _ => []
  end.

(** A statement whose only possible findings are sensitive actions and a
    missing condition: no action of the overly permissive list, and a
    [Resource] entry without the wildcard. *)
Definition only_sensitive_findings (self : PolicyValidator) (statement : pyval) : Prop :=
  Forall (fun a => in_names a (overly_permissive_actions self) = false)
         (actions_of statement) /\
  exists d r,
    statement = VDict d /\ dict_get (u "Resource") d = Some r /\
    Forall (fun x => eq_str x (u "*") = false) (as_list r).

(** The issues the loop body can append for statement number [i]. *)
Definition statement_issue (self : PolicyValidator) (i : nat) (statement : pyval)
  (x : str) : Prop :=
  (exists a, In a (actions_of statement) /\
             in_names a (overly_permissive_actions self) = true /\
             x = issue_overly i (format a)) \/
  (exists a, In a (actions_of statement) /\
             in_names a (sensitive_actions self) = true /\
             x = issue_sensitive i (format a)) \/
  x = issue_wildcard i \/
  x = issue_no_resource i.

(** [r'] comes from [r] by appending issues and recommendations and
    possibly clearing the valid flag. *)
Definition extends (r r' : report) : Prop :=
  (exists xs, issues r' = issues r ++ xs) /\
  (exists ys, recommendations r' = recommendations r ++ ys) /\
  (valid r = false -> valid r' = false).

(** An invalid report names at least one issue. *)
Definition invalid_has_issue (r : report) : Prop :=
  valid r = false -> issues r <> [].

(** The shape the three inner loops share: every element that passes
    [test] appends an issue and a recommendation, and clears the valid
    flag when the rule is blocking. *)
Definition flag_loop {A : Type} (test : A -> bool) (issue rec : A -> str)
  (blocking : bool) (l : list A) (results : report) : report :=
  fold_left
    (fun res a =>
       if test a then
         if blocking then invalidate (note (issue a) (rec a) res)
         else note (issue a) (rec a) res
       else res)
    l results.

(** What is left of [check_statement] once the three membership tests
    are settled: [resources] is [None] when the statement has no
    [Resource]. *)
Definition statement_result (self : PolicyValidator) (i : nat)
  (actions : list pyval) (resources : option (list pyval)) (has_condition : bool)
  (results : report) : report :=
  let r1 := check_sensitive self i actions (check_overly self i actions results) in
  let r2 := match resources with
            | Some rs => check_resources i rs r1
            | None => invalidate (note (issue_no_resource i) rec_no_resource r1)
            end in
  if negb has_condition then add_recommendation (rec_condition i) r2 else r2.

(** The report as it stands when the loop over the statements starts. *)
Definition precheck (has_version : bool) : report :=
  let results := {| valid := true; issues := []; recommendations := [] |} in
  if negb has_version then invalidate (note issue_no_version rec_no_version results)
  else results.


(** An empty [Statement] list reported as a violation, as the
    specification words it. *)
Definition empty_statement_is_violation (self : PolicyValidator) (policy_json : pyval)
  : Prop :=
  forall d v,
    parse_policy policy_json = Returns (VDict d) ->
    dict_get (u "Version") d = Some v ->
    dict_get (u "Statement") d = Some (VList []) ->
    exists r,
      validate_policy self policy_json = Returns r /\
      valid r = false /\ issues r <> [].

(** A document without [Statement] reported with exactly one issue, as
    the specification words it. *)
Definition missing_statement_single_issue (self : PolicyValidator) (policy_json : pyval)
  : Prop :=
  forall policy,
    parse_policy policy_json = Returns policy ->
    contains (u "Statement") policy = Returns false ->
    exists r,
      validate_policy self policy_json = Returns r /\
      valid r = false /\ issues r = [issue_no_statement].

(** The normalised resource list of a statement, [None] when the
    statement has no [Resource]. *)
Definition resources_of (statement : pyval) : option (list pyval) :=
  match statement with
  | VDict d => option_map as_list (dict_get (u "Resource") d)
  | _ => None
  end.

(** ["Condition" in statement] for a statement that is an object. *)
Definition has_condition (statement : pyval) : bool :=
  match statement with
  | VDict d => match dict_get (u "Condition") d with Some _ => true | None => false end
  | _ => false
  end.

(** Number of statements without a [Condition]. *)
Definition count_without_condition (statements : list pyval) : nat :=
  List.length (filter (fun st => negb (has_condition st)) statements).

(** [None], [True]/[False], and numbers: the values on which [in] raises. *)
Definition is_scalar (v : pyval) : bool :=
  match v with
  | VNone | VBool _ | VInt _ | VFloat _ => true
  | _ => false
  end.

Definition is_list (v : pyval) : bool :=
  match v with
  | VList _ => true
  | _ => false
  end.

(** The generic report of the last [except] clause, for some message. *)
Definition is_validation_error (r : report) : Prop :=
  exists msg,
    r = {| valid := false;
           issues := [u "Validation error: " ++ msg];
           recommendations := [u "Review the policy structure"] |}.

(** The recommendations the loop body can append for a statement that is
    an object. *)
Definition statement_recommendation (self : PolicyValidator) (i : nat)
  (statement : pyval) (y : str) : Prop :=
  (exists a, y = rec_overly a) \/ (exists a, y = rec_sensitive a) \/
  y = rec_wildcard \/ y = rec_no_resource \/
  (y = rec_condition i /\ has_condition statement = false).

(** The marker that opens a fenced block and the fence that closes it. *)
Definition fence_open : str := u "```json".
Definition fence_close : str := u "```".

(** What the brace scan can return: an opening brace, white space, the
    quoted text [Version], anything, the quoted text [Statement], then a
    text without a closing brace, then the first closing brace. *)
Definition brace_scan_shape (s : str) : Prop :=
  exists w a b,
    s = u "{" ++ w ++ jq "'Version'" ++ a ++ jq "'Statement'" ++ b ++ u "}" /\
    Forall (fun c => isspace c = true) w /\ ~ In 125 b.

(* ===================================================================== *)
(** ** app.py *)
(* ===================================================================== *)

(** Whether a float literal, as [json.loads] keeps it, denotes zero once
    read by [float]: all its digits are zero, or its value [m * 10^k] is
    at most [2^-1075], half the smallest positive float, and rounds to
    zero.  [NaN] and the infinities have no digit and are not zero. *)
Definition float_is_zero (literal : str) : bool :=
  let s := match Json.next_is 45 literal with Some r => r | None => literal end in
  let (int_digits, r1) := Json.span_digits s in
  let (frac_digits, r2) :=
    match Json.next_is 46 r1 with
    | Some r => Json.span_digits r
    | None => ([], r1)
    end in
  let exponent :=
    match r2 with
    | [] => 0%Z
    | _ :: r =>
        match Json.next_is 45 r, Json.next_is 43 r with
        | Some ds, _ => Z.opp (Json.int_of_digits ds)
        | None, Some ds => Json.int_of_digits ds
        | None, None => Json.int_of_digits r
        end
    end in
  match int_digits ++ frac_digits with
  | [] => false
  | digits =>
      let m := Json.int_of_digits digits in
      let k := (exponent - Z.of_nat (List.length frac_digits))%Z in
      (m =? 0)%Z || ((k <? 0)%Z && (m * 2 ^ 1075 <=? 10 ^ (- k))%Z)
  end.

(** [bool(x)] *)
Definition truthy (x : pyval) : bool :=
  match x with
  | VNone => false
  | VBool b => b
  | VInt z => negb (z =? 0)%Z
  | VFloat l => negb (float_is_zero l)
  | VStr s => match s with [] => false | _ => true end
  | VList l => match l with [] => false | _ => true end
  | VDict d => match d with [] => false | _ => true end
  end.

(** The module-level [policy_validator = PolicyValidator()]. *)
Definition policy_validator : PolicyValidator := __init__.

(** [extract_policy_json]: the pair [(json_str, policy)], with [None]
    twice when nothing is found.  The second component is a Python value,
    [VNone] standing for [None]. *)
Definition extract_policy_json (text : str) : outcome (option str * pyval) :=
  try_except
    (match Re.search json_pattern_fenced text with
     | Some m =>
         let json_str := strip (Re.group1 text m) in
         policy <- Json.loads json_str ;;
         Returns (Some json_str, policy)
     | None =>
         match Re.search json_pattern_braces text with
         | Some m =>
             let json_str := strip (Re.group0 text m) in
             policy <- Json.loads json_str ;;
             Returns (Some json_str, policy)
         | None => Returns (None, VNone)
         end
     end)
    (fun _ => Returns (None, VNone)).

Definition no_valid_policy_found : str := u "No valid policy found in the response.".

(** [for x in items: result += f"- {x}\n"] *)
Definition bullet_lines (items : list str) : str :=
  List.concat (map (fun x => u "- " ++ x ++ [10]) items).

(** The text [validate_policy_from_text] builds from a report. *)
Definition format_results (validation_results : report) : str :=
  let result := u "## Policy Validation Results" ++ [10; 10] in
  let result :=
    if valid validation_results then
      result ++ [9989] ++ u " **Policy is valid according to best practices.**" ++ [10; 10]
    else
      result ++ [9888; 65039] ++ u " **Policy has some issues to address:**" ++ [10; 10] in
  let result :=
    match issues validation_results with
    | [] => result
    | _ :: _ =>
        result ++ u "### Issues:" ++ [10] ++ bullet_lines (issues validation_results) ++ [10]
    end in
  match recommendations validation_results with
  | [] => result
  | _ :: _ =>
      result ++ u "### Recommendations:" ++ [10] ++
      bullet_lines (recommendations validation_results)
  end.

(** [validate_policy_from_text] *)
Definition validate_policy_from_text (text : str) : outcome str :=
  found <- extract_policy_json text ;;
  let (json_str, policy) := found in
  if negb (truthy policy) then Returns no_valid_policy_found
  else
    validation_results <- validate_policy policy_validator policy ;;
    Returns (format_results validation_results).

(** [{result}] in an f-string, for a string or [None]. *)
Definition format_optional (x : option str) : str :=
  match x with
  | Some s => s
  | None => u "None"
  end.

Definition saved_prefix : str := [9989] ++ u " Policy saved successfully to: ".
Definition failed_prefix : str := [10060] ++ u " Failed to save policy: ".
Definition no_policy_to_save : str := u "No valid policy to save.".
Definition no_policy_json_found : str := u "No valid policy JSON found in the response.".

Section AppSaving.

(** [policy_utils.save_policy], as in [PolicyUtils] above. *)
Variable save_policy : str -> option str -> option str -> option str.

(** [save_policy_from_text(text, policy_name=None)] *)
Definition save_policy_from_text (text : str) (policy_name : option str) : outcome str :=
  saved <- extract_and_save_policy save_policy text policy_name None ;;
  let (success, result) := saved in
  if success then Returns (saved_prefix ++ format_optional result)
  else Returns (failed_prefix ++ format_optional result).

(** [save_current_policy(policy_json, policy_name)] *)
Definition save_current_policy (policy_json policy_name : option str) : outcome str :=
  match policy_json with
  | None => Returns no_policy_to_save
  | Some text =>
      if match text with [] => true | _ => false end
         || str_eqb text no_policy_json_found
      then Returns no_policy_to_save
      else save_policy_from_text text policy_name
  end.

End AppSaving.

(* ===================================================================== *)
(** ** PolicyUtils.save_policy: where the file goes *)
(* ===================================================================== *)

Section SavePath.

(** [c.isalnum()] for a character outside ASCII, as the interpreter's
    Unicode tables have it. *)
Variable isalnum_unicode : char -> bool.

(** [c.isalnum()] *)
Definition isalnum (c : char) : bool :=
  if c <? 128 then
    ((48 <=? c) && (c <=? 57)) || ((65 <=? c) && (c <=? 90)) ||
    ((97 <=? c) && (c <=? 122))
  else isalnum_unicode c.

(** ["".join(c if c.isalnum() or c in ['-', '_'] else '_' for c in name)] *)
Definition clean_name (name : str) : str :=
  map (fun c => if isalnum c || (c =? 45) || (c =? 95) then c else 95) name.

(** The name of the file without its extension; [timestamp] is what
    [strftime] gave. *)
Definition file_stem (name : option str) (timestamp : str) : str :=
  match name with
  | Some (c :: n) => clean_name (c :: n)
  | _ => u "policy_" ++ timestamp
  end.

(** [os.path.join(a, b)] on a POSIX system. *)
Definition path_join (a b : str) : str :=
  if startswith (u "/") b then b
  else
    match rev a with
    | [] => a ++ b
    | last :: _ => if last =? 47 then a ++ b else a ++ u "/" ++ b
    end.

(** The path [save_policy] opens for writing. *)
Definition policy_filepath (policies_dir : str) (name : option str) (timestamp : str)
  : str :=
  path_join policies_dir (file_stem name timestamp ++ u ".json").

(** [a] with a separator after it, unless it is empty or has one. *)
Definition with_separator (a : str) : str :=
  match rev a with
  | [] => a
  | last :: _ => if last =? 47 then a else a ++ u "/"
  end.

End SavePath.

(* ===================================================================== *)
(** ** Sample documents *)
(* ===================================================================== *)

(** The scenario of the specification: no [Version], a wildcard action
    and a wildcard resource. *)
Definition scenario_text : str :=
  jq "{'Statement':[{'Effect':'Allow','Action':'iam:*','Resource':'*'}]}".

Definition scenario_policy : pyval :=
  VDict [(u "Statement",
          VList [VDict [(u "Effect", VStr (u "Allow"));
                        (u "Action", VStr (u "iam:*"));
                        (u "Resource", VStr (u "*"))]])].

(** A document with a version and an empty statement list. *)
Definition empty_statements_text : str :=
  jq "{'Version': '2012-10-17', 'Statement': []}".

(** The empty JSON object: neither [Version] nor [Statement]. *)
Definition empty_object_text : str := u "{}".

(** A version and nothing else. *)
Definition version_only_text : str := jq "{'Version': '2012-10-17'}".

(** Statement 1 uses the literal [s3:*], statement 2 only [s3:GetObject]. *)
Definition two_statements_text : str :=
  jq "{'Version': '2012-10-17', 'Statement': [{'Effect': 'Allow', 'Action': ['s3:ListBucket', 's3:*'], 'Resource': 'arn:aws:s3:::bucket'}, {'Effect': 'Allow', 'Action': 's3:GetObject', 'Resource': 'arn:aws:s3:::bucket/*'}]}".

Definition two_statements : list pyval :=
  [VDict [(u "Effect", VStr (u "Allow"));
          (u "Action", VList [VStr (u "s3:ListBucket"); VStr (u "s3:*")]);
          (u "Resource", VStr (u "arn:aws:s3:::bucket"))];
   VDict [(u "Effect", VStr (u "Allow"));
          (u "Action", VStr (u "s3:GetObject"));
          (u "Resource", VStr (u "arn:aws:s3:::bucket/*"))]].

Definition two_statements_policy : pyval :=
  VDict [(u "Version", VStr (u "2012-10-17")); (u "Statement", VList two_statements)].

(** Actions that only resemble an entry of the overly permissive list,
    beside one that is an entry. *)
Definition near_miss_text : str :=
  jq "{'Version': '2012-10-17', 'Statement': [{'Effect': 'Allow', 'Action': ['s3:GetObject', 's3:*'], 'Resource': 'arn:aws:s3:::bucket'}, {'Effect': 'Allow', 'Action': ['s3:*Object', 's3:', 'S3:*', '*:*', 'iam:*User'], 'Resource': 'arn:aws:s3:::bucket/*'}]}".

Definition near_miss_statements : list pyval :=
  [VDict [(u "Effect", VStr (u "Allow"));
          (u "Action", VList [VStr (u "s3:GetObject"); VStr (u "s3:*")]);
          (u "Resource", VStr (u "arn:aws:s3:::bucket"))];
   VDict [(u "Effect", VStr (u "Allow"));
          (u "Action", VList [VStr (u "s3:*Object"); VStr (u "s3:"); VStr (u "S3:*");
                              VStr (u "*:*"); VStr (u "iam:*User")]);
          (u "Resource", VStr (u "arn:aws:s3:::bucket/*"))]].

Definition near_miss_policy : pyval :=
  VDict [(u "Version", VStr (u "2012-10-17")); (u "Statement", VList near_miss_statements)].

(** A policy whose only finding is a sensitive action. *)
Definition sensitive_text : str :=
  jq "{'Version': '2012-10-17', 'Statement': {'Effect': 'Allow', 'Action': 'kms:Decrypt', 'Resource': 'arn:aws:kms:us-east-1:1:key/k'}}".

Definition sensitive_statement : pyval :=
  VDict [(u "Effect", VStr (u "Allow"));
         (u "Action", VStr (u "kms:Decrypt"));
         (u "Resource", VStr (u "arn:aws:kms:us-east-1:1:key/k"))].

Definition sensitive_policy : pyval :=
  VDict [(u "Version", VStr (u "2012-10-17")); (u "Statement", sensitive_statement)].

(** A text that is not JSON. *)
Definition malformed_text : str := u "{bad".


(* ===================================================================== *)
(** ** The decoder always has enough fuel *)
(* ===================================================================== *)

Module JsonFacts.
Import Json.
Local Open Scope nat_scope.

Lemma skip_ws_length (s : str) : List.length (skip_ws s) <= List.length s.
Proof.
  induction s as [|c r IH]; simpl; [lia|].
  destruct (is_ws c); simpl; lia.
Qed.

Lemma next_is_length (c : char) (s r : str) :
  next_is c s = Some r -> List.length s = S (List.length r).
Proof.
  destruct s as [|x s']; simpl; [discriminate|].
  destruct (N.eqb x c); [|discriminate].
  intros H; inversion H; reflexivity.
Qed.

Lemma strip_prefix_length (p s r : str) :
  strip_prefix p s = Some r -> List.length s = List.length p + List.length r.
Proof.
  revert s; induction p as [|x p IH]; intros s; simpl.
  - intros H; inversion H; reflexivity.
  - destruct s as [|y s']; [discriminate|].
    destruct (N.eqb x y); [|discriminate].
    intros H; apply IH in H; simpl; lia.
Qed.

Lemma span_digits_length (s ds rest : str) :
  span_digits s = (ds, rest) -> List.length s = List.length ds + List.length rest.
Proof.
  revert ds rest; induction s as [|c r IH]; intros ds rest; simpl.
  - intros H; inversion H; reflexivity.
  - destruct (is_digit c).
    + destruct (span_digits r) as [ds' rest'] eqn:E.
      intros H; inversion H; subst. specialize (IH _ _ eq_refl). simpl; lia.
    + intros H; inversion H; subst; reflexivity.
Qed.

Lemma digits1_length (s ds rest : str) :
  digits1 s = Some (ds, rest) -> List.length rest <= List.length s.
Proof.
  unfold digits1. destruct (span_digits s) as [ds' rest'] eqn:E.
  apply span_digits_length in E.
  destruct ds'; [discriminate|]. intros H; inversion H; subst. lia.
Qed.

Lemma match_intpart_length (s ds rest : str) :
  match_intpart s = Some (ds, rest) -> List.length rest < List.length s.
Proof.
  unfold match_intpart. destruct s as [|c r]; [discriminate|].
  destruct (N.eqb c 48%N).
  - intros H; inversion H; subst; simpl; lia.
  - destruct (is_digit c); [|discriminate].
    destruct (span_digits r) as [ds' rest'] eqn:E. apply span_digits_length in E.
    intros H; inversion H; subst; simpl; lia.
Qed.

Lemma match_frac_length (s f rest : str) :
  match_frac s = (f, rest) -> List.length rest <= List.length s.
Proof.
  unfold match_frac. destruct (next_is 46%N s) as [r|] eqn:E.
  - apply next_is_length in E.
    destruct (digits1 r) as [[ds rest']|] eqn:D.
    + apply digits1_length in D. intros H; inversion H; subst; lia.
    + intros H; inversion H; subst; lia.
  - intros H; inversion H; subst; lia.
Qed.

Lemma match_exp_length (s e rest : str) :
  match_exp s = (e, rest) -> List.length rest <= List.length s.
Proof.
  unfold match_exp. destruct s as [|c r]; [intros H; inversion H; subst; simpl; lia|].
  destruct (_ || _); [|intros H; inversion H; subst; simpl; lia].
  destruct r as [|sg r1]; [intros H; inversion H; subst; simpl; lia|].
  destruct (_ || _).
  - destruct (digits1 r1) as [[ds rest']|] eqn:D;
      [apply digits1_length in D|]; intros H; inversion H; subst; simpl in *; lia.
  - destruct (digits1 (sg :: r1)) as [[ds rest']|] eqn:D;
      [apply digits1_length in D|]; intros H; inversion H; subst; simpl in *; lia.
Qed.

Lemma match_number_length (s : str) (v : pyval) (rest : str) :
  match_number s = Some (v, rest) -> List.length rest < List.length s.
Proof.
  unfold match_number.
  destruct (next_is 45%N s) as [r|] eqn:E.
  - apply next_is_length in E.
    destruct (match_intpart r) as [[ds s1]|] eqn:I; [|discriminate].
    apply match_intpart_length in I.
    destruct (match_frac s1) as [f s2] eqn:F. apply match_frac_length in F.
    destruct (match_exp s2) as [e s3] eqn:X. apply match_exp_length in X.
    destruct f, e; intros H; inversion H; subst; lia.
  - destruct (match_intpart s) as [[ds s1]|] eqn:I; [|discriminate].
    apply match_intpart_length in I.
    destruct (match_frac s1) as [f s2] eqn:F. apply match_frac_length in F.
    destruct (match_exp s2) as [e s3] eqn:X. apply match_exp_length in X.
    destruct f, e; intros H; inversion H; subst; lia.
Qed.

Lemma match_constant_length (names : list (str * pyval)) (s : str) (v : pyval) (rest : str) :
  Forall (fun nv => fst nv <> []) names ->
  match_constant names s = Some (v, rest) -> List.length rest < List.length s.
Proof.
  induction names as [|[n w] names IH]; simpl; [discriminate|].
  intros HF. inversion HF as [|? ? Hn HF']; subst. simpl in Hn.
  destruct (strip_prefix n s) as [r|] eqn:E.
  - apply strip_prefix_length in E. intros H; inversion H; subst.
    destruct n; [congruence|]. simpl in E. lia.
  - auto.
Qed.

Lemma scanstring_fuel (n : nat) : forall (s chunks : str),
  List.length s <= n ->
  scanstring s chunks <> OutOfFuel /\
  forall k r, scanstring s chunks = Scanned k r -> List.length r < List.length s.
Proof.
  induction n as [|n IH]; intros s chunks Hn.
  - destruct s; cbn [scanstring]; [split; discriminate | cbn [List.length] in Hn; lia].
  - destruct s as [|c r]; cbn [scanstring]; [split; discriminate|].
    cbn [List.length] in Hn.
    repeat match goal with
    | |- context [match ?x with _ => _ end] =>
        match x with
        | scanstring _ _ => fail 1
        | _ => destruct x; cbv beta iota; cbn [List.length] in Hn
        end
    end;
    try (split; [discriminate
                | intros ? ? H; inversion H; subst; cbn [List.length]; lia]);
    match goal with
    | |- scanstring ?t ?c <> _ /\ _ =>
        destruct (IH t c) as [A B]; [cbn [List.length] in *; lia|];
        split; [exact A
               | intros k' r' H'; apply B in H'; cbn [List.length] in *; lia]
    end.
Qed.

Lemma scanstring_length (s chunks k r : str) :
  scanstring s chunks = Scanned k r -> List.length r < List.length s.
Proof. apply (scanstring_fuel (List.length s) s chunks (le_n _)). Qed.

Lemma scanstring_not_out (s chunks : str) : scanstring s chunks <> OutOfFuel.
Proof. apply (scanstring_fuel (List.length s) s chunks (le_n _)). Qed.

Lemma or_expecting_value_scanned (A : Type) (x : scan A) (a : A) (r : str) :
  or_expecting_value x = Scanned a r -> x = Scanned a r.
Proof. destruct x as [a' r'|[]|]; simpl; congruence. Qed.

Lemma or_expecting_value_out (A : Type) (x : scan A) :
  or_expecting_value x = OutOfFuel -> x = OutOfFuel.
Proof. destruct x as [a' r'|[]|]; simpl; congruence. Qed.

Lemma scanner_fuel (fuel : nat) :
  (forall depth s, 2 * List.length s < fuel -> consumes (scan_once fuel depth s) s) /\
  (forall depth pairs s, 2 * List.length s < fuel ->
     consumes (JSONObject fuel depth pairs s) s) /\
  (forall depth values s, 2 * List.length s + 1 < fuel ->
     consumes (JSONArray fuel depth values s) s).
Proof.
  induction fuel as [|fuel (IHs & IHo & IHa)].
  - repeat split; intros; lia.
  - repeat apply conj.
    + intros depth s Hf. destruct s as [|c r]; [split; discriminate|].
      simpl in Hf. cbn [scan_once].
      destruct (c =? 34)%N.
      { pose proof (scanstring_not_out r []) as Hno.
        destruct (scanstring r []) as [k r'|e|] eqn:E; [|split; discriminate|congruence].
        apply scanstring_length in E.
        split; [discriminate|]. intros v r0 H; inversion H; subst; simpl; lia. }
      destruct (c =? 123)%N.
      { destruct depth as [|depth]; [split; discriminate|].
        set (r0 := match next_is 34%N r with Some _ => r | None => skip_ws r end).
        assert (Hr0 : List.length r0 <= List.length r).
        { unfold r0. destruct (next_is 34%N r); [lia | apply skip_ws_length]. }
        destruct (next_is 125%N r0) as [r1|] eqn:E1.
        { apply next_is_length in E1. split; [discriminate|].
          intros v r2 H; inversion H; subst; simpl; lia. }
        destruct (next_is 34%N r0) as [r1|] eqn:E2; [|split; discriminate].
        apply next_is_length in E2.
        destruct (IHo depth [] r1) as [A B]; [lia|].
        split; [exact A|]. intros v r2 H. apply B in H. simpl; lia. }
      destruct (c =? 91)%N.
      { destruct depth as [|depth]; [split; discriminate|].
        pose proof (skip_ws_length r) as Hr0.
        destruct (next_is 93%N (skip_ws r)) as [r1|] eqn:E1.
        { apply next_is_length in E1. split; [discriminate|].
          intros v r2 H; inversion H; subst; simpl; lia. }
        destruct (IHa depth [] (skip_ws r)) as [A B]; [lia|].
        split; [exact A|]. intros v r2 H. apply B in H. simpl; lia. }
      destruct (match_constant literals (c :: r)) as [[v r']|] eqn:C1.
      { apply match_constant_length in C1;
          [|repeat constructor; simpl; discriminate].
        split; [discriminate|]. intros v0 r0 H; inversion H; subst; exact C1. }
      destruct (match_number (c :: r)) as [[v r']|] eqn:Nm.
      { apply match_number_length in Nm.
        split; [discriminate|]. intros v0 r0 H; inversion H; subst; exact Nm. }
      destruct (match_constant float_constants (c :: r)) as [[v r']|] eqn:C2;
        [|split; discriminate].
      apply match_constant_length in C2; [|repeat constructor; simpl; discriminate].
      split; [discriminate|]. intros v0 r0 H; inversion H; subst; exact C2.
    + intros depth pairs s Hf. cbn [JSONObject].
      pose proof (scanstring_not_out s []) as Hno.
      destruct (scanstring s []) as [key s1|e|] eqn:E; [|split; discriminate|congruence].
      apply scanstring_length in E.
      set (s2 := match next_is 58%N s1 with Some _ => s1 | None => skip_ws s1 end).
      assert (Hs2 : List.length s2 <= List.length s1).
      { unfold s2. destruct (next_is 58%N s1); [lia | apply skip_ws_length]. }
      destruct (next_is 58%N s2) as [s3|] eqn:E3; [|split; discriminate].
      apply next_is_length in E3.
      pose proof (skip_ws_length s3) as Hs3.
      destruct (IHs depth (skip_ws s3)) as [A B]; [lia|].
      destruct (or_expecting_value (scan_once fuel depth (skip_ws s3)))
        as [value s4|e|] eqn:V;
        [|split; discriminate|apply or_expecting_value_out in V; congruence].
      apply or_expecting_value_scanned in V. apply B in V.
      cbv zeta.
      pose proof (skip_ws_length s4) as Hs4.
      destruct (next_is 125%N (skip_ws s4)) as [s5|] eqn:E5.
      { apply next_is_length in E5. split; [discriminate|].
        intros v r H; inversion H; subst; lia. }
      destruct (next_is 44%N (skip_ws s4)) as [s5|] eqn:E6; [|split; discriminate].
      apply next_is_length in E6.
      pose proof (skip_ws_length s5) as Hs5.
      destruct (next_is 34%N (skip_ws s5)) as [s6|] eqn:E7; [|split; discriminate].
      apply next_is_length in E7.
      destruct (IHo depth (pairs ++ [(key, value)]) s6) as [A' B']; [lia|].
      split; [exact A'|]. intros v r H. apply B' in H. lia.
    + intros depth values s Hf. cbn [JSONArray].
      destruct (IHs depth s) as [A B]; [lia|].
      destruct (or_expecting_value (scan_once fuel depth s)) as [value s1|e|] eqn:V;
        [|split; discriminate|apply or_expecting_value_out in V; congruence].
      apply or_expecting_value_scanned in V. apply B in V.
      cbv zeta.
      pose proof (skip_ws_length s1) as Hs1.
      destruct (next_is 93%N (skip_ws s1)) as [s2|] eqn:E5.
      { apply next_is_length in E5. split; [discriminate|].
        intros v r H; inversion H; subst; lia. }
      destruct (next_is 44%N (skip_ws s1)) as [s2|] eqn:E6; [|split; discriminate].
      apply next_is_length in E6.
      pose proof (skip_ws_length s2) as Hs2.
      destruct (IHa depth (values ++ [value]) (skip_ws s2)) as [A' B']; [lia|].
      split; [exact A'|]. intros v r H. apply B' in H. lia.
Qed.

(** The fuel given by [decode] is never used up: [json.loads] returns a
    value or raises, as the Python function does. *)
Lemma decode_fuel (s : str) : decode s <> OutOfFuel.
Proof.
  unfold decode.
  destruct (proj1 (scanner_fuel (fuel_for (skip_ws s))) recursion_limit (skip_ws s))
    as [A _]; [unfold fuel_for; lia|].
  destruct (or_expecting_value _) as [obj rest|e|] eqn:V.
  - destruct (skip_ws rest); discriminate.
  - discriminate.
  - apply or_expecting_value_out in V. congruence.
Qed.
End JsonFacts.

(* ===================================================================== *)
(** ** Facts about text *)
(* ===================================================================== *)

Lemma str_eqb_eq (a b : str) : str_eqb a b = true <-> a = b.
Proof.
  revert b; induction a as [|x a IH]; intros [|y b]; simpl; split;
    try congruence; try discriminate.
  - intros H. apply andb_prop in H as [H1 H2].
    apply N.eqb_eq in H1. apply IH in H2. congruence.
  - intros H. inversion H; subst. rewrite N.eqb_refl. simpl. apply IH. reflexivity.
Qed.

Lemma str_eqb_refl (a : str) : str_eqb a a = true.
Proof. apply str_eqb_eq. reflexivity. Qed.

Lemma eq_str_true (x : pyval) (lit : str) : eq_str x lit = true -> x = VStr lit.
Proof.
  destruct x; simpl; try discriminate. intros H. apply str_eqb_eq in H. congruence.
Qed.

Lemma in_names_spec (x : pyval) (names : list str) :
  in_names x names = true <-> exists n, In n names /\ x = VStr n.
Proof.
  unfold in_names. rewrite existsb_exists. split.
  - intros (n & Hn & E). exists n. split; [exact Hn | apply eq_str_true, E].
  - intros (n & Hn & E). exists n. split; [exact Hn|]. subst. simpl. apply str_eqb_refl.
Qed.

Lemma uint_str_no_space (d : Decimal.uint) : Forall (fun c => c <> 32) (uint_str d).
Proof. induction d; simpl; constructor; try assumption; discriminate. Qed.

Lemma uint_str_inj (d d' : Decimal.uint) : uint_str d = uint_str d' -> d = d'.
Proof.
  revert d'; induction d; intros d'; destruct d'; simpl; intros H;
    try discriminate; try reflexivity;
    inversion H as [H']; f_equal; apply IHd; exact H'.
Qed.

Lemma str_of_nat_inj (n m : nat) : str_of_nat n = str_of_nat m -> n = m.
Proof.
  unfold str_of_nat. intros H. apply uint_str_inj in H.
  apply DecimalNat.Unsigned.to_uint_inj. exact H.
Qed.

(** Two texts that agree are cut the same way at their first space. *)
Lemma split_at_space (d1 d2 t1 t2 : str) :
  Forall (fun c => c <> 32) d1 -> Forall (fun c => c <> 32) d2 ->
  d1 ++ 32 :: t1 = d2 ++ 32 :: t2 -> d1 = d2 /\ t1 = t2.
Proof.
  revert d2; induction d1 as [|x d1 IH]; intros d2 H1 H2 E.
  - destruct d2 as [|y d2]; simpl in E.
    + inversion E; auto.
    + inversion E; subst. inversion H2; subst. congruence.
  - destruct d2 as [|y d2]; simpl in E.
    + inversion E; subst. inversion H1; subst. congruence.
    + inversion E; subst. inversion H1; inversion H2; subst.
      destruct (IH d2) as [A B]; auto. subst; auto.
Qed.

(** What follows [Statement <n>] in an issue decides the issue. *)
Lemma statement_prefix_inj (i j : nat) (t1 t2 : str) :
  u "Statement " ++ str_of_nat (i + 1) ++ 32 :: t1 =
  u "Statement " ++ str_of_nat (j + 1) ++ 32 :: t2 ->
  i = j /\ t1 = t2.
Proof.
  intros E. apply app_inv_head in E.
  apply split_at_space in E; try apply uint_str_no_space.
  destruct E as [E1 E2]. apply str_of_nat_inj in E1. split; [lia | exact E2].
Qed.

Lemma issue_overly_inj (i j : nat) (a b : str) :
  issue_overly i a = issue_overly j b -> i = j /\ a = b.
Proof.
  intros E. apply statement_prefix_inj in E as [E1 E2].
  split; [exact E1|]. apply (app_inv_head (u "contains overly permissive action: ")), E2.
Qed.

Lemma issue_overly_not_sensitive (i j : nat) (a b : str) :
  issue_overly i a <> issue_sensitive j b.
Proof. intros E. apply statement_prefix_inj in E as [_ E]. discriminate E. Qed.

Lemma issue_overly_not_wildcard (i j : nat) (a : str) :
  issue_overly i a <> issue_wildcard j.
Proof. intros E. apply statement_prefix_inj in E as [_ E]. discriminate E. Qed.

Lemma issue_overly_not_no_resource (i j : nat) (a : str) :
  issue_overly i a <> issue_no_resource j.
Proof. intros E. apply statement_prefix_inj in E as [_ E]. discriminate E. Qed.

Lemma issue_overly_not_no_version (i : nat) (a : str) :
  issue_overly i a <> issue_no_version.
Proof. intros E. discriminate E. Qed.

(* ===================================================================== *)
(** ** Facts about reports and the inner loops *)
(* ===================================================================== *)

Lemma extends_refl (r : report) : extends r r.
Proof.
  repeat split; [exists [] | exists [] | auto]; rewrite app_nil_r; reflexivity.
Qed.

Lemma extends_trans (a b c : report) : extends a b -> extends b c -> extends a c.
Proof.
  intros ((xs & Hx) & (ys & Hy) & Hv) ((xs' & Hx') & (ys' & Hy') & Hv').
  repeat split.
  - exists (xs ++ xs'). rewrite Hx', Hx, app_assoc. reflexivity.
  - exists (ys ++ ys'). rewrite Hy', Hy, app_assoc. reflexivity.
  - auto.
Qed.

Lemma extends_issue (r r' : report) (x : str) :
  extends r r' -> In x (issues r) -> In x (issues r').
Proof. intros ((xs & Hx) & _) H. rewrite Hx. apply in_or_app. auto. Qed.

Lemma extends_recommendation (r r' : report) (y : str) :
  extends r r' -> In y (recommendations r) -> In y (recommendations r').
Proof. intros (_ & (ys & Hy) & _) H. rewrite Hy. apply in_or_app. auto. Qed.

Lemma extends_invalid (r r' : report) :
  extends r r' -> valid r = false -> valid r' = false.
Proof. intros (_ & _ & Hv). exact Hv. Qed.

Lemma note_extends (i y : str) (r : report) : extends r (note i y r).
Proof. repeat split; simpl; eauto. Qed.

Lemma invalidate_extends (r : report) : extends r (invalidate r).
Proof. repeat split; simpl; [exists [] | exists []]; rewrite app_nil_r; reflexivity. Qed.

Lemma add_issue_extends (i : str) (r : report) : extends r (add_issue i r).
Proof.
  repeat split; simpl; eauto. exists []; rewrite app_nil_r; reflexivity.
Qed.

Lemma add_recommendation_extends (y : str) (r : report) :
  extends r (add_recommendation y r).
Proof.
  repeat split; simpl; eauto. exists []; rewrite app_nil_r; reflexivity.
Qed.

Lemma note_keeps_invariant (i y : str) (r : report) :
  invalid_has_issue (invalidate (note i y r)) /\ invalid_has_issue (note i y r).
Proof.
  split; intros _; simpl; intros E; apply app_eq_nil in E as [_ E]; discriminate.
Qed.

Section FlagLoop.
Context {A : Type}.
Variables (test : A -> bool) (issue rec : A -> str) (blocking : bool).

#[local] Abbreviation loop := (flag_loop test issue rec blocking).

Lemma flag_loop_cons (a : A) (l : list A) (r : report) :
  loop (a :: l) r =
  loop l (if test a then
            if blocking then invalidate (note (issue a) (rec a) r)
            else note (issue a) (rec a) r
          else r).
Proof. reflexivity. Qed.

Lemma flag_loop_extends (l : list A) : forall r, extends r (loop l r).
Proof.
  induction l as [|a l IH]; intros r; [apply extends_refl|].
  rewrite flag_loop_cons. eapply extends_trans; [|apply IH].
  destruct (test a); [|apply extends_refl].
  destruct blocking; [eapply extends_trans; [apply note_extends | apply invalidate_extends]
                     | apply note_extends].
Qed.

Lemma flag_loop_invariant (l : list A) : forall r,
  invalid_has_issue r -> invalid_has_issue (loop l r).
Proof.
  induction l as [|a l IH]; intros r Hr; [exact Hr|].
  rewrite flag_loop_cons. apply IH.
  destruct (test a); [|exact Hr].
  destruct blocking; apply note_keeps_invariant.
Qed.

Lemma flag_loop_issue_in (l : list A) : forall r x,
  In x (issues (loop l r)) ->
  In x (issues r) \/ exists a, In a l /\ test a = true /\ x = issue a.
Proof.
  induction l as [|a l IH]; intros r x Hx; [left; exact Hx|].
  rewrite flag_loop_cons in Hx. apply IH in Hx as [Hx | (b & Hb & Tb & Eb)].
  - destruct (test a) eqn:T; [|left; exact Hx].
    assert (Hx' : In x (issues r ++ [issue a])) by (destruct blocking; exact Hx).
    apply in_app_or in Hx' as [Hx' | [Hx' | []]]; [left; exact Hx'|].
    right. exists a. simpl. auto.
  - right. exists b. simpl. auto.
Qed.

Lemma flag_loop_hit (l : list A) : forall r a,
  In a l -> test a = true ->
  In (issue a) (issues (loop l r)) /\
  In (rec a) (recommendations (loop l r)) /\
  (blocking = true -> valid (loop l r) = false).
Proof.
  induction l as [|b l IH]; intros r a Ha Ta; [destruct Ha|].
  rewrite flag_loop_cons. destruct Ha as [-> | Ha]; [|apply IH; assumption].
  rewrite Ta.
  set (r1 := if blocking then _ else _).
  pose proof (flag_loop_extends l r1) as He.
  assert (H1 : In (issue a) (issues r1))
    by (unfold r1; destruct blocking; simpl; apply in_or_app; simpl; auto).
  assert (H2 : In (rec a) (recommendations r1))
    by (unfold r1; destruct blocking; simpl; apply in_or_app; simpl; auto).
  repeat split.
  - eapply extends_issue; eassumption.
  - eapply extends_recommendation; eassumption.
  - intros B. eapply extends_invalid; [exact He|]. unfold r1. rewrite B. reflexivity.
Qed.

Lemma flag_loop_clean (l : list A) : forall r,
  Forall (fun a => test a = false) l -> loop l r = r.
Proof.
  induction l as [|a l IH]; intros r H; [reflexivity|].
  inversion H as [|? ? Ta Hl]; subst.
  rewrite flag_loop_cons, Ta. apply IH. exact Hl.
Qed.

Lemma flag_loop_warning (l : list A) : forall r,
  blocking = false -> valid (loop l r) = valid r.
Proof.
  induction l as [|a l IH]; intros r B; [reflexivity|].
  rewrite flag_loop_cons, IH by exact B. rewrite B.
  destruct (test a); reflexivity.
Qed.
End FlagLoop.

Lemma check_overly_loop (self : PolicyValidator) (i : nat) :
  check_overly self i =
  flag_loop (fun a => in_names a (overly_permissive_actions self))
            (fun a => issue_overly i (format a)) (fun a => rec_overly (format a)) true.
Proof. reflexivity. Qed.

Lemma check_sensitive_loop (self : PolicyValidator) (i : nat) :
  check_sensitive self i =
  flag_loop (fun a => in_names a (sensitive_actions self))
            (fun a => issue_sensitive i (format a)) (fun a => rec_sensitive (format a)) false.
Proof. reflexivity. Qed.

Lemma check_resources_loop (i : nat) :
  check_resources i =
  flag_loop (fun x => eq_str x (u "*")) (fun _ => issue_wildcard i) (fun _ => rec_wildcard) true.
Proof. reflexivity. Qed.

(* ===================================================================== *)
(** ** Facts about one statement *)
(* ===================================================================== *)

Lemma statement_result_extends (self : PolicyValidator) (i : nat)
  (actions : list pyval) (resources : option (list pyval)) (c : bool) (r : report) :
  extends r (statement_result self i actions resources c r).
Proof.
  unfold statement_result.
  set (r1 := check_sensitive self i actions (check_overly self i actions r)).
  assert (H1 : extends r r1).
  { unfold r1. rewrite check_sensitive_loop, check_overly_loop.
    eapply extends_trans; [|apply flag_loop_extends]. apply flag_loop_extends. }
  set (r2 := match resources with Some rs => _ | None => _ end).
  assert (H2 : extends r1 r2).
  { unfold r2. destruct resources as [rs|].
    - rewrite check_resources_loop. apply flag_loop_extends.
    - eapply extends_trans; [apply note_extends | apply invalidate_extends]. }
  destruct c; simpl.
  - eapply extends_trans; eassumption.
  - eapply extends_trans; [eassumption|].
    eapply extends_trans; [eassumption | apply add_recommendation_extends].
Qed.

Lemma statement_result_invariant (self : PolicyValidator) (i : nat)
  (actions : list pyval) (resources : option (list pyval)) (c : bool) (r : report) :
  invalid_has_issue r ->
  invalid_has_issue (statement_result self i actions resources c r).
Proof.
  intros Hr. unfold statement_result.
  set (r1 := check_sensitive self i actions (check_overly self i actions r)).
  assert (H1 : invalid_has_issue r1).
  { unfold r1. rewrite check_sensitive_loop, check_overly_loop.
    apply flag_loop_invariant, flag_loop_invariant, Hr. }
  set (r2 := match resources with Some rs => _ | None => _ end).
  assert (H2 : invalid_has_issue r2).
  { unfold r2. destruct resources as [rs|].
    - rewrite check_resources_loop. apply flag_loop_invariant, H1.
    - apply note_keeps_invariant. }
  destruct c; simpl; [exact H2|]. exact H2.
Qed.

Lemma statement_result_issue_in (self : PolicyValidator) (i : nat)
  (actions : list pyval) (resources : option (list pyval)) (c : bool) (r : report)
  (x : str) :
  In x (issues (statement_result self i actions resources c r)) ->
  In x (issues r) \/
  (exists a, In a actions /\ in_names a (overly_permissive_actions self) = true /\
             x = issue_overly i (format a)) \/
  (exists a, In a actions /\ in_names a (sensitive_actions self) = true /\
             x = issue_sensitive i (format a)) \/
  x = issue_wildcard i \/ x = issue_no_resource i.
Proof.
  unfold statement_result.
  set (r1 := check_sensitive self i actions (check_overly self i actions r)).
  set (r2 := match resources with Some rs => _ | None => _ end).
  intros Hx.
  assert (Hx2 : In x (issues r2)) by (destruct c; exact Hx).
  assert (Hx1 : In x (issues r1) \/ x = issue_wildcard i \/ x = issue_no_resource i).
  { unfold r2 in Hx2. destruct resources as [rs|].
    - rewrite check_resources_loop in Hx2.
      apply flag_loop_issue_in in Hx2 as [Hx2 | (a & _ & _ & E)]; auto.
    - simpl in Hx2. apply in_app_or in Hx2 as [Hx2 | [Hx2 | []]]; auto. }
  destruct Hx1 as [Hx1 | Hx1]; [|auto].
  unfold r1 in Hx1. rewrite check_sensitive_loop in Hx1.
  apply flag_loop_issue_in in Hx1 as [Hx1 | Hs]; [|auto].
  rewrite check_overly_loop in Hx1.
  apply flag_loop_issue_in in Hx1 as [Hx1 | Ho]; auto.
Qed.

Lemma statement_result_overly (self : PolicyValidator) (i : nat)
  (actions : list pyval) (resources : option (list pyval)) (c : bool) (r : report)
  (a : pyval) :
  In a actions -> in_names a (overly_permissive_actions self) = true ->
  let r' := statement_result self i actions resources c r in
  In (issue_overly i (format a)) (issues r') /\
  In (rec_overly (format a)) (recommendations r') /\
  valid r' = false.
Proof.
  intros Ha Ta r'.
  pose proof (statement_result_extends self i [] resources c
                (check_sensitive self i actions (check_overly self i actions r))) as He.
  change (statement_result self i [] resources c
            (check_sensitive self i actions (check_overly self i actions r)))
    with r' in He.
  pose proof (flag_loop_extends (fun a => in_names a (sensitive_actions self))
                (fun a => issue_sensitive i (format a))
                (fun a => rec_sensitive (format a)) false actions
                (check_overly self i actions r)) as Hs.
  rewrite <- check_sensitive_loop in Hs.
  pose proof (extends_trans _ _ _ Hs He) as H.
  rewrite check_overly_loop in H.
  destruct (flag_loop_hit (fun a => in_names a (overly_permissive_actions self))
              (fun a => issue_overly i (format a))
              (fun a => rec_overly (format a)) true actions r a Ha Ta)
    as (H1 & H2 & H3).
  repeat split.
  - eapply extends_issue; eassumption.
  - eapply extends_recommendation; eassumption.
  - eapply extends_invalid; [exact H | auto].
Qed.

Lemma statement_result_sensitive (self : PolicyValidator) (i : nat)
  (actions : list pyval) (resources : option (list pyval)) (c : bool) (r : report)
  (a : pyval) :
  In a actions -> in_names a (sensitive_actions self) = true ->
  let r' := statement_result self i actions resources c r in
  In (issue_sensitive i (format a)) (issues r') /\
  In (rec_sensitive (format a)) (recommendations r').
Proof.
  intros Ha Ta r'.
  pose proof (statement_result_extends self i [] resources c
                (check_sensitive self i actions (check_overly self i actions r))) as He.
  change (statement_result self i [] resources c
            (check_sensitive self i actions (check_overly self i actions r)))
    with r' in He.
  rewrite check_sensitive_loop in He.
  destruct (flag_loop_hit (fun a => in_names a (sensitive_actions self))
              (fun a => issue_sensitive i (format a))
              (fun a => rec_sensitive (format a)) false actions
              (check_overly self i actions r) a Ha Ta)
    as (H1 & H2 & _).
  split.
  - eapply extends_issue; eassumption.
  - eapply extends_recommendation; eassumption.
Qed.

Lemma statement_result_valid (self : PolicyValidator) (i : nat)
  (actions rs : list pyval) (c : bool) (r : report) :
  Forall (fun a => in_names a (overly_permissive_actions self) = false) actions ->
  Forall (fun x => eq_str x (u "*") = false) rs ->
  valid (statement_result self i actions (Some rs) c r) = valid r.
Proof.
  intros Ha Hr. unfold statement_result.
  rewrite check_resources_loop, flag_loop_clean by exact Hr.
  rewrite check_sensitive_loop, check_overly_loop.
  rewrite (flag_loop_clean _ _ _ true actions) by exact Ha.
  destruct c; simpl; apply flag_loop_warning; reflexivity.
Qed.

Lemma check_statement_dict (self : PolicyValidator) (i : nat)
  (d : list (str * pyval)) (r : report) :
  check_statement self i (VDict d) r =
  Returns (statement_result self i (actions_of (VDict d))
             (option_map as_list (dict_get (u "Resource") d))
             (match dict_get (u "Condition") d with Some _ => true | None => false end)
             r).
Proof.
  unfold check_statement, statement_result, actions_of, contains, getitem, bind.
  destruct (dict_get (u "Action") d);
    destruct (dict_get (u "Resource") d);
    destruct (dict_get (u "Condition") d); reflexivity.
Qed.

(** Whatever the statement is, when the loop body finishes its result has
    the shape of [statement_result]. *)
Lemma check_statement_returns (self : PolicyValidator) (i : nat) (st : pyval)
  (r r' : report) :
  check_statement self i st r = Returns r' ->
  exists resources c, r' = statement_result self i (actions_of st) resources c r.
Proof.
  destruct st as [| | | | s | l | d]; try discriminate.
  - unfold check_statement, contains, getitem, bind.
    destruct (str_contains (u "Action") s); [discriminate|].
    destruct (str_contains (u "Resource") s); [discriminate|].
    intros H; inversion H.
    exists None, (str_contains (u "Condition") s). reflexivity.
  - unfold check_statement, contains, getitem, bind.
    destruct (existsb _ l); [discriminate|].
    destruct (existsb _ l); [discriminate|].
    intros H; inversion H.
    exists None, (existsb (fun x => eq_str x (u "Condition")) l). reflexivity.
  - rewrite check_statement_dict. intros H; inversion H. eauto.
Qed.

(* ===================================================================== *)
(** ** Facts about the loop over the statements *)
(* ===================================================================== *)

Lemma for_statements_cons (self : PolicyValidator) (i : nat) (st : pyval)
  (rest : list pyval) (r : report) :
  for_statements self i (st :: rest) r =
  bind (check_statement self i st r) (fun r1 => for_statements self (S i) rest r1).
Proof. reflexivity. Qed.

(** Splitting a finished run at its first statement. *)
Lemma for_statements_step (self : PolicyValidator) (i : nat) (st : pyval)
  (rest : list pyval) (r r' : report) :
  for_statements self i (st :: rest) r = Returns r' ->
  exists resources c,
    for_statements self (S i) rest
      (statement_result self i (actions_of st) resources c r) = Returns r'.
Proof.
  rewrite for_statements_cons. unfold bind.
  destruct (check_statement self i st r) as [r1|e] eqn:E; [|discriminate].
  apply check_statement_returns in E as (resources & c & ->). eauto.
Qed.

Lemma for_statements_extends (self : PolicyValidator) (stmts : list pyval) :
  forall i r r',
    for_statements self i stmts r = Returns r' ->
    extends r r' /\ (invalid_has_issue r -> invalid_has_issue r').
Proof.
  induction stmts as [|st rest IH]; intros i r r' H.
  - inversion H; subst. split; [apply extends_refl | auto].
  - apply for_statements_step in H as (resources & c & H).
    apply IH in H as [He Hi]. split.
    + eapply extends_trans; [apply statement_result_extends | exact He].
    + intros Hr. apply Hi, statement_result_invariant, Hr.
Qed.

Lemma for_statements_issue_in (self : PolicyValidator) (stmts : list pyval) :
  forall i r r' x,
    for_statements self i stmts r = Returns r' ->
    In x (issues r') ->
    In x (issues r) \/
    exists j st, nth_error stmts j = Some st /\ statement_issue self (i + j)%nat st x.
Proof.
  induction stmts as [|st rest IH]; intros i r r' x H Hx.
  - inversion H; subst. left; exact Hx.
  - apply for_statements_step in H as (resources & c & H).
    destruct (IH _ _ _ _ H Hx) as [Hx1 | (j & st' & Hj & Hs)].
    + apply statement_result_issue_in in Hx1 as [Hx1 | Hx1]; [left; exact Hx1|].
      right. exists 0%nat, st. rewrite Nat.add_0_r. split; [reflexivity|].
      unfold statement_issue. tauto.
    + right. exists (S j), st'. split; [exact Hj|].
      replace (i + S j)%nat with (S i + j)%nat by lia. exact Hs.
Qed.

Lemma for_statements_overly (self : PolicyValidator) (stmts : list pyval) :
  forall i j r r' st a,
    for_statements self i stmts r = Returns r' ->
    nth_error stmts j = Some st ->
    In a (actions_of st) ->
    in_names a (overly_permissive_actions self) = true ->
    In (issue_overly (i + j) (format a)) (issues r') /\
    In (rec_overly (format a)) (recommendations r') /\
    valid r' = false.
Proof.
  induction stmts as [|s0 rest IH]; intros i j r r' st a H Hj Ha Ta.
  - destruct j; discriminate.
  - apply for_statements_step in H as (resources & c & H).
    destruct j as [|j].
    + inversion Hj; subst s0. rewrite Nat.add_0_r.
      destruct (statement_result_overly self i (actions_of st) resources c r a Ha Ta)
        as (H1 & H2 & H3).
      apply for_statements_extends in H as [He _]. repeat split.
      * eapply extends_issue; eassumption.
      * eapply extends_recommendation; eassumption.
      * eapply extends_invalid; eassumption.
    + replace (i + S j)%nat with (S i + j)%nat by lia.
      eapply IH; eassumption.
Qed.

Lemma for_statements_sensitive (self : PolicyValidator) (stmts : list pyval) :
  forall i j r r' st a,
    for_statements self i stmts r = Returns r' ->
    nth_error stmts j = Some st ->
    In a (actions_of st) ->
    in_names a (sensitive_actions self) = true ->
    In (issue_sensitive (i + j) (format a)) (issues r') /\
    In (rec_sensitive (format a)) (recommendations r').
Proof.
  induction stmts as [|s0 rest IH]; intros i j r r' st a H Hj Ha Ta.
  - destruct j; discriminate.
  - apply for_statements_step in H as (resources & c & H).
    destruct j as [|j].
    + inversion Hj; subst s0. rewrite Nat.add_0_r.
      destruct (statement_result_sensitive self i (actions_of st) resources c r a Ha Ta)
        as (H1 & H2).
      apply for_statements_extends in H as [He _]. split.
      * eapply extends_issue; eassumption.
      * eapply extends_recommendation; eassumption.
    + replace (i + S j)%nat with (S i + j)%nat by lia.
      eapply IH; eassumption.
Qed.

(** Statements that are JSON objects never make the loop raise. *)
Lemma for_statements_dicts (self : PolicyValidator) (stmts : list pyval) :
  Forall is_dict stmts ->
  forall i r, exists r', for_statements self i stmts r = Returns r'.
Proof.
  induction 1 as [|st rest [d ->] _ IH]; intros i r.
  - exists r. reflexivity.
  - rewrite for_statements_cons, check_statement_dict. apply IH.
Qed.

Lemma for_statements_only_sensitive (self : PolicyValidator) (stmts : list pyval) :
  Forall (only_sensitive_findings self) stmts ->
  forall i r, exists r', for_statements self i stmts r = Returns r' /\ valid r' = valid r.
Proof.
  induction 1 as [|st rest (Ha & d & rs & -> & Hr & Hw) _ IH]; intros i r.
  - exists r. split; reflexivity.
  - rewrite for_statements_cons, check_statement_dict, Hr. simpl option_map. unfold bind.
    destruct (IH (S i) (statement_result self i (actions_of (VDict d)) (Some (as_list rs))
                   match dict_get (u "Condition") d with Some _ => true | None => false end
                   r)) as (r' & E & V).
    exists r'. split; [exact E|]. rewrite V. apply statement_result_valid; assumption.
Qed.

(* ===================================================================== *)
(** ** Facts about [validate_policy] *)
(* ===================================================================== *)

Lemma validate_policy_returns (self : PolicyValidator) (policy_json : pyval) (r : report) :
  validate_policy_try self policy_json = Returns r ->
  validate_policy self policy_json = Returns r.
Proof. unfold validate_policy. intros ->. reflexivity. Qed.

(** On a document of the data model the validator is the statement loop
    started from the precheck. *)
Lemma validate_policy_try_statements (self : PolicyValidator) (policy_json policy : pyval)
  (stmts : list pyval) :
  parse_policy policy_json = Returns policy ->
  statements_of policy stmts ->
  exists has_version,
    contains (u "Version") policy = Returns has_version /\
    validate_policy_try self policy_json =
    for_statements self 0 stmts (precheck has_version).
Proof.
  intros Hp (d & sv & -> & Hs & -> & _).
  exists (match dict_get (u "Version") d with Some _ => true | None => false end).
  split; [reflexivity|].
  unfold validate_policy_try. rewrite Hp. unfold bind, contains, getitem, precheck.
  rewrite Hs. destruct (dict_get (u "Version") d); reflexivity.
Qed.

(** Every report the [try] block returns satisfies the invariant. *)
Lemma validate_policy_try_invariant (self : PolicyValidator) (policy_json : pyval)
  (r : report) :
  validate_policy_try self policy_json = Returns r -> invalid_has_issue r.
Proof.
  unfold validate_policy_try, bind.
  destruct (parse_policy policy_json) as [policy|e]; [|discriminate].
  destruct (contains (u "Version") policy) as [hv|e]; [|discriminate].
  destruct (contains (u "Statement") policy) as [hs|e]; [|discriminate].
  assert (H0 : invalid_has_issue (precheck hv)).
  { unfold precheck. destruct hv; simpl; [intros H; discriminate H|].
    intros _; discriminate. }
  fold (precheck hv).
  destruct hs; cbn [negb].
  - destruct (getitem policy (u "Statement")) as [sv|e]; [|discriminate].
    intros H. apply for_statements_extends in H as [_ Hi]. apply Hi, H0.
  - intros H; inversion H. intros _. cbn [issues invalidate add_issue].
    intros E; apply app_eq_nil in E as [_ E]; discriminate.
Qed.

(* ===================================================================== *)
(** ** The validator: structural checks *)
(* ===================================================================== *)

(** C4. On the scenario document (no [Version], action [iam:*], resource
    [*]) the validator returns [valid = False] with exactly three
    issues, all different -- missing version, overly permissive action in
    statement 1, wildcard resource in statement 1 -- and four
    recommendations, the last one being the missing-condition
    recommendation for statement 1.  The same report is returned whether
    the document is passed as text or already decoded. *)
Theorem scenario_report :
  let expected :=
    {| valid := false;
       issues :=
         [u "Missing 'Version' field in policy";
          u "Statement 1 contains overly permissive action: iam:*";
          u "Statement 1 applies to all resources ('*')"];
       recommendations :=
         [u "Add 'Version': '2012-10-17' to the policy";
          u "Replace 'iam:*' with specific actions needed for the use case";
          u "Specify exact resource ARNs instead of using '*'";
          u "Consider adding conditions to Statement 1 for additional security"] |} in
  Json.loads scenario_text = Returns scenario_policy /\
  validate_policy __init__ (VStr scenario_text) = Returns expected /\
  validate_policy __init__ scenario_policy = Returns expected /\
  NoDup (issues expected).
Proof.
  cbv zeta. repeat split; try (vm_compute; reflexivity).
  repeat constructor; cbn [In issues]; intros H;
    repeat (destruct H as [H | H]; [discriminate H|]); exact H.
Qed.

(** C2 fails on the code: a document with a [Version] and
    ['Statement': []] is reported valid, with no issue at all. *)
Lemma empty_statements_not_reported :
  ~ empty_statement_is_violation __init__ (VStr empty_statements_text).
Proof.
  intros H.
  destruct (H [(u "Version", VStr (u "2012-10-17")); (u "Statement", VList [])]
              (VStr (u "2012-10-17")))
    as (r & Hr & Hv & _); try (vm_compute; reflexivity).
  vm_compute in Hr. inversion Hr; subst. discriminate Hv.
Qed.

(** C2, as the code has it: for every document that decodes to an object
    with a [Version] key and an empty [Statement] list, the validator
    returns [valid = True] with no issue and no recommendation; the loop
    over the statements has nothing to visit and nothing else looks at
    the list. *)
Theorem empty_statements_valid (self : PolicyValidator) (policy_json : pyval)
  (d : list (str * pyval)) (v : pyval) :
  parse_policy policy_json = Returns (VDict d) ->
  dict_get (u "Version") d = Some v ->
  dict_get (u "Statement") d = Some (VList []) ->
  validate_policy self policy_json =
  Returns {| valid := true; issues := []; recommendations := [] |}.
Proof.
  intros Hp Hv Hs. apply validate_policy_returns.
  unfold validate_policy_try. rewrite Hp.
  unfold bind, contains, getitem. rewrite Hv, Hs. reflexivity.
Qed.

Lemma empty_statements_valid_witness :
  validate_policy __init__ (VStr empty_statements_text) =
  Returns {| valid := true; issues := []; recommendations := [] |}.
Proof.
  apply (empty_statements_valid __init__ (VStr empty_statements_text)
           [(u "Version", VStr (u "2012-10-17")); (u "Statement", VList [])]
           (VStr (u "2012-10-17")));
    vm_compute; reflexivity.
Defined.

(** C3 fails on the code: the empty object lacks [Statement] and gets two
    issues, since the missing [Version] was recorded first. *)
Lemma missing_statement_two_issues :
  ~ missing_statement_single_issue __init__ (VStr empty_object_text).
Proof.
  intros H.
  destruct (H (VDict [])) as (r & Hr & _ & Hi); try (vm_compute; reflexivity).
  vm_compute in Hr. inversion Hr; subst. vm_compute in Hi. discriminate Hi.
Qed.

(** C3, as the code has it: for every document that decodes and lacks
    [Statement], the validator returns at once with [valid = False]; the
    last issue is the missing-statement message, preceded by the
    missing-version issue (with its recommendation) when [Version] is
    absent too.  No per-statement issue or recommendation appears. *)
Theorem missing_statement_short_circuit (self : PolicyValidator)
  (policy_json policy : pyval) (has_version : bool) :
  parse_policy policy_json = Returns policy ->
  contains (u "Version") policy = Returns has_version ->
  contains (u "Statement") policy = Returns false ->
  validate_policy self policy_json =
  Returns {| valid := false;
             issues := if has_version then [issue_no_statement]
                       else [issue_no_version; issue_no_statement];
             recommendations := if has_version then [] else [rec_no_version] |}.
Proof.
  intros Hp Hv Hs. apply validate_policy_returns.
  unfold validate_policy_try. rewrite Hp. unfold bind. rewrite Hv, Hs.
  destruct has_version; reflexivity.
Qed.

Lemma missing_statement_short_circuit_witness :
  validate_policy __init__ (VStr version_only_text) =
  Returns {| valid := false; issues := [issue_no_statement]; recommendations := [] |} /\
  validate_policy __init__ (VStr empty_object_text) =
  Returns {| valid := false; issues := [issue_no_version; issue_no_statement];
             recommendations := [rec_no_version] |}.
Proof.
  split.
  - apply (missing_statement_short_circuit __init__ (VStr version_only_text)
             (VDict [(u "Version", VStr (u "2012-10-17"))]) true);
      vm_compute; reflexivity.
  - apply (missing_statement_short_circuit __init__ (VStr empty_object_text)
             (VDict []) false);
      vm_compute; reflexivity.
Defined.

(* ===================================================================== *)
(** ** The validator: failure handling, determinism, invariant *)
(* ===================================================================== *)

Lemma validate_policy_total (self : PolicyValidator) (policy_json : pyval) :
  exists r, validate_policy self policy_json = Returns r.
Proof.
  unfold validate_policy, try_except.
  destruct (validate_policy_try self policy_json) as [r|[]]; eauto.
Qed.

(** C7. [validate_policy] never raises: for every validator and every
    argument it returns a report.  When the [try] block raised, the
    report is invalid with exactly one issue and exactly one
    recommendation; when decoding the text failed with a
    [JSONDecodeError] it is the report [Invalid JSON format] / [Check
    the policy syntax for errors], so no statement was looked at. *)
Theorem validate_policy_never_raises (self : PolicyValidator) (policy_json : pyval) :
  exists r,
    validate_policy self policy_json = Returns r /\
    (forall e, validate_policy_try self policy_json = Raises e ->
       valid r = false /\ List.length (issues r) = 1%nat /\
       List.length (recommendations r) = 1%nat) /\
    (forall msg, parse_policy policy_json = Raises (JSONDecodeError msg) ->
       r = {| valid := false;
              issues := [u "Invalid JSON format"];
              recommendations := [u "Check the policy syntax for errors"] |}).
Proof.
  unfold validate_policy, try_except.
  destruct (validate_policy_try self policy_json) as [r|e] eqn:E.
  - exists r. split; [reflexivity|]. split; [discriminate|].
    intros msg Hp. unfold validate_policy_try in E. rewrite Hp in E. discriminate E.
  - destruct e as [m|m|m|m|];
      (eexists; split; [reflexivity|]; split;
       [intros e' _; repeat split; reflexivity|]);
      intros msg Hp; unfold validate_policy_try in E; rewrite Hp in E;
      inversion E; reflexivity.
Qed.

Lemma validate_policy_never_raises_witness :
  parse_policy (VStr malformed_text) =
    Raises (JSONDecodeError (u "Expecting property name enclosed in double quotes")) /\
  validate_policy __init__ (VStr malformed_text) =
    Returns {| valid := false;
               issues := [u "Invalid JSON format"];
               recommendations := [u "Check the policy syntax for errors"] |}.
Proof.
  assert (Hp : parse_policy (VStr malformed_text) =
               Raises (JSONDecodeError
                         (u "Expecting property name enclosed in double quotes")))
    by (vm_compute; reflexivity).
  split; [exact Hp|].
  destruct (validate_policy_never_raises __init__ (VStr malformed_text))
    as (r & Hr & _ & Hd).
  rewrite Hr. f_equal. exact (Hd _ Hp).
Defined.

(* ===================================================================== *)
(** ** The validator on a store of objects *)
(* ===================================================================== *)

Module StoreFacts.

Local Open Scope nat_scope.

Lemma update_app (h t : Store.store) (k : nat) (o : Store.object) :
  Store.update (h ++ t) (List.length h + k) o = h ++ Store.update t k o.
Proof.
  induction h as [|x h IH]; [reflexivity|].
  cbn [List.length Nat.add app Store.update]. f_equal. exact IH.
Qed.

Lemma nth_error_after (h t : Store.store) (k : nat) :
  nth_error (h ++ t) (List.length h + k) = nth_error t k.
Proof.
  rewrite nth_error_app2 by apply Nat.le_add_r.
  f_equal. rewrite Nat.add_comm. apply Nat.add_sub.
Qed.

Lemma nth_error_new (h t : Store.store) :
  nth_error (h ++ t) (List.length h) = nth_error t 0 /\
  nth_error (h ++ t) (S (List.length h)) = nth_error t 1 /\
  nth_error (h ++ t) (S (S (List.length h))) = nth_error t 2.
Proof.
  rewrite <- (nth_error_after h t 0), <- (nth_error_after h t 1),
    <- (nth_error_after h t 2).
  rewrite Nat.add_0_r, Nat.add_1_r, (Nat.add_comm _ 2). auto.
Qed.

Lemma update_new (h t : Store.store) (o : Store.object) :
  Store.update (h ++ t) (List.length h) o = h ++ Store.update t 0 o /\
  Store.update (h ++ t) (S (List.length h)) o = h ++ Store.update t 1 o /\
  Store.update (h ++ t) (S (S (List.length h))) o = h ++ Store.update t 2 o.
Proof.
  rewrite <- (update_app h t 0), <- (update_app h t 1), <- (update_app h t 2).
  rewrite Nat.add_0_r, Nat.add_1_r, (Nat.add_comm _ 2). auto.
Qed.

Lemma nth_error_before (h t : Store.store) (a : nat) (o : Store.object) :
  nth_error h a = Some o -> nth_error (h ++ t) a = Some o.
Proof.
  intros H. rewrite nth_error_app1; [exact H|].
  apply nth_error_Some. rewrite H. discriminate.
Qed.

Lemma validator_at_inv (h : Store.store) (self : Store.ref) (v : PolicyValidator) :
  Store.validator_at h self = Some v ->
  exists o s,
    nth_error h self = Some (Store.PyValidator o s) /\
    nth_error h o = Some (Store.PyList (overly_permissive_actions v)) /\
    nth_error h s = Some (Store.PyList (sensitive_actions v)).
Proof.
  unfold Store.validator_at.
  destruct (nth_error h self) as [[| |o s]|] eqn:H1; try discriminate.
  destruct (nth_error h o) as [[lo| |]|] eqn:H2; try discriminate.
  destruct (nth_error h s) as [[ls| |]|] eqn:H3; try discriminate.
  intros E. inversion E; subst. exists o, s. auto.
Qed.

(** Objects added to the store leave a validator as it is. *)
Lemma validator_at_app (h t : Store.store) (self : Store.ref) (v : PolicyValidator) :
  Store.validator_at h self = Some v -> Store.validator_at (h ++ t) self = Some v.
Proof.
  intros H. apply validator_at_inv in H as (o & s & H1 & H2 & H3).
  unfold Store.validator_at.
  rewrite (nth_error_before _ t _ _ H1), (nth_error_before _ t _ _ H2),
    (nth_error_before _ t _ _ H3).
  destruct v; reflexivity.
Qed.

Lemma validator_at_with_results (h : Store.store) (self : Store.ref)
  (v : PolicyValidator) (r : report) :
  Store.validator_at h self = Some v ->
  Store.validator_at (with_results h r) self = Some v.
Proof. apply validator_at_app. Qed.

Lemma report_at_app (h t : Store.store) (a : Store.ref) (r : report) :
  Store.report_at h a = Some r -> Store.report_at (h ++ t) a = Some r.
Proof.
  unfold Store.report_at.
  destruct (nth_error h a) as [[|b i rc|]|] eqn:H1; try discriminate.
  destruct (nth_error h i) as [[li| |]|] eqn:H2; try discriminate.
  destruct (nth_error h rc) as [[lr| |]|] eqn:H3; try discriminate.
  intros E.
  rewrite (nth_error_before _ t _ _ H1), (nth_error_before _ t _ _ H2),
    (nth_error_before _ t _ _ H3).
  exact E.
Qed.

Lemma cells_of_app (h t : Store.store) (a : Store.ref) (r : report) :
  Store.report_at h a = Some r -> Store.cells_of (h ++ t) a = Store.cells_of h a.
Proof.
  unfold Store.report_at, Store.cells_of.
  destruct (nth_error h a) as [[|b i rc|]|] eqn:H1; try discriminate.
  intros _. rewrite (nth_error_before _ t _ _ H1). reflexivity.
Qed.

Lemma lookup_issues (h : Store.store) (r : report) :
  nth_error (with_results h r) (List.length h) = Some (Store.PyList (issues r)).
Proof.
  unfold with_results. rewrite (proj1 (nth_error_new h _)). reflexivity.
Qed.

Lemma lookup_recommendations (h : Store.store) (r : report) :
  nth_error (with_results h r) (S (List.length h)) =
  Some (Store.PyList (recommendations r)).
Proof.
  unfold with_results. rewrite (proj1 (proj2 (nth_error_new h _))). reflexivity.
Qed.

Lemma lookup_results (h : Store.store) (r : report) :
  nth_error (with_results h r) (results_ref h) =
  Some (Store.PyResults (valid r) (List.length h) (S (List.length h))).
Proof.
  unfold with_results, results_ref.
  rewrite (proj2 (proj2 (nth_error_new h _))). reflexivity.
Qed.

Lemma report_at_with_results (h : Store.store) (r : report) :
  Store.report_at (with_results h r) (results_ref h) = Some r.
Proof.
  unfold Store.report_at.
  rewrite lookup_results, lookup_issues, lookup_recommendations.
  destruct r; reflexivity.
Qed.

Lemma cells_of_with_results (h : Store.store) (r : report) :
  Store.cells_of (with_results h r) (results_ref h) =
  [results_ref h; List.length h; S (List.length h)].
Proof. unfold Store.cells_of. rewrite lookup_results. reflexivity. Qed.

Lemma length_with_results (h : Store.store) (r : report) :
  List.length (with_results h r) = S (results_ref h).
Proof.
  unfold with_results, results_ref. rewrite length_app. cbn [List.length]. lia.
Qed.

(** *** One statement at a time *)

Lemma seq_returns {A B : Type} (m : Store.proc A) (k : A -> Store.proc B)
  (h h' : Store.store) (a : A) :
  m h = Some (Returns a, h') -> Store.seq m k h = k a h'.
Proof. unfold Store.seq. intros ->. reflexivity. Qed.

Lemma seq_raises {A B : Type} (m : Store.proc A) (k : A -> Store.proc B)
  (h h' : Store.store) (e : exn) :
  m h = Some (Raises e, h') -> Store.seq m k h = Some (Raises e, h').
Proof. unfold Store.seq. intros ->. reflexivity. Qed.

Lemma seq_lift {A B : Type} (o : outcome A) (k : A -> Store.proc B) (h : Store.store) :
  Store.seq (Store.lift o) k h =
  match o with
  | Returns a => k a h
  | Raises e => Some (Raises e, h)
  end.
Proof. destruct o; reflexivity. Qed.

Lemma append_issue_store (h : Store.store) (r : report) (x : str) :
  Store.append_issue (results_ref h) x (with_results h r) =
  Some (Returns tt, with_results h (add_issue x r)).
Proof.
  unfold Store.append_issue.
  rewrite (seq_returns _ _ _ (with_results h r) (List.length h))
    by (unfold Store.item_issues; rewrite lookup_results; reflexivity).
  unfold Store.append. rewrite lookup_issues. do 2 f_equal.
  unfold with_results. rewrite (proj1 (update_new h _ _)). reflexivity.
Qed.

Lemma append_recommendation_store (h : Store.store) (r : report) (x : str) :
  Store.append_recommendation (results_ref h) x (with_results h r) =
  Some (Returns tt, with_results h (add_recommendation x r)).
Proof.
  unfold Store.append_recommendation.
  rewrite (seq_returns _ _ _ (with_results h r) (S (List.length h)))
    by (unfold Store.item_recommendations; rewrite lookup_results; reflexivity).
  unfold Store.append. rewrite lookup_recommendations. do 2 f_equal.
  unfold with_results. rewrite (proj1 (proj2 (update_new h _ _))). reflexivity.
Qed.

Lemma set_valid_store (h : Store.store) (r : report) :
  Store.set_valid (results_ref h) false (with_results h r) =
  Some (Returns tt, with_results h (invalidate r)).
Proof.
  unfold Store.set_valid. rewrite lookup_results. do 2 f_equal.
  unfold with_results, results_ref.
  rewrite (proj2 (proj2 (update_new h _ _))). reflexivity.
Qed.

(** [issues.append; recommendations.append] and, for a blocking rule,
    [valid = False], as the three inner loops and the [else] branch of
    the resource check do it. *)
Lemma flag_store (h : Store.store) (r : report) (x y : str) :
  Store.seq (Store.append_issue (results_ref h) x)
    (fun _ => Store.seq (Store.append_recommendation (results_ref h) y)
                (fun _ => Store.set_valid (results_ref h) false))
    (with_results h r) =
  Some (Returns tt, with_results h (invalidate (note x y r))).
Proof.
  rewrite (seq_returns _ _ _ _ _ (append_issue_store h r x)).
  rewrite (seq_returns _ _ _ _ _ (append_recommendation_store h _ y)).
  rewrite set_valid_store. reflexivity.
Qed.

Lemma warn_store (h : Store.store) (r : report) (x y : str) :
  Store.seq (Store.append_issue (results_ref h) x)
    (fun _ => Store.append_recommendation (results_ref h) y)
    (with_results h r) =
  Some (Returns tt, with_results h (note x y r)).
Proof.
  rewrite (seq_returns _ _ _ _ _ (append_issue_store h r x)).
  rewrite append_recommendation_store. reflexivity.
Qed.

(** A loop whose body turns the report [r] into [f r x] computes the
    left fold of [f]. *)
Lemma for_each_store {A : Type} (h : Store.store) (body : A -> Store.proc unit)
  (f : report -> A -> report) :
  (forall r x, body x (with_results h r) = Some (Returns tt, with_results h (f r x))) ->
  forall l r,
    Store.for_each l body (with_results h r) =
    Some (Returns tt, with_results h (fold_left f l r)).
Proof.
  intros Hbody. induction l as [|x l IH]; intros r; [reflexivity|].
  cbn [Store.for_each fold_left].
  rewrite (seq_returns _ _ _ _ _ (Hbody r x)). apply IH.
Qed.

Section OneValidator.

Variable h : Store.store.
Variable self : Store.ref.
Variable v : PolicyValidator.
Hypothesis self_is_v : Store.validator_at h self = Some v.

Lemma test_overly_store (r : report) (x : pyval) (k : bool -> Store.proc unit) :
  Store.seq (Store.attr_overly self)
    (fun names => Store.seq (Store.in_list x names) k) (with_results h r) =
  k (in_names x (overly_permissive_actions v)) (with_results h r).
Proof.
  destruct (validator_at_inv _ _ _ (validator_at_with_results h self v r self_is_v))
    as (o & s & H1 & H2 & _).
  rewrite (seq_returns _ _ _ (with_results h r) o)
    by (unfold Store.attr_overly; rewrite H1; reflexivity).
  apply seq_returns. unfold Store.in_list. rewrite H2. reflexivity.
Qed.

Lemma test_sensitive_store (r : report) (x : pyval) (k : bool -> Store.proc unit) :
  Store.seq (Store.attr_sensitive self)
    (fun names => Store.seq (Store.in_list x names) k) (with_results h r) =
  k (in_names x (sensitive_actions v)) (with_results h r).
Proof.
  destruct (validator_at_inv _ _ _ (validator_at_with_results h self v r self_is_v))
    as (o & s & H1 & _ & H3).
  rewrite (seq_returns _ _ _ (with_results h r) s)
    by (unfold Store.attr_sensitive; rewrite H1; reflexivity).
  apply seq_returns. unfold Store.in_list. rewrite H3. reflexivity.
Qed.

Lemma check_overly_store (i : nat) (actions : list pyval) (r : report) :
  Store.check_overly self (results_ref h) i actions (with_results h r) =
  Some (Returns tt, with_results h (check_overly v i actions r)).
Proof.
  unfold Store.check_overly, check_overly. apply for_each_store.
  intros r0 x. rewrite test_overly_store.
  destruct (in_names x (overly_permissive_actions v)); [apply flag_store | reflexivity].
Qed.

Lemma check_sensitive_store (i : nat) (actions : list pyval) (r : report) :
  Store.check_sensitive self (results_ref h) i actions (with_results h r) =
  Some (Returns tt, with_results h (check_sensitive v i actions r)).
Proof.
  unfold Store.check_sensitive, check_sensitive. apply for_each_store.
  intros r0 x. rewrite test_sensitive_store.
  destruct (in_names x (sensitive_actions v)); [apply warn_store | reflexivity].
Qed.

Lemma check_resources_store (i : nat) (resources : list pyval) (r : report) :
  Store.check_resources (results_ref h) i resources (with_results h r) =
  Some (Returns tt, with_results h (check_resources i resources r)).
Proof.
  unfold Store.check_resources, check_resources. apply for_each_store.
  intros r0 x. destruct (eq_str x (u "*")); [apply flag_store | reflexivity].
Qed.

Lemma check_statement_store (i : nat) (statement : pyval) (r : report) :
  agrees h (Store.check_statement self (results_ref h) i statement (with_results h r))
         (check_statement v i statement r).
Proof.
  unfold Store.check_statement, check_statement, agrees.
  rewrite seq_lift.
  destruct (contains (u "Action") statement) as [has_action|e]; cbn [bind];
    [|exists r; reflexivity].
  assert (Hact : agrees h
            ((if has_action
              then Store.seq (Store.lift (getitem statement (u "Action")))
                     (fun a => Store.seq
                         (Store.check_overly self (results_ref h) i (as_list a))
                         (fun _ => Store.check_sensitive self (results_ref h) i (as_list a)))
              else Store.ret tt) (with_results h r))
            (if has_action
             then bind (getitem statement (u "Action"))
                    (fun a => Returns (check_sensitive v i (as_list a)
                                         (check_overly v i (as_list a) r)))
             else Returns r)).
  { destruct has_action; [|reflexivity].
    rewrite seq_lift. destruct (getitem statement (u "Action")) as [a|e]; cbn [bind agrees];
      [|exists r; reflexivity].
    rewrite (seq_returns _ _ _ _ _ (check_overly_store i (as_list a) r)).
    apply check_sensitive_store. }
  unfold agrees in Hact.
  destruct (if has_action
            then bind (getitem statement (u "Action"))
                   (fun a => Returns (check_sensitive v i (as_list a)
                                        (check_overly v i (as_list a) r)))
            else Returns r) as [r1|e]; cbn [bind];
    [|destruct Hact as (r' & Hact); exists r'; apply seq_raises, Hact].
  rewrite (seq_returns _ _ _ _ _ Hact). clear Hact.
  rewrite seq_lift.
  destruct (contains (u "Resource") statement) as [has_resource|e]; cbn [bind];
    [|exists r1; reflexivity].
  assert (Hres : agrees h
            ((if has_resource
              then Store.seq (Store.lift (getitem statement (u "Resource")))
                     (fun x => Store.check_resources (results_ref h) i (as_list x))
              else Store.seq (Store.append_issue (results_ref h) (issue_no_resource i))
                     (fun _ => Store.seq
                         (Store.append_recommendation (results_ref h) rec_no_resource)
                         (fun _ => Store.set_valid (results_ref h) false)))
               (with_results h r1))
            (if has_resource
             then bind (getitem statement (u "Resource"))
                    (fun x => Returns (check_resources i (as_list x) r1))
             else Returns (invalidate (note (issue_no_resource i) rec_no_resource r1)))).
  { destruct has_resource; [|apply flag_store].
    rewrite seq_lift. destruct (getitem statement (u "Resource")) as [x|e]; cbn [bind agrees];
      [|exists r1; reflexivity].
    apply check_resources_store. }
  unfold agrees in Hres.
  destruct (if has_resource
            then bind (getitem statement (u "Resource"))
                   (fun x => Returns (check_resources i (as_list x) r1))
            else Returns (invalidate (note (issue_no_resource i) rec_no_resource r1)))
    as [r2|e]; cbn [bind];
    [|destruct Hres as (r' & Hres); exists r'; apply seq_raises, Hres].
  rewrite (seq_returns _ _ _ _ _ Hres). clear Hres.
  rewrite seq_lift.
  destruct (contains (u "Condition") statement) as [has_condition|e]; cbn [bind];
    [|exists r2; reflexivity].
  destruct has_condition; cbn [negb]; [reflexivity | apply append_recommendation_store].
Qed.

Lemma for_statements_store (statements : list pyval) :
  forall i r,
    agrees h (Store.for_statements self (results_ref h) i statements (with_results h r))
           (for_statements v i statements r).
Proof.
  induction statements as [|statement rest IH]; intros i r; [reflexivity|].
  cbn [Store.for_statements for_statements].
  pose proof (check_statement_store i statement r) as H. unfold agrees in H.
  destruct (check_statement v i statement r) as [r1|e]; cbn [bind].
  - rewrite (seq_returns _ _ _ _ _ H). apply IH.
  - destruct H as (r' & H). exists r'. apply seq_raises, H.
Qed.

Lemma new_results_store (h0 : Store.store) (r : report) :
  Store.new_results (valid r) (issues r) (recommendations r) h0 =
  Some (Returns (results_ref h0), with_results h0 r).
Proof.
  unfold Store.new_results, Store.seq, Store.alloc, with_results, results_ref.
  rewrite !length_app. cbn [List.length]. rewrite <- !app_assoc. cbn [app].
  rewrite !Nat.add_1_r. reflexivity.
Qed.

(** The body of the [try] block: when it returns, the store has grown by
    the three objects of the report; when it raises, by nothing or by
    the three objects of the report begun. *)
Lemma validate_policy_try_store (policy_json : pyval) :
  match validate_policy_try v policy_json with
  | Returns r =>
      Store.validate_policy_try self policy_json h =
      Some (Returns (results_ref h), with_results h r)
  | Raises e =>
      exists h', Store.validate_policy_try self policy_json h = Some (Raises e, h') /\
                 (h' = h \/ exists r, h' = with_results h r)
  end.
Proof.
  unfold Store.validate_policy_try, validate_policy_try.
  rewrite seq_lift.
  destruct (parse_policy policy_json) as [policy|e]; cbn [bind];
    [|exists h; split; [reflexivity | left; reflexivity]].
  set (r0 := {| valid := true; issues := []; recommendations := [] |}).
  rewrite (seq_returns _ _ _ _ _ (new_results_store h r0)).
  rewrite seq_lift.
  destruct (contains (u "Version") policy) as [has_version|e]; cbn [bind];
    [|exists (with_results h r0); split; [reflexivity | right; exists r0; reflexivity]].
  set (r1 := if negb has_version
             then invalidate (note issue_no_version rec_no_version r0) else r0).
  assert (H1 : (if negb has_version
                then Store.seq (Store.append_issue (results_ref h) issue_no_version)
                       (fun _ => Store.seq
                           (Store.append_recommendation (results_ref h) rec_no_version)
                           (fun _ => Store.set_valid (results_ref h) false))
                else Store.ret tt) (with_results h r0) =
               Some (Returns tt, with_results h r1)).
  { unfold r1. destruct has_version; cbn [negb]; [reflexivity | apply flag_store]. }
  rewrite (seq_returns _ _ _ _ _ H1). clear H1.
  rewrite seq_lift.
  destruct (contains (u "Statement") policy) as [has_statement|e]; cbn [bind];
    [|exists (with_results h r1); split; [reflexivity | right; exists r1; reflexivity]].
  destruct has_statement; cbn [negb].
  - rewrite seq_lift.
    destruct (getitem policy (u "Statement")) as [statements|e]; cbn [bind];
      [|exists (with_results h r1); split; [reflexivity | right; exists r1; reflexivity]].
    pose proof (for_statements_store (as_list statements) 0%nat r1) as H.
    unfold agrees in H.
    destruct (for_statements v 0 (as_list statements) r1) as [r2|e].
    + rewrite (seq_returns _ _ _ _ _ H). reflexivity.
    + destruct H as (r' & H). exists (with_results h r'). split.
      * apply seq_raises, H.
      * right. exists r'. reflexivity.
  - rewrite (seq_returns _ _ _ _ _ (append_issue_store h r1 issue_no_statement)).
    rewrite (seq_returns _ _ _ _ _ (set_valid_store h _)). reflexivity.
Qed.

(** The method over the store computes the report of the value-level
    method: it adds objects to the store, changes none that was there,
    and returns the reference of the last one, which leads to that
    report. *)
Lemma validate_policy_store (policy_json : pyval) :
  exists r added,
    validate_policy v policy_json = Returns r /\
    Store.validate_policy self policy_json h =
    Some (Returns (results_ref (h ++ added)), with_results (h ++ added) r).
Proof.
  pose proof (validate_policy_try_store policy_json) as H.
  unfold Store.validate_policy, validate_policy, Store.try_except, try_except.
  destruct (validate_policy_try v policy_json) as [r|e].
  - exists r, []. rewrite app_nil_r. split; [reflexivity|]. rewrite H. reflexivity.
  - destruct H as (h' & -> & Hh').
    assert (Hadd : exists added, h' = h ++ added).
    { destruct Hh' as [-> | (r' & ->)].
      - exists []. symmetry. apply app_nil_r.
      - eexists. reflexivity. }
    destruct Hadd as (added & ->).
    destruct e as [m|m|m|m|];
      (eexists; exists added; split; [reflexivity|];
       match goal with
       | |- _ = Some (_, with_results ?h0 ?r) => exact (new_results_store h0 r)
       end).
Qed.

End OneValidator.

End StoreFacts.

(** C8. Two calls of [validate_policy] in a row, on the same validator
    object with the same argument, each return a reference to a report,
    and the two reports agree in the valid flag, in the issues and in the
    recommendations, order included.  The calls keep no state: each
    builds its report out of objects it creates, so the two reports share
    no object and the first reads after the second call as it did before;
    the validator's lists, read through [self] at every test, and every
    other object that was in the store are left as they were; and the
    report is the one the value-level [validate_policy] computes from
    those lists and the argument. *)
Theorem validate_policy_deterministic (h : Store.store) (self : Store.ref)
  (v : PolicyValidator) (policy_json : pyval) :
  Store.validator_at h self = Some v ->
  exists first h1 second h2 r1 r2,
    Store.validate_policy self policy_json h = Some (Returns first, h1) /\
    Store.validate_policy self policy_json h1 = Some (Returns second, h2) /\
    first <> second /\
    Store.report_at h2 first = Some r1 /\
    Store.report_at h2 second = Some r2 /\
    valid r1 = valid r2 /\ issues r1 = issues r2 /\
    recommendations r1 = recommendations r2 /\
    Store.report_at h1 first = Some r1 /\
    validate_policy v policy_json = Returns r1 /\
    NoDup (Store.cells_of h2 first ++ Store.cells_of h2 second) /\
    Store.validator_at h2 self = Some v /\
    (forall a, (a < List.length h)%nat -> nth_error h2 a = nth_error h a).
Proof.
  intros Hv.
  destruct (StoreFacts.validate_policy_store h self v Hv policy_json)
    as (r & add1 & Hr & H1).
  set (g1 := h ++ add1) in *. set (h1 := with_results g1 r) in *.
  assert (Hv1 : Store.validator_at h1 self = Some v).
  { apply StoreFacts.validator_at_with_results, StoreFacts.validator_at_app, Hv. }
  destruct (StoreFacts.validate_policy_store h1 self v Hv1 policy_json)
    as (r' & add2 & Hr' & H2).
  rewrite Hr in Hr'. inversion Hr'; subst r'. clear Hr'.
  set (g2 := h1 ++ add2) in *.
  assert (Hfirst : Store.report_at h1 (results_ref g1) = Some r)
    by apply StoreFacts.report_at_with_results.
  assert (Hlen : (S (results_ref g1) <= List.length g2)%nat).
  { unfold g2. rewrite length_app. unfold h1.
    rewrite StoreFacts.length_with_results. apply Nat.le_add_r. }
  exists (results_ref g1), h1, (results_ref g2), (with_results g2 r), r, r.
  repeat split; try assumption.
  - unfold results_ref in *. lia.
  - unfold with_results, g2. apply StoreFacts.report_at_app, StoreFacts.report_at_app, Hfirst.
  - apply StoreFacts.report_at_with_results.
  - rewrite StoreFacts.cells_of_with_results.
    unfold with_results at 1. unfold g2 at 1.
    rewrite (StoreFacts.cells_of_app _ _ _ r)
      by (apply StoreFacts.report_at_app, Hfirst).
    rewrite (StoreFacts.cells_of_app _ _ _ r) by exact Hfirst.
    unfold h1 at 1. rewrite StoreFacts.cells_of_with_results.
    unfold results_ref in *. cbn [app].
    repeat constructor; cbn [In]; lia.
  - apply StoreFacts.validator_at_with_results, StoreFacts.validator_at_app, Hv1.
  - intros a Ha. unfold with_results, g2, h1, with_results, g1.
    rewrite !nth_error_app1; [reflexivity | | | |];
      rewrite ?length_app; lia.
Qed.

Lemma validate_policy_deterministic_witness :
  exists self h,
    Store.new_validator [] = Some (Returns self, h) /\
    Store.validator_at h self = Some __init__ /\
    exists first h1 second h2 r,
      Store.validate_policy self (VStr two_statements_text) h = Some (Returns first, h1) /\
      Store.validate_policy self (VStr two_statements_text) h1 = Some (Returns second, h2) /\
      first <> second /\
      Store.report_at h2 first = Some r /\ Store.report_at h2 second = Some r /\
      valid r = false.
Proof.
  eexists. eexists. split; [reflexivity|]. split; [reflexivity|].
  destruct (validate_policy_deterministic
              [Store.PyList (overly_permissive_actions __init__);
               Store.PyList (sensitive_actions __init__);
               Store.PyValidator 0%nat 1%nat]
              2%nat __init__ (VStr two_statements_text) eq_refl)
    as (first & h1 & second & h2 & r1 & r2 & C1 & C2 & D & R1 & R2 & Ev & Ei & Er & _ & P & _).
  exists first, h1, second, h2, r1.
  assert (E : r2 = r1) by (destruct r1, r2; cbn in Ev, Ei, Er; subst; reflexivity).
  subst r2. repeat split; try assumption.
  - vm_compute in P. inversion P. reflexivity.
Defined.

(** C9. In every report the validator returns, [valid = False] comes
    with at least one issue.  The converse fails: a policy whose only
    finding is a sensitive action is reported valid with one issue. *)
Theorem invalid_report_has_issue :
  (forall (self : PolicyValidator) (policy_json : pyval) (r : report),
     validate_policy self policy_json = Returns r ->
     valid r = false -> issues r <> []) /\
  (exists r,
     validate_policy __init__ (VStr sensitive_text) = Returns r /\
     valid r = true /\ issues r = [issue_sensitive 0 (u "kms:Decrypt")]).
Proof.
  split.
  - intros self policy_json r. unfold validate_policy, try_except.
    destruct (validate_policy_try self policy_json) as [r0|e] eqn:E.
    + intros H; inversion H; subst. apply (validate_policy_try_invariant _ _ _ E).
    + destruct e; intros H; inversion H; subst; intros _; discriminate.
  - eexists. split; [vm_compute; reflexivity|]. split; vm_compute; reflexivity.
Qed.

Lemma invalid_report_has_issue_witness :
  issues {| valid := false;
            issues := [issue_no_version; issue_no_statement];
            recommendations := [rec_no_version] |} <> [].
Proof.
  apply (proj1 invalid_report_has_issue __init__ (VStr empty_object_text));
    vm_compute; reflexivity.
Defined.

(* ===================================================================== *)
(** ** The validator: action rules *)
(* ===================================================================== *)

Lemma in_names_str (a : str) (names : list str) :
  In a names -> in_names (VStr a) names = true.
Proof. intros H. apply in_names_spec. eauto. Qed.

(** On a document of the data model the validator returns what the
    statement loop returns. *)
Lemma validate_policy_statements (self : PolicyValidator) (policy_json policy : pyval)
  (stmts : list pyval) :
  parse_policy policy_json = Returns policy ->
  statements_of policy stmts ->
  exists has_version r,
    contains (u "Version") policy = Returns has_version /\
    for_statements self 0 stmts (precheck has_version) = Returns r /\
    validate_policy self policy_json = Returns r.
Proof.
  intros Hp Hs.
  destruct (validate_policy_try_statements self _ _ _ Hp Hs) as (hv & Hv & E).
  destruct Hs as (d & sv & _ & _ & _ & Hd).
  destruct (for_statements_dicts self stmts Hd 0%nat (precheck hv)) as (r & Hr).
  exists hv, r. repeat split; try assumption.
  apply validate_policy_returns. rewrite E. exact Hr.
Qed.

Lemma precheck_issue (has_version : bool) (x : str) :
  In x (issues (precheck has_version)) -> x = issue_no_version.
Proof.
  destruct has_version; cbn [precheck negb issues invalidate note app In].
  - intros [].
  - intros [H | []]. symmetry; exact H.
Qed.

(** C5. Matching against the overly permissive list is by string
    equality, for every action string.  For every policy of the data
    model (an object whose statements are objects), validated by a fresh
    [PolicyValidator]: the overly-permissive-action issue for statement
    [j] and action [a] is in the report exactly when statement [j] has
    the string [a] among its actions and [a] is itself an entry of the
    list, so an action that merely begins with an entry, or that an entry
    read as a pattern would cover, is not flagged; every such issue comes
    with its recommendation and an invalid report.  In particular a
    statement whose action list contains the literal [s3:*] makes the
    report invalid and puts the issue for that statement, with its
    1-based index, in the report, and a statement whose actions are all
    [s3:GetObject] contributes no overly-permissive-action issue. *)
Theorem overly_permissive_exact_match (policy_json policy : pyval) (stmts : list pyval) :
  parse_policy policy_json = Returns policy ->
  statements_of policy stmts ->
  exists r,
    validate_policy __init__ policy_json = Returns r /\
    (forall j a,
       In (issue_overly j a) (issues r) <->
       exists st, nth_error stmts j = Some st /\ In (VStr a) (actions_of st) /\
                  In a (overly_permissive_actions __init__)) /\
    (forall j a,
       In (issue_overly j a) (issues r) ->
       valid r = false /\ In (rec_overly a) (recommendations r)) /\
    (forall j st,
       nth_error stmts j = Some st -> In (VStr (u "s3:*")) (actions_of st) ->
       valid r = false /\ In (issue_overly j (u "s3:*")) (issues r)) /\
    (forall j st,
       nth_error stmts j = Some st ->
       Forall (fun a => a = VStr (u "s3:GetObject")) (actions_of st) ->
       forall a, ~ In (issue_overly j a) (issues r)).
Proof.
  intros Hp Hs.
  destruct (validate_policy_statements __init__ _ _ _ Hp Hs) as (hv & r & _ & Hf & Hr).
  exists r. split; [exact Hr|].
  assert (Hiff : forall j a,
             In (issue_overly j a) (issues r) <->
             exists st, nth_error stmts j = Some st /\ In (VStr a) (actions_of st) /\
                        In a (overly_permissive_actions __init__)).
  { intros j a. split.
    - intros Hin.
      destruct (for_statements_issue_in __init__ stmts _ _ _ _ Hf Hin)
        as [H0 | (j' & st' & Hj' & [(b & Hb & Tb & E) | [(b & Hb & Tb & E) | [E | E]]])].
      + apply precheck_issue in H0. destruct (issue_overly_not_no_version _ _ H0).
      + apply issue_overly_inj in E as [Ej Ea]. cbn [Nat.add] in Ej. subst j'.
        apply in_names_spec in Tb as (n & Hn & ->). cbn [format] in Ea. subst a.
        exists st'. auto.
      + destruct (issue_overly_not_sensitive _ _ _ _ E).
      + destruct (issue_overly_not_wildcard _ _ _ E).
      + destruct (issue_overly_not_no_resource _ _ _ E).
    - intros (st & Hj & Ha & Hl).
      exact (proj1 (for_statements_overly __init__ stmts 0%nat j _ r st _ Hf Hj Ha
                      (in_names_str _ _ Hl))). }
  split; [exact Hiff|]. split; [|split].
  - intros j a Hin. apply Hiff in Hin as (st & Hj & Ha & Hl).
    destruct (for_statements_overly __init__ stmts 0%nat j _ r st _ Hf Hj Ha
                (in_names_str _ _ Hl)) as (_ & H2 & H3).
    split; [exact H3 | exact H2].
  - intros j st Hj Ha.
    destruct (for_statements_overly __init__ stmts 0%nat j _ r st _ Hf Hj Ha)
      as (H1 & _ & H3); [vm_compute; reflexivity|].
    split; [exact H3 | exact H1].
  - intros j st Hj Hall a Hin.
    apply Hiff in Hin as (st' & Hj' & Ha & Hl).
    rewrite Hj in Hj'. inversion Hj'; subst st'.
    rewrite Forall_forall in Hall. specialize (Hall _ Ha). inversion Hall; subst a.
    vm_compute in Hl. intuition discriminate.
Qed.

Lemma near_miss_shape : statements_of near_miss_policy near_miss_statements.
Proof.
  exists [(u "Version", VStr (u "2012-10-17")); (u "Statement", VList near_miss_statements)],
         (VList near_miss_statements).
  repeat split; try reflexivity.
  repeat constructor; eexists; reflexivity.
Qed.

Lemma overly_permissive_exact_match_witness :
  exists r,
    validate_policy __init__ (VStr near_miss_text) = Returns r /\
    valid r = false /\
    In (u "Statement 1 contains overly permissive action: s3:*") (issues r) /\
    (forall a, In (issue_overly 0 a) (issues r) -> a = u "s3:*") /\
    (forall a, ~ In (issue_overly 1 a) (issues r)).
Proof.
  destruct (overly_permissive_exact_match (VStr near_miss_text)
              near_miss_policy near_miss_statements)
    as (r & Hr & Hiff & _ & Hhit & _).
  - vm_compute; reflexivity.
  - exact near_miss_shape.
  - exists r. split; [exact Hr|].
    destruct (Hhit 0%nat (nth 0 near_miss_statements VNone)) as [Hv Hi];
      [reflexivity | cbn; auto |].
    split; [exact Hv|]. split; [exact Hi|]. split.
    + intros a Hin. apply Hiff in Hin as (st & Hj & Ha & Hl).
      inversion Hj; subst st. cbn in Ha. vm_compute in Hl.
      destruct Ha as [Ha | [Ha | []]]; inversion Ha; subst a; [|reflexivity].
      intuition discriminate.
    + intros a Hin. apply Hiff in Hin as (st & Hj & Ha & Hl).
      inversion Hj; subst st. cbn in Ha. vm_compute in Hl.
      destruct Ha as [Ha | [Ha | [Ha | [Ha | [Ha | []]]]]];
        inversion Ha; subst a; intuition discriminate.
Defined.

Lemma two_statements_shape : statements_of two_statements_policy two_statements.
Proof.
  exists [(u "Version", VStr (u "2012-10-17")); (u "Statement", VList two_statements)],
         (VList two_statements).
  repeat split; try reflexivity.
  repeat constructor; eexists; reflexivity.
Qed.

(** C6. For every policy of the data model and every statement whose
    action list contains an entry of [sensitive_actions], the report holds
    the sensitive-action issue with the statement's 1-based index and the
    review recommendation.  The sensitive-action loop never touches the
    valid flag, and a policy that has a [Version] and whose statements
    show nothing but sensitive actions and missing conditions is reported
    valid. *)
Theorem sensitive_actions_do_not_invalidate (self : PolicyValidator)
  (policy_json policy : pyval) (stmts : list pyval) :
  parse_policy policy_json = Returns policy ->
  statements_of policy stmts ->
  exists r,
    validate_policy self policy_json = Returns r /\
    (forall j st a,
       nth_error stmts j = Some st -> In (VStr a) (actions_of st) ->
       In a (sensitive_actions self) ->
       In (issue_sensitive j a) (issues r) /\
       In (rec_sensitive a) (recommendations r)) /\
    (forall i actions r0, valid (check_sensitive self i actions r0) = valid r0) /\
    (contains (u "Version") policy = Returns true ->
     Forall (only_sensitive_findings self) stmts ->
     valid r = true).
Proof.
  intros Hp Hs.
  destruct (validate_policy_statements self _ _ _ Hp Hs) as (hv & r & Hv & Hf & Hr).
  exists r. split; [exact Hr|]. split; [|split].
  - intros j st a Hj Ha Hsens.
    apply (for_statements_sensitive self stmts 0%nat j _ r st (VStr a) Hf Hj Ha).
    apply in_names_str, Hsens.
  - intros i actions r0. rewrite check_sensitive_loop.
    apply flag_loop_warning. reflexivity.
  - intros Hver Hall. rewrite Hver in Hv. inversion Hv; subst hv.
    destruct (for_statements_only_sensitive self stmts Hall 0%nat (precheck true))
      as (r' & Hr' & Hvalid).
    rewrite Hf in Hr'. inversion Hr'; subst r'. exact Hvalid.
Qed.

Lemma sensitive_actions_do_not_invalidate_witness :
  exists r,
    validate_policy __init__ (VStr sensitive_text) = Returns r /\
    In (u "Statement 1 contains sensitive action: kms:Decrypt") (issues r) /\
    In (u "Review if 'kms:Decrypt' is absolutely necessary and consider adding conditions")
       (recommendations r) /\
    valid r = true.
Proof.
  destruct (sensitive_actions_do_not_invalidate __init__ (VStr sensitive_text)
              sensitive_policy [sensitive_statement])
    as (r & Hr & Hhit & _ & Hvalid).
  - vm_compute; reflexivity.
  - exists [(u "Version", VStr (u "2012-10-17")); (u "Statement", sensitive_statement)],
           sensitive_statement.
    repeat split; try reflexivity. repeat constructor. eexists; reflexivity.
  - exists r. split; [exact Hr|].
    destruct (Hhit 0%nat sensitive_statement (u "kms:Decrypt")) as [Hi Hc];
      [reflexivity | cbn; auto | cbn; auto 12 |].
    split; [exact Hi|]. split; [exact Hc|].
    apply Hvalid; [reflexivity|].
    repeat constructor.
    exists [(u "Effect", VStr (u "Allow")); (u "Action", VStr (u "kms:Decrypt"));
            (u "Resource", VStr (u "arn:aws:kms:us-east-1:1:key/k"))],
           (VStr (u "arn:aws:kms:us-east-1:1:key/k")).
    repeat split; repeat constructor.
Defined.

(* ===================================================================== *)
(** ** The extractor *)
(* ===================================================================== *)

(** C10. Whatever the text, [extract_policy_from_text] returns [None] or
    a string that [json.loads] decodes without error: each candidate is
    decoded before it is returned. *)
Theorem extracted_text_decodes (self : PolicyValidator) (text : str) :
  extract_policy_from_text self text = Returns None \/
  exists json_str v,
    extract_policy_from_text self text = Returns (Some json_str) /\
    Json.loads json_str = Returns v.
Proof.
  unfold extract_policy_from_text, try_except, extract_policy_try, bind.
  destruct (Re.search json_pattern_fenced text) as [m|].
  - destruct (Json.loads (strip (Re.group1 text m))) as [v|e] eqn:E.
    + right. eauto.
    + left. reflexivity.
  - destruct (Re.search json_pattern_braces text) as [m|]; [|left; reflexivity].
    destruct (Json.loads (strip (Re.group0 text m))) as [v|e] eqn:E.
    + right. eauto.
    + left. reflexivity.
Qed.




(* ===================================================================== *)
(** ** The runtime model on examples *)
(* ===================================================================== *)

(** A repeated key keeps its first place and its last value. *)
Example loads_repeated_key :
  Json.loads (jq "{'a': [1, -2, true, null], 'b': 'x', 'a': {}}") =
  Returns (VDict [(u "a", VDict []); (u "b", VStr (u "x"))]).
Proof. vm_compute. reflexivity. Qed.

Example loads_numbers :
  Json.loads (u " [0, -12, 2.5e3, 1E+2] ") =
  Returns (VList [VInt 0; VInt (-12); VFloat (u "2.5e3"); VFloat (u "1E+2")]).
Proof. vm_compute. reflexivity. Qed.

Example loads_escapes :
  Json.loads (jq "'a\nA\ud83d\ude00 \u00e9'") =
  Returns (VStr [97; 10; 65; 128512; 32; 233]).
Proof. vm_compute. reflexivity. Qed.

Example loads_trailing_comma : Json.loads (u "[1,]") = Raises Json.expecting_value.
Proof. vm_compute. reflexivity. Qed.

Example loads_leading_zero :
  Json.loads (u "01") = Raises (JSONDecodeError (u "Extra data")).
Proof. vm_compute. reflexivity. Qed.

Example loads_empty : Json.loads [] = Raises Json.expecting_value.
Proof. vm_compute. reflexivity. Qed.

Example loads_too_deep :
  Json.loads (repeat 91 1001) = Raises (Json.too_deep "array").
Proof. vm_compute. reflexivity. Qed.

(** Only the first fenced block is looked at, and the surrounding white
    space is not part of the result. *)
Example extract_first_fence :
  extract_policy_from_text __init__
    (u "Here it is:" ++ [10] ++ u "```json" ++ [10] ++ jq "  {'Version': 'x'}  " ++
     [10] ++ u "``` and ```json {} ```") =
  Returns (Some (jq "{'Version': 'x'}")).
Proof. vm_compute. reflexivity. Qed.

(** Without a fence the brace scan stops at the first closing brace. *)
Example extract_brace_scan :
  extract_policy_from_text __init__
    (jq "policy: { 'Version': '2012-10-17', 'Statement': [] } done }") =
  Returns (Some (jq "{ 'Version': '2012-10-17', 'Statement': [] }")) /\
  extract_policy_from_text __init__
    (jq "{'Version': '2012-10-17', 'Statement': [{'Action': 'x'}]}") =
  Returns None.
Proof. split; vm_compute; reflexivity. Qed.

(** The clean scenario of the specification: nothing to report. *)
Example validate_clean_policy :
  validate_policy __init__
    (VStr (jq "{'Version':'2012-10-17','Statement':[{'Effect':'Allow','Action':'s3:GetObject','Resource':'arn:aws:s3:::bucket/*','Condition':{'StringEquals':{}}}]}")) =
  Returns {| valid := true; issues := []; recommendations := [] |}.
Proof. vm_compute. reflexivity. Qed.

(** A value of unexpected shape ends in the generic handler. *)
Example validate_number :
  validate_policy __init__ (VStr (u "5")) =
  Returns {| valid := false;
             issues := [u "Validation error: argument of type 'int' is not iterable"];
             recommendations := [u "Review the policy structure"] |}.
Proof. vm_compute. reflexivity. Qed.

(* ===================================================================== *)
(** ** More about the rules *)
(* ===================================================================== *)

Lemma dict_get_set_same (k : str) (v : pyval) (d : list (str * pyval)) :
  dict_get k (dict_set k v d) = Some v.
Proof.
  induction d as [|[k' v'] d IH]; simpl.
  - rewrite str_eqb_refl. reflexivity.
  - destruct (str_eqb k k') eqn:E; simpl; rewrite E; [reflexivity | exact IH].
Qed.

Lemma dict_get_set_other (k k' : str) (v : pyval) (d : list (str * pyval)) :
  str_eqb k' k = false -> dict_get k' (dict_set k v d) = dict_get k' d.
Proof.
  intros Hk. induction d as [|[k0 v0] d IH]; simpl.
  - rewrite Hk. reflexivity.
  - destruct (str_eqb k k0) eqn:E; simpl.
    + apply str_eqb_eq in E. subst k0. rewrite Hk. reflexivity.
    + rewrite IH. reflexivity.
Qed.

Lemma flag_loop_blocking_valid {A : Type} (test : A -> bool) (issue rec : A -> str)
  (l : list A) : forall r,
  valid (flag_loop test issue rec true l r) = true ->
  Forall (fun a => test a = false) l /\ valid r = true.
Proof.
  induction l as [|a l IH]; intros r H; [split; [constructor | exact H]|].
  rewrite flag_loop_cons in H. apply IH in H as [Hl Hr].
  destruct (test a) eqn:T; [discriminate Hr|].
  split; [constructor; assumption | exact Hr].
Qed.

Lemma flag_loop_balance {A : Type} (test : A -> bool) (issue rec : A -> str)
  (blocking : bool) (l : list A) : forall r,
  (List.length (recommendations (flag_loop test issue rec blocking l r)) +
   List.length (issues r) =
   List.length (recommendations r) +
   List.length (issues (flag_loop test issue rec blocking l r)))%nat.
Proof.
  induction l as [|a l IH]; intros r; [reflexivity|].
  rewrite flag_loop_cons.
  set (r1 := if test a then _ else r).
  specialize (IH r1).
  assert (H1 : (List.length (recommendations r1) + List.length (issues r) =
                List.length (recommendations r) + List.length (issues r1))%nat).
  { unfold r1. destruct (test a); [|reflexivity].
    destruct blocking; cbn [recommendations issues invalidate note];
      rewrite !length_app; simpl; lia. }
  lia.
Qed.

Lemma flag_loop_rec_in {A : Type} (test : A -> bool) (issue rec : A -> str)
  (blocking : bool) (l : list A) : forall r y,
  In y (recommendations (flag_loop test issue rec blocking l r)) ->
  In y (recommendations r) \/ exists a, In a l /\ test a = true /\ y = rec a.
Proof.
  induction l as [|a l IH]; intros r y Hy; [left; exact Hy|].
  rewrite flag_loop_cons in Hy. apply IH in Hy as [Hy | (b & Hb & Tb & Eb)].
  - destruct (test a) eqn:T; [|left; exact Hy].
    assert (Hy' : In y (recommendations r ++ [rec a])) by (destruct blocking; exact Hy).
    apply in_app_or in Hy' as [Hy' | [Hy' | []]]; [left; exact Hy'|].
    right. exists a. simpl. auto.
  - right. exists b. simpl. auto.
Qed.

(** The run up to statement [j], that statement, and the rest. *)
Lemma for_statements_focus (self : PolicyValidator) (stmts : list pyval) :
  forall i j r r' d,
    for_statements self i stmts r = Returns r' ->
    nth_error stmts j = Some (VDict d) ->
    exists rj,
      extends r rj /\
      extends (statement_result self (i + j) (actions_of (VDict d))
                 (resources_of (VDict d)) (has_condition (VDict d)) rj) r'.
Proof.
  induction stmts as [|s0 rest IH]; intros i j r r' d H Hj.
  - destruct j; discriminate.
  - destruct j as [|j].
    + inversion Hj; subst s0. rewrite Nat.add_0_r.
      rewrite for_statements_cons, check_statement_dict in H.
      apply for_statements_extends in H as [He _].
      exists r. split; [apply extends_refl | exact He].
    + apply for_statements_step in H as (resources & c & H).
      destruct (IH (S i) j _ r' d H Hj) as (rj & H1 & H2).
      exists rj. replace (i + S j)%nat with (S i + j)%nat by lia.
      split; [|exact H2].
      eapply extends_trans; [apply statement_result_extends | exact H1].
Qed.

Lemma statement_result_wildcard (self : PolicyValidator) (i : nat)
  (actions rs : list pyval) (c : bool) (r : report) (x : pyval) :
  In x rs -> eq_str x (u "*") = true ->
  let r' := statement_result self i actions (Some rs) c r in
  In (issue_wildcard i) (issues r') /\
  In rec_wildcard (recommendations r') /\ valid r' = false.
Proof.
  intros Hx Tx r'.
  set (r1 := check_sensitive self i actions (check_overly self i actions r)).
  destruct (flag_loop_hit (fun x => eq_str x (u "*")) (fun _ => issue_wildcard i)
              (fun _ => rec_wildcard) true rs r1 x Hx Tx) as (H1 & H2 & H3).
  rewrite <- check_resources_loop in H1, H2, H3.
  assert (He : extends (check_resources i rs r1) r').
  { unfold r', statement_result. fold r1. destruct c; cbn [negb].
    - apply extends_refl.
    - apply add_recommendation_extends. }
  repeat split.
  - eapply extends_issue; eassumption.
  - eapply extends_recommendation; eassumption.
  - eapply extends_invalid; [exact He | auto].
Qed.

Lemma statement_result_no_resource (self : PolicyValidator) (i : nat)
  (actions : list pyval) (c : bool) (r : report) :
  let r' := statement_result self i actions None c r in
  In (issue_no_resource i) (issues r') /\
  In rec_no_resource (recommendations r') /\ valid r' = false.
Proof.
  intros r'. unfold r', statement_result.
  destruct c; cbn [negb valid issues recommendations invalidate note add_recommendation];
    repeat split; try reflexivity;
    repeat (apply in_or_app; first [right; simpl; tauto | left]).
Qed.

(** X1. For every validator and every policy of the data model, a
    statement whose resource list contains the literal [*] makes the
    report invalid and puts the wildcard-resource issue, with the
    statement's 1-based index, and its recommendation in the report. *)
Theorem wildcard_resource_flagged (self : PolicyValidator)
  (policy_json policy : pyval) (stmts : list pyval) :
  parse_policy policy_json = Returns policy ->
  statements_of policy stmts ->
  exists r,
    validate_policy self policy_json = Returns r /\
    forall j st rs,
      nth_error stmts j = Some st ->
      resources_of st = Some rs -> In (VStr (u "*")) rs ->
      valid r = false /\
      In (issue_wildcard j) (issues r) /\
      In rec_wildcard (recommendations r).
Proof.
  intros Hp Hs.
  destruct (validate_policy_statements self _ _ _ Hp Hs) as (hv & r & _ & Hf & Hr).
  exists r. split; [exact Hr|].
  intros j st rs Hj Hrs Hin.
  destruct st as [| | | | |  |d]; try discriminate Hrs.
  destruct (for_statements_focus self stmts 0%nat j _ r d Hf Hj) as (rj & _ & He).
  rewrite Hrs in He.
  destruct (statement_result_wildcard self (0 + j) (actions_of (VDict d)) rs
              (has_condition (VDict d)) rj (VStr (u "*")) Hin eq_refl)
    as (H1 & H2 & H3).
  repeat split.
  - eapply extends_invalid; eassumption.
  - eapply extends_issue; eassumption.
  - eapply extends_recommendation; eassumption.
Qed.

Lemma wildcard_resource_flagged_witness :
  exists r,
    validate_policy __init__ (VStr scenario_text) = Returns r /\
    valid r = false /\
    In (u "Statement 1 applies to all resources ('*')") (issues r).
Proof.
  destruct (wildcard_resource_flagged __init__ (VStr scenario_text) scenario_policy
              [VDict [(u "Effect", VStr (u "Allow")); (u "Action", VStr (u "iam:*"));
                      (u "Resource", VStr (u "*"))]])
    as (r & Hr & H).
  - vm_compute; reflexivity.
  - eexists _, _. repeat split; try reflexivity. repeat constructor. eexists; reflexivity.
  - exists r. split; [exact Hr|].
    destruct (H 0%nat _ [VStr (u "*")] eq_refl eq_refl) as (H1 & H2 & _);
      [cbn; auto|]. split; [exact H1 | exact H2].
Defined.

(** X2. For every validator and every policy of the data model, a
    statement without a [Resource] key makes the report invalid and puts
    the missing-resource issue, with the statement's 1-based index, and
    its recommendation in the report. *)
Theorem missing_resource_flagged (self : PolicyValidator)
  (policy_json policy : pyval) (stmts : list pyval) :
  parse_policy policy_json = Returns policy ->
  statements_of policy stmts ->
  exists r,
    validate_policy self policy_json = Returns r /\
    forall j d,
      nth_error stmts j = Some (VDict d) ->
      dict_get (u "Resource") d = None ->
      valid r = false /\
      In (issue_no_resource j) (issues r) /\
      In rec_no_resource (recommendations r).
Proof.
  intros Hp Hs.
  destruct (validate_policy_statements self _ _ _ Hp Hs) as (hv & r & _ & Hf & Hr).
  exists r. split; [exact Hr|].
  intros j d Hj Hnone.
  destruct (for_statements_focus self stmts 0%nat j _ r d Hf Hj) as (rj & _ & He).
  unfold resources_of in He. rewrite Hnone in He. cbn [option_map] in He.
  destruct (statement_result_no_resource self (0 + j) (actions_of (VDict d))
              (has_condition (VDict d)) rj) as (H1 & H2 & H3).
  repeat split.
  - eapply extends_invalid; eassumption.
  - eapply extends_issue; eassumption.
  - eapply extends_recommendation; eassumption.
Qed.

Lemma missing_resource_flagged_witness :
  exists r,
    validate_policy __init__
      (VDict [(u "Version", VStr (u "2012-10-17"));
              (u "Statement", VDict [(u "Action", VStr (u "s3:GetObject"))])]) =
    Returns r /\
    valid r = false /\
    In (u "Statement 1 is missing 'Resource' field") (issues r).
Proof.
  destruct (missing_resource_flagged __init__
              (VDict [(u "Version", VStr (u "2012-10-17"));
                      (u "Statement", VDict [(u "Action", VStr (u "s3:GetObject"))])])
              (VDict [(u "Version", VStr (u "2012-10-17"));
                      (u "Statement", VDict [(u "Action", VStr (u "s3:GetObject"))])])
              [VDict [(u "Action", VStr (u "s3:GetObject"))]])
    as (r & Hr & H).
  - reflexivity.
  - eexists _, _. repeat split; try reflexivity. repeat constructor. eexists; reflexivity.
  - exists r. split; [exact Hr|].
    destruct (H 0%nat _ eq_refl eq_refl) as (H1 & H2 & _).
    split; [exact H1 | exact H2].
Defined.

Lemma statement_issue_not_no_version (self : PolicyValidator) (i : nat) (st : pyval) :
  ~ statement_issue self i st issue_no_version.
Proof.
  intros [(a & _ & _ & E) | [(a & _ & _ & E) | [E | E]]]; discriminate E.
Qed.

(** X3. For every validator and every policy of the data model, the
    missing-version issue is in the report exactly when the policy has no
    [Version] key; it is then the first issue, its recommendation is the
    first recommendation, and the report is invalid. *)
Theorem missing_version_flagged (self : PolicyValidator)
  (policy_json policy : pyval) (stmts : list pyval) :
  parse_policy policy_json = Returns policy ->
  statements_of policy stmts ->
  exists r,
    validate_policy self policy_json = Returns r /\
    (contains (u "Version") policy = Returns false ->
     valid r = false /\
     (exists xs, issues r = issue_no_version :: xs) /\
     (exists ys, recommendations r = rec_no_version :: ys)) /\
    (contains (u "Version") policy = Returns true ->
     ~ In issue_no_version (issues r)).
Proof.
  intros Hp Hs.
  destruct (validate_policy_statements self _ _ _ Hp Hs) as (hv & r & Hv & Hf & Hr).
  exists r. split; [exact Hr|]. split.
  - intros Hno. rewrite Hno in Hv. inversion Hv; subst hv.
    apply for_statements_extends in Hf as [((xs & Hx) & (ys & Hy) & Hval) _].
    split; [apply Hval; reflexivity|]. split; [exists xs; exact Hx | exists ys; exact Hy].
  - intros Hyes Hin. rewrite Hyes in Hv. inversion Hv; subst hv.
    destruct (for_statements_issue_in self stmts _ _ _ _ Hf Hin)
      as [H0 | (j & st & _ & Hst)].
    + destruct H0.
    + exact (statement_issue_not_no_version _ _ _ Hst).
Qed.

Lemma missing_version_flagged_witness :
  exists r,
    validate_policy __init__ (VStr scenario_text) = Returns r /\
    valid r = false /\ hd_error (issues r) = Some (u "Missing 'Version' field in policy").
Proof.
  destruct (missing_version_flagged __init__ (VStr scenario_text) scenario_policy
              [VDict [(u "Effect", VStr (u "Allow")); (u "Action", VStr (u "iam:*"));
                      (u "Resource", VStr (u "*"))]])
    as (r & Hr & H & _).
  - vm_compute; reflexivity.
  - eexists _, _. repeat split; try reflexivity. repeat constructor. eexists; reflexivity.
  - exists r. split; [exact Hr|].
    destruct (H eq_refl) as (H1 & (xs & H2) & _).
    split; [exact H1 | rewrite H2; reflexivity].
Defined.

Lemma statement_result_valid_inv (self : PolicyValidator) (i : nat)
  (actions : list pyval) (resources : option (list pyval)) (c : bool) (r : report) :
  valid (statement_result self i actions resources c r) = true ->
  valid r = true /\
  Forall (fun a => in_names a (overly_permissive_actions self) = false) actions /\
  exists rs, resources = Some rs /\ Forall (fun x => eq_str x (u "*") = false) rs.
Proof.
  unfold statement_result.
  set (r1 := check_sensitive self i actions (check_overly self i actions r)).
  intros H.
  assert (H2 : valid (match resources with
                      | Some rs => check_resources i rs r1
                      | None => invalidate (note (issue_no_resource i) rec_no_resource r1)
                      end) = true) by (destruct c; exact H).
  destruct resources as [rs|]; [|discriminate H2].
  rewrite check_resources_loop in H2.
  apply flag_loop_blocking_valid in H2 as [Hrs H1].
  unfold r1 in H1. rewrite check_sensitive_loop, flag_loop_warning in H1 by reflexivity.
  rewrite check_overly_loop in H1.
  apply flag_loop_blocking_valid in H1 as [Ha Hr].
  split; [exact Hr|]. split; [exact Ha|]. exists rs. split; [reflexivity | exact Hrs].
Qed.

Lemma for_statements_valid_inv (self : PolicyValidator) (stmts : list pyval) :
  Forall is_dict stmts ->
  forall i r r',
    for_statements self i stmts r = Returns r' ->
    valid r' = true ->
    valid r = true /\ Forall (only_sensitive_findings self) stmts.
Proof.
  induction 1 as [|st rest [d ->] _ IH]; intros i r r' H Hv.
  - inversion H; subst. split; [exact Hv | constructor].
  - rewrite for_statements_cons, check_statement_dict in H. cbn [bind] in H.
    destruct (IH _ _ _ H Hv) as [Hv1 Hrest].
    apply statement_result_valid_inv in Hv1 as (Hr & Ha & rs & Hrs & Hw).
    split; [exact Hr|]. constructor; [|exact Hrest].
    split; [exact Ha|].
    destruct (dict_get (u "Resource") d) as [rv|] eqn:E; [|discriminate Hrs].
    inversion Hrs; subst rs. exists d, rv. auto.
Qed.

(** X4. For every validator and every policy of the data model, the
    report is valid exactly when the policy has a [Version] key and every
    statement has a [Resource] entry without the wildcard and no action of
    the overly permissive list.  Sensitive actions and missing conditions
    play no part. *)
Theorem valid_iff_no_blocking_finding (self : PolicyValidator)
  (policy_json policy : pyval) (stmts : list pyval) :
  parse_policy policy_json = Returns policy ->
  statements_of policy stmts ->
  exists r,
    validate_policy self policy_json = Returns r /\
    (valid r = true <->
     contains (u "Version") policy = Returns true /\
     Forall (only_sensitive_findings self) stmts).
Proof.
  intros Hp Hs.
  destruct (validate_policy_statements self _ _ _ Hp Hs) as (hv & r & Hv & Hf & Hr).
  exists r. split; [exact Hr|]. split.
  - intros Hvalid.
    destruct Hs as (d & sv & _ & _ & _ & Hd).
    destruct (for_statements_valid_inv self stmts Hd _ _ _ Hf Hvalid) as [H0 Hall].
    split; [|exact Hall].
    destruct hv; [exact Hv | discriminate H0].
  - intros [Hver Hall]. rewrite Hver in Hv. inversion Hv; subst hv.
    destruct (for_statements_only_sensitive self stmts Hall 0%nat (precheck true))
      as (r' & Hr' & Hvalid).
    rewrite Hf in Hr'. inversion Hr'; subst r'. exact Hvalid.
Qed.

Lemma valid_iff_no_blocking_finding_witness :
  exists r,
    validate_policy __init__ (VStr sensitive_text) = Returns r /\ valid r = true.
Proof.
  destruct (valid_iff_no_blocking_finding __init__ (VStr sensitive_text)
              sensitive_policy [sensitive_statement])
    as (r & Hr & H).
  - vm_compute; reflexivity.
  - eexists _, _. repeat split; try reflexivity. repeat constructor. eexists; reflexivity.
  - exists r. split; [exact Hr|]. apply H. split; [reflexivity|].
    repeat constructor.
    eexists _, _. repeat split; try reflexivity; repeat constructor.
Defined.

Lemma statement_result_balance (self : PolicyValidator) (i : nat)
  (actions : list pyval) (resources : option (list pyval)) (c : bool) (r : report) :
  let r' := statement_result self i actions resources c r in
  (List.length (recommendations r') + List.length (issues r) =
   List.length (recommendations r) + List.length (issues r') +
   (if c then 0 else 1))%nat.
Proof.
  intros r'. unfold r', statement_result.
  pose proof (flag_loop_balance (fun a => in_names a (overly_permissive_actions self))
                (fun a => issue_overly i (format a)) (fun a => rec_overly (format a))
                true actions r) as H1.
  rewrite <- check_overly_loop in H1.
  set (r0 := check_overly self i actions r) in *.
  pose proof (flag_loop_balance (fun a => in_names a (sensitive_actions self))
                (fun a => issue_sensitive i (format a)) (fun a => rec_sensitive (format a))
                false actions r0) as H2.
  rewrite <- check_sensitive_loop in H2.
  set (r1 := check_sensitive self i actions r0) in *.
  set (r2 := match resources with Some rs => _ | None => _ end).
  assert (H3 : (List.length (recommendations r2) + List.length (issues r1) =
                List.length (recommendations r1) + List.length (issues r2))%nat).
  { unfold r2. destruct resources as [rs|].
    - rewrite check_resources_loop. apply flag_loop_balance.
    - cbn [recommendations issues invalidate note]. rewrite !length_app. simpl. lia. }
  destruct c; cbn [negb].
  - lia.
  - cbn [recommendations issues add_recommendation]. rewrite length_app. simpl. lia.
Qed.

Lemma for_statements_balance (self : PolicyValidator) (stmts : list pyval) :
  Forall is_dict stmts ->
  forall i r r',
    for_statements self i stmts r = Returns r' ->
    (List.length (recommendations r') + List.length (issues r) =
     List.length (recommendations r) + List.length (issues r') +
     count_without_condition stmts)%nat.
Proof.
  induction 1 as [|st rest [d ->] _ IH]; intros i r r' H.
  - inversion H; subst. cbn. lia.
  - rewrite for_statements_cons, check_statement_dict in H. cbn [bind] in H.
    apply IH in H.
    pose proof (statement_result_balance self i (actions_of (VDict d))
                  (option_map as_list (dict_get (u "Resource") d))
                  (match dict_get (u "Condition") d with Some _ => true | None => false end)
                  r) as Hb.
    cbv zeta in Hb.
    unfold count_without_condition in *. cbn [filter has_condition].
    destruct (dict_get (u "Condition") d); cbn [negb List.length] in *; lia.
Qed.

(** X5. For every validator and every policy of the data model, the
    report holds one recommendation per issue plus one for each statement
    without a [Condition]: the number of recommendations is the number of
    issues plus the number of such statements. *)
Theorem recommendations_count (self : PolicyValidator)
  (policy_json policy : pyval) (stmts : list pyval) :
  parse_policy policy_json = Returns policy ->
  statements_of policy stmts ->
  exists r,
    validate_policy self policy_json = Returns r /\
    List.length (recommendations r) =
    (List.length (issues r) + count_without_condition stmts)%nat.
Proof.
  intros Hp Hs.
  destruct (validate_policy_statements self _ _ _ Hp Hs) as (hv & r & Hv & Hf & Hr).
  exists r. split; [exact Hr|].
  destruct Hs as (d & sv & _ & _ & _ & Hd).
  pose proof (for_statements_balance self stmts Hd _ _ _ Hf) as H.
  destruct hv; cbn in H; lia.
Qed.

Lemma recommendations_count_witness :
  exists r,
    validate_policy __init__ (VStr two_statements_text) = Returns r /\
    List.length (recommendations r) = (List.length (issues r) + 2)%nat.
Proof.
  destruct (recommendations_count __init__ (VStr two_statements_text)
              two_statements_policy two_statements)
    as (r & Hr & H).
  - vm_compute; reflexivity.
  - exact two_statements_shape.
  - exists r. split; [exact Hr | exact H].
Defined.

Lemma statement_result_rec_in (self : PolicyValidator) (i : nat) (d : list (str * pyval))
  (r : report) (y : str) :
  In y (recommendations
          (statement_result self i (actions_of (VDict d)) (resources_of (VDict d))
             (has_condition (VDict d)) r)) ->
  In y (recommendations r) \/ statement_recommendation self i (VDict d) y.
Proof.
  unfold statement_result.
  set (r0 := check_overly self i (actions_of (VDict d)) r).
  set (r1 := check_sensitive self i (actions_of (VDict d)) r0).
  set (r2 := match resources_of (VDict d) with Some rs => _ | None => _ end).
  intros Hy.
  assert (H2 : In y (recommendations r2) \/ statement_recommendation self i (VDict d) y).
  { destruct (has_condition (VDict d)) eqn:C; cbn [negb] in Hy; [left; exact Hy|].
    cbn [recommendations add_recommendation] in Hy.
    apply in_app_or in Hy as [Hy | [Hy | []]]; [left; exact Hy|].
    right. unfold statement_recommendation. rewrite C. auto 10. }
  destruct H2 as [H2 | H2]; [|right; exact H2].
  assert (H1 : In y (recommendations r1) \/ statement_recommendation self i (VDict d) y).
  { unfold r2 in H2. destruct (resources_of (VDict d)) as [rs|].
    - rewrite check_resources_loop in H2.
      apply flag_loop_rec_in in H2 as [H2 | (a & _ & _ & E)]; [left; exact H2|].
      right. unfold statement_recommendation. auto.
    - cbn [recommendations invalidate note] in H2.
      apply in_app_or in H2 as [H2 | [H2 | []]]; [left; exact H2|].
      right. unfold statement_recommendation. auto 10. }
  destruct H1 as [H1 | H1]; [|right; exact H1].
  unfold r1 in H1. rewrite check_sensitive_loop in H1.
  apply flag_loop_rec_in in H1 as [H1 | (a & _ & _ & E)];
    [|right; unfold statement_recommendation; eauto].
  unfold r0 in H1. rewrite check_overly_loop in H1.
  apply flag_loop_rec_in in H1 as [H1 | (a & _ & _ & E)];
    [left; exact H1 | right; unfold statement_recommendation; eauto].
Qed.

Lemma for_statements_rec_in (self : PolicyValidator) (stmts : list pyval) :
  Forall is_dict stmts ->
  forall i r r' y,
    for_statements self i stmts r = Returns r' ->
    In y (recommendations r') ->
    In y (recommendations r) \/
    exists j st, nth_error stmts j = Some st /\
                 statement_recommendation self (i + j)%nat st y.
Proof.
  induction 1 as [|st rest [d ->] _ IH]; intros i r r' y H Hy.
  - inversion H; subst. left; exact Hy.
  - rewrite for_statements_cons, check_statement_dict in H. cbn [bind] in H.
    destruct (IH _ _ _ _ H Hy) as [H1 | (j & st' & Hj & Hs)].
    + apply (statement_result_rec_in self i d r y) in H1 as [H1 | H1];
        [left; exact H1|].
      right. exists 0%nat, (VDict d). rewrite Nat.add_0_r. split; [reflexivity | exact H1].
    + right. exists (S j), st'. split; [exact Hj|].
      replace (i + S j)%nat with (S i + j)%nat by lia. exact Hs.
Qed.

Lemma rec_condition_inj (i j : nat) : rec_condition i = rec_condition j -> i = j.
Proof.
  unfold rec_condition. intros E.
  apply (app_inv_head (u "Consider adding conditions to Statement ")) in E.
  change (u " for additional security") with (32 :: u "for additional security") in E.
  apply split_at_space in E; try apply uint_str_no_space.
  destruct E as [E _]. apply str_of_nat_inj in E. lia.
Qed.

(** X6. For every validator and every policy of the data model, the
    add-conditions recommendation for a statement, with its 1-based
    index, is in the report exactly when that statement has no
    [Condition] key. *)
Theorem condition_recommendation_iff (self : PolicyValidator)
  (policy_json policy : pyval) (stmts : list pyval) :
  parse_policy policy_json = Returns policy ->
  statements_of policy stmts ->
  exists r,
    validate_policy self policy_json = Returns r /\
    forall j st,
      nth_error stmts j = Some st ->
      (In (rec_condition j) (recommendations r) <-> has_condition st = false).
Proof.
  intros Hp Hs.
  destruct (validate_policy_statements self _ _ _ Hp Hs) as (hv & r & Hv & Hf & Hr).
  exists r. split; [exact Hr|].
  intros j st Hj. destruct Hs as (d0 & sv & _ & _ & _ & Hd). split.
  - intros Hin.
    destruct (for_statements_rec_in self stmts Hd _ _ _ _ Hf Hin)
      as [H0 | (j' & st' & Hj' & Hst)].
    + destruct hv; cbn in H0; [destruct H0|].
      destruct H0 as [H0 | []]. discriminate H0.
    + destruct Hst as [(a & E) | [(a & E) | [E | [E | (E & C)]]]];
        try discriminate E.
      apply rec_condition_inj in E. simpl in E. subst j'.
      rewrite Hj in Hj'. inversion Hj'; subst st'. exact C.
  - intros C.
    assert (Hst : is_dict st).
    { rewrite Forall_forall in Hd. apply Hd. eapply nth_error_In; exact Hj. }
    destruct Hst as [d ->].
    destruct (for_statements_focus self stmts 0%nat j _ r d Hf Hj) as (rj & _ & He).
    eapply extends_recommendation; [exact He|].
    unfold statement_result. rewrite C. cbn [negb recommendations add_recommendation].
    apply in_or_app. right. simpl. auto.
Qed.

Lemma condition_recommendation_iff_witness :
  exists r,
    validate_policy __init__ (VStr sensitive_text) = Returns r /\
    In (u "Consider adding conditions to Statement 1 for additional security")
       (recommendations r).
Proof.
  destruct (condition_recommendation_iff __init__ (VStr sensitive_text)
              sensitive_policy [sensitive_statement])
    as (r & Hr & H).
  - vm_compute; reflexivity.
  - eexists _, _. repeat split; try reflexivity. repeat constructor. eexists; reflexivity.
  - exists r. split; [exact Hr|].
    apply (H 0%nat sensitive_statement eq_refl). reflexivity.
Defined.

Lemma validate_policy_dict (self : PolicyValidator) (d : list (str * pyval)) :
  validate_policy self (VDict d) =
  match dict_get (u "Statement") d with
  | None =>
      Returns (invalidate
                 (add_issue issue_no_statement
                    (precheck match dict_get (u "Version") d with
                              | Some _ => true
                              | None => false
                              end)))
  | Some sv =>
      try_except
        (for_statements self 0 (as_list sv)
           (precheck match dict_get (u "Version") d with
                     | Some _ => true
                     | None => false
                     end))
        (fun e =>
           match e with
           | JSONDecodeError _ => Returns invalid_json_report
           | _ => Returns (validation_error_report e)
           end)
  end.
Proof.
  unfold validate_policy, validate_policy_try, parse_policy, bind, contains, getitem,
    precheck.
  destruct (dict_get (u "Statement") d); destruct (dict_get (u "Version") d); reflexivity.
Qed.

(** X7. A single value where a list may stand is treated as the
    one-element list: replacing a non-list [Statement] by the list that
    holds it leaves the report unchanged, and so does replacing a non-list
    [Action] or [Resource] of a statement. *)
Theorem single_value_is_singleton_list (self : PolicyValidator) :
  (forall d sv,
     dict_get (u "Statement") d = Some sv -> is_list sv = false ->
     validate_policy self (VDict (dict_set (u "Statement") (VList [sv]) d)) =
     validate_policy self (VDict d)) /\
  (forall i d a r,
     dict_get (u "Action") d = Some a -> is_list a = false ->
     check_statement self i (VDict (dict_set (u "Action") (VList [a]) d)) r =
     check_statement self i (VDict d) r) /\
  (forall i d x r,
     dict_get (u "Resource") d = Some x -> is_list x = false ->
     check_statement self i (VDict (dict_set (u "Resource") (VList [x]) d)) r =
     check_statement self i (VDict d) r).
Proof.
  split; [|split].
  - intros d sv Hs Hl. rewrite !validate_policy_dict.
    rewrite dict_get_set_same, dict_get_set_other by reflexivity. rewrite Hs.
    destruct sv; try discriminate Hl; reflexivity.
  - intros i d a r Ha Hl. rewrite !check_statement_dict.
    unfold actions_of.
    rewrite dict_get_set_same, !dict_get_set_other by reflexivity. rewrite Ha.
    destruct a; try discriminate Hl; reflexivity.
  - intros i d x r Hx Hl. rewrite !check_statement_dict.
    unfold actions_of.
    rewrite dict_get_set_same, !dict_get_set_other by reflexivity. rewrite Hx.
    destruct x; try discriminate Hl; reflexivity.
Qed.

Lemma single_value_is_singleton_list_witness :
  validate_policy __init__
    (VDict [(u "Version", VStr (u "2012-10-17"));
            (u "Statement", VList [sensitive_statement])]) =
  validate_policy __init__ sensitive_policy.
Proof.
  apply (proj1 (single_value_is_singleton_list __init__)
           [(u "Version", VStr (u "2012-10-17")); (u "Statement", sensitive_statement)]
           sensitive_statement); reflexivity.
Defined.

(** X8. Only [Version] and [Statement] of the document and only
    [Action], [Resource] and [Condition] of a statement are looked at:
    setting any other key, [Effect] for one, to any value changes neither
    the loop body's result nor the report. *)
Theorem other_keys_ignored (self : PolicyValidator) (k : str) (v : pyval) :
  (k <> u "Action" -> k <> u "Resource" -> k <> u "Condition" ->
   forall i d r,
     check_statement self i (VDict (dict_set k v d)) r =
     check_statement self i (VDict d) r) /\
  (k <> u "Version" -> k <> u "Statement" ->
   forall d,
     validate_policy self (VDict (dict_set k v d)) = validate_policy self (VDict d)).
Proof.
  assert (Hne : forall lit, k <> lit -> str_eqb lit k = false).
  { intros lit H. destruct (str_eqb lit k) eqn:E; [|reflexivity].
    apply str_eqb_eq in E. congruence. }
  split.
  - intros Ha Hr Hc i d r. rewrite !check_statement_dict. unfold actions_of.
    rewrite !dict_get_set_other by (apply Hne; assumption). reflexivity.
  - intros Hv Hs d. rewrite !validate_policy_dict.
    rewrite !dict_get_set_other by (apply Hne; assumption). reflexivity.
Qed.

Lemma other_keys_ignored_witness :
  check_statement __init__ 0
    (VDict (dict_set (u "Effect") (VStr (u "Deny"))
              [(u "Effect", VStr (u "Allow")); (u "Action", VStr (u "*"))]))
    (precheck true) =
  check_statement __init__ 0
    (VDict [(u "Effect", VStr (u "Allow")); (u "Action", VStr (u "*"))])
    (precheck true).
Proof.
  apply (proj1 (other_keys_ignored __init__ (u "Effect") (VStr (u "Deny"))));
    discriminate.
Defined.

Lemma for_statements_scalar (self : PolicyValidator) (pre : list pyval) :
  Forall is_dict pre ->
  forall i v post r,
    is_scalar v = true ->
    exists msg, for_statements self i (pre ++ v :: post) r = Raises (TypeError msg).
Proof.
  induction 1 as [|st rest [d ->] _ IH]; intros i v post r Hv.
  - cbn [app]. rewrite for_statements_cons.
    destruct v; try discriminate Hv; eexists; reflexivity.
  - cbn [app]. rewrite for_statements_cons, check_statement_dict. cbn [bind].
    apply IH. exact Hv.
Qed.

(** X9. A number, a boolean or [null] where an object is expected is not
    reported as such: when the document itself is one, or when the
    statement list holds one after statements that are objects, the
    [TypeError] of the membership test reaches the last [except] clause
    and the report is the generic validation error -- one issue, one
    recommendation, every finding made so far dropped. *)
Theorem scalar_gives_validation_error (self : PolicyValidator) (policy_json : pyval) :
  (forall policy,
     parse_policy policy_json = Returns policy -> is_scalar policy = true ->
     exists r, validate_policy self policy_json = Returns r /\ is_validation_error r) /\
  (forall d sv pre v post,
     parse_policy policy_json = Returns (VDict d) ->
     dict_get (u "Statement") d = Some sv ->
     as_list sv = pre ++ v :: post ->
     Forall is_dict pre -> is_scalar v = true ->
     exists r, validate_policy self policy_json = Returns r /\ is_validation_error r).
Proof.
  split.
  - intros policy Hp Hs. unfold validate_policy, validate_policy_try. rewrite Hp.
    destruct policy; try discriminate Hs;
      (eexists; split; [reflexivity | eexists; reflexivity]).
  - intros d sv pre v post Hp Hd Hl Hpre Hv.
    unfold validate_policy, validate_policy_try. rewrite Hp.
    unfold bind, contains, getitem. rewrite Hd.
    destruct (for_statements_scalar self pre Hpre 0%nat v post
                (precheck match dict_get (u "Version") d with
                          | Some _ => true | None => false end) Hv) as (msg & E).
    rewrite <- Hl in E.
    destruct (dict_get (u "Version") d); cbn [negb]; unfold precheck in E;
      cbn [negb] in E; rewrite E;
      (eexists; split; [reflexivity | eexists; reflexivity]).
Qed.

Lemma scalar_gives_validation_error_witness :
  exists r,
    validate_policy __init__
      (VStr (jq "{'Statement': [{'Action': '*', 'Resource': '*'}, 5]}")) = Returns r /\
    is_validation_error r.
Proof.
  apply (proj2 (scalar_gives_validation_error __init__
                  (VStr (jq "{'Statement': [{'Action': '*', 'Resource': '*'}, 5]}")))
           [(u "Statement",
             VList [VDict [(u "Action", VStr (u "*")); (u "Resource", VStr (u "*"))];
                    VInt 5])]
           (VList [VDict [(u "Action", VStr (u "*")); (u "Resource", VStr (u "*"))];
                   VInt 5])
           [VDict [(u "Action", VStr (u "*")); (u "Resource", VStr (u "*"))]]
           (VInt 5) []).
  - vm_compute; reflexivity.
  - reflexivity.
  - reflexivity.
  - repeat constructor. eexists; reflexivity.
  - reflexivity.
Defined.

(* ===================================================================== *)
(** ** Facts about the matcher *)
(* ===================================================================== *)

Module ReFacts.
Import Re.
Local Open Scope nat_scope.

Lemma match_nil (pos : nat) (g : nat * nat) (s : str) :
  match_here [] pos g s = Some (pos, g).
Proof. destruct s; reflexivity. Qed.

Lemma match_lit_cons (c : char) (p : pattern) (pos : nat) (g : nat * nat) (s : str) :
  match_here (Lit c :: p) pos g s =
  match s with
  | x :: r => if (x =? c)%N then match_here p (S pos) g r else None
  | [] => None
  end.
Proof. reflexivity. Qed.

Lemma match_greedy (cls : char -> bool) (p : pattern) (pos : nat) (g : nat * nat)
  (s : str) :
  match_here (StarGreedy cls :: p) pos g s =
  match s with
  | x :: r =>
      if cls x then
        match match_here (StarGreedy cls :: p) (S pos) g r with
        | Some m => Some m
        | None => match_here p pos g s
        end
      else match_here p pos g s
  | [] => match_here p pos g []
  end.
Proof. destruct s; reflexivity. Qed.

Lemma match_lazy (cls : char -> bool) (p : pattern) (pos : nat) (g : nat * nat)
  (s : str) :
  match_here (StarLazy cls :: p) pos g s =
  match match_here p pos g s with
  | Some m => Some m
  | None =>
      match s with
      | x :: r => if cls x then match_here (StarLazy cls :: p) (S pos) g r else None
      | [] => None
      end
  end.
Proof. destruct s; reflexivity. Qed.

Lemma match_group_open (p : pattern) (pos : nat) (g : nat * nat) (s : str) :
  match_here (GroupOpen :: p) pos g s = match_here p pos (pos, snd g) s.
Proof. reflexivity. Qed.

Lemma match_group_close (p : pattern) (pos : nat) (g : nat * nat) (s : str) :
  match_here (GroupClose :: p) pos g s = match_here p pos (fst g, pos) s.
Proof. reflexivity. Qed.

(** A literal prefix of the pattern is a prefix of the text. *)
Lemma match_lit (l : str) (p : pattern) : forall pos g s,
  match_here (lit l ++ p) pos g s =
  match strip_prefix l s with
  | Some r => match_here p (pos + List.length l) g r
  | None => None
  end.
Proof.
  induction l as [|c l IH]; intros pos g s.
  - cbn [lit map app strip_prefix List.length]. rewrite Nat.add_0_r. reflexivity.
  - cbn [lit map app]. fold (lit l). rewrite match_lit_cons.
    destruct s as [|x r]; [reflexivity|]. cbn [strip_prefix List.length].
    rewrite N.eqb_sym. destruct (c =? x)%N; [|reflexivity].
    rewrite IH. replace (S pos + List.length l) with (pos + S (List.length l)) by lia.
    reflexivity.
Qed.

Lemma strip_prefix_app (l s r : str) : strip_prefix l s = Some r -> s = l ++ r.
Proof.
  revert s; induction l as [|c l IH]; intros s; cbn [strip_prefix].
  - intros H; inversion H; reflexivity.
  - destruct s as [|x s']; [discriminate|].
    destruct (c =? x)%N eqn:E; [|discriminate].
    apply N.eqb_eq in E. subst x. intros H. apply IH in H. subst s'. reflexivity.
Qed.

Lemma strip_prefix_self (l r : str) : strip_prefix l (l ++ r) = Some r.
Proof.
  induction l as [|c l IH]; [reflexivity|].
  cbn [app strip_prefix]. rewrite N.eqb_refl. exact IH.
Qed.

(** What a successful greedy star consumed. *)
Lemma match_greedy_inv (cls : char -> bool) (p : pattern) (g : nat * nat) (s : str) :
  forall pos res,
    match_here (StarGreedy cls :: p) pos g s = Some res ->
    exists w s',
      s = w ++ s' /\ Forall (fun c => cls c = true) w /\
      match_here p (pos + List.length w) g s' = Some res.
Proof.
  induction s as [|x r IH]; intros pos res H; rewrite match_greedy in H.
  - exists [], []. rewrite Nat.add_0_r. auto.
  - destruct (cls x) eqn:C.
    + destruct (match_here (StarGreedy cls :: p) (S pos) g r) as [m|] eqn:E.
      * inversion H; subst m. apply IH in E as (w & s' & -> & Hw & Hm).
        exists (x :: w), s'. cbn [app List.length].
        replace (pos + S (List.length w)) with (S pos + List.length w) by lia.
        auto.
      * exists [], (x :: r). rewrite Nat.add_0_r. auto.
    + exists [], (x :: r). rewrite Nat.add_0_r. auto.
Qed.

(** A greedy star followed by a text that leaves the class takes the
    whole run when the rest of the pattern matches after it. *)
Lemma match_greedy_all (cls : char -> bool) (p : pattern) (g : nat * nat)
  (w s : str) (res : nat * (nat * nat)) :
  Forall (fun c => cls c = true) w ->
  (forall c, hd_error s = Some c -> cls c = false) ->
  forall pos,
    match_here p (pos + List.length w) g s = Some res ->
    match_here (StarGreedy cls :: p) pos g (w ++ s) = Some res.
Proof.
  intros Hw Hs. induction Hw as [|x w Cx _ IH]; intros pos H.
  - cbn [app List.length] in *. rewrite Nat.add_0_r in H. rewrite match_greedy.
    destruct s as [|c r]; [exact H|]. rewrite (Hs c eq_refl). exact H.
  - cbn [app]. rewrite match_greedy, Cx.
    rewrite (IH (S pos)); [reflexivity|].
    cbn [List.length] in H.
    replace (S pos + List.length w) with (pos + S (List.length w)) by lia. exact H.
Qed.

(** A greedy star fails when the rest of the pattern fails after every
    run it can take. *)
Lemma match_greedy_none (cls : char -> bool) (p : pattern) (g : nat * nat) (s : str) :
  forall pos,
    (forall w r, s = w ++ r -> Forall (fun c => cls c = true) w ->
                 match_here p (pos + List.length w) g r = None) ->
    match_here (StarGreedy cls :: p) pos g s = None.
Proof.
  induction s as [|x r IH]; intros pos H; rewrite match_greedy.
  - specialize (H [] [] eq_refl (Forall_nil _)). rewrite Nat.add_0_r in H. exact H.
  - assert (H0 : match_here p pos g (x :: r) = None).
    { specialize (H [] (x :: r) eq_refl (Forall_nil _)).
      rewrite Nat.add_0_r in H. exact H. }
    destruct (cls x) eqn:C; [|exact H0].
    rewrite IH; [exact H0|].
    intros w r' -> Hw.
    specialize (H (x :: w) r' eq_refl (Forall_cons _ C Hw)).
    cbn [List.length] in H.
    replace (S pos + List.length w) with (pos + S (List.length w)) by lia. exact H.
Qed.

(** What a successful lazy star consumed: the rest of the pattern failed
    at every earlier position. *)
Lemma match_lazy_inv (cls : char -> bool) (p : pattern) (g : nat * nat) (s : str) :
  forall pos res,
    match_here (StarLazy cls :: p) pos g s = Some res ->
    exists b s',
      s = b ++ s' /\ Forall (fun c => cls c = true) b /\
      match_here p (pos + List.length b) g s' = Some res /\
      forall b1 c b2, b = b1 ++ c :: b2 ->
        match_here p (pos + List.length b1) g (c :: b2 ++ s') = None.
Proof.
  induction s as [|x r IH]; intros pos res H; rewrite match_lazy in H.
  - destruct (match_here p pos g []) as [m|] eqn:E; [|discriminate].
    inversion H; subst m. exists [], []. rewrite Nat.add_0_r.
    repeat split; auto. intros [|? ?] ? ? Hb; discriminate Hb.
  - destruct (match_here p pos g (x :: r)) as [m|] eqn:E.
    + inversion H; subst m. exists [], (x :: r). rewrite Nat.add_0_r.
      repeat split; auto. intros [|? ?] ? ? Hb; discriminate Hb.
    + destruct (cls x) eqn:C; [|discriminate].
      apply IH in H as (b & s' & -> & Hb & Hm & Hmin).
      exists (x :: b), s'. cbn [app List.length].
      replace (pos + S (List.length b)) with (S pos + List.length b) by lia.
      repeat split; auto.
      intros [|y b1] c b2 Hsplit; cbn [app] in Hsplit; inversion Hsplit; subst.
      * cbn [List.length]. rewrite Nat.add_0_r. exact E.
      * cbn [List.length].
        replace (pos + S (List.length b1)) with (S pos + List.length b1) by lia.
        apply Hmin. reflexivity.
Qed.

(** A lazy star walks over a text on which the rest of the pattern fails
    at every position. *)
Lemma match_lazy_skip (cls : char -> bool) (p : pattern) (g : nat * nat)
  (b s : str) :
  Forall (fun c => cls c = true) b ->
  forall pos,
    (forall b1 c b2, b = b1 ++ c :: b2 ->
       match_here p (pos + List.length b1) g (c :: b2 ++ s) = None) ->
    match_here (StarLazy cls :: p) pos g (b ++ s) =
    match_here (StarLazy cls :: p) (pos + List.length b) g s.
Proof.
  intros Hb. induction Hb as [|x b Cx _ IH]; intros pos Hfail.
  - cbn [app List.length]. rewrite Nat.add_0_r. reflexivity.
  - cbn [app]. rewrite match_lazy.
    pose proof (Hfail [] x b eq_refl) as H0. cbn [List.length] in H0.
    rewrite Nat.add_0_r in H0. rewrite H0, Cx.
    rewrite IH.
    + cbn [List.length].
      replace (S pos + List.length b) with (pos + S (List.length b)) by lia. reflexivity.
    + intros b1 c b2 ->. specialize (Hfail (x :: b1) c b2 eq_refl).
      cbn [List.length] in Hfail.
      replace (S pos + List.length b1) with (pos + S (List.length b1)) by lia.
      exact Hfail.
Qed.

(** [search_from] returns the leftmost position where the pattern
    matches. *)
Lemma search_from_inv (p : pattern) (s : str) : forall pos m,
  search_from p pos s = Some m ->
  exists skipped s',
    s = skipped ++ s' /\ m_start m = pos + List.length skipped /\
    match_here p (m_start m) (m_start m, m_start m) s' = Some (m_end m, m_group1 m).
Proof.
  induction s as [|x r IH]; intros pos m H; cbn [search_from] in H.
  - destruct (match_here p pos (pos, pos) []) as [[e g]|] eqn:E; [|discriminate].
    inversion H; subst m. exists [], []. cbn. rewrite Nat.add_0_r. auto.
  - destruct (match_here p pos (pos, pos) (x :: r)) as [[e g]|] eqn:E.
    + inversion H; subst m. exists [], (x :: r). cbn. rewrite Nat.add_0_r. auto.
    + apply IH in H as (sk & s' & -> & Hst & Hm).
      exists (x :: sk), s'. cbn [app List.length].
      replace (pos + S (List.length sk)) with (S pos + List.length sk) by lia. auto.
Qed.

Lemma search_from_skip (p : pattern) (skipped s : str) : forall pos,
  (forall s1 c s2, skipped = s1 ++ c :: s2 ->
     match_here p (pos + List.length s1) (pos + List.length s1, pos + List.length s1)
       (c :: s2 ++ s) = None) ->
  search_from p pos (skipped ++ s) = search_from p (pos + List.length skipped) s.
Proof.
  induction skipped as [|x sk IH]; intros pos Hfail.
  - cbn [app List.length]. rewrite Nat.add_0_r. reflexivity.
  - cbn [app search_from].
    pose proof (Hfail [] x sk eq_refl) as H0. cbn [List.length] in H0.
    rewrite Nat.add_0_r in H0. rewrite H0.
    rewrite IH.
    + cbn [List.length].
      replace (S pos + List.length sk) with (pos + S (List.length sk)) by lia. reflexivity.
    + intros s1 c s2 ->. specialize (Hfail (x :: s1) c s2 eq_refl).
      cbn [List.length] in Hfail.
      replace (S pos + List.length s1) with (pos + S (List.length s1)) by lia.
      exact Hfail.
Qed.

Lemma slice_app (a b c : str) :
  slice (a ++ b ++ c) (List.length a) (List.length a + List.length b) = b.
Proof.
  unfold slice. rewrite skipn_app, skipn_all, Nat.sub_diag. cbn [skipn app].
  replace (List.length a + List.length b - List.length a) with (List.length b) by lia.
  rewrite firstn_app, firstn_all, Nat.sub_diag. cbn [firstn]. apply app_nil_r.
Qed.

Lemma slice_substring (text : str) (a b : nat) :
  exists before after, text = before ++ slice text a b ++ after.
Proof.
  exists (firstn a text), (skipn (b - a) (skipn a text)). unfold slice.
  rewrite firstn_skipn, firstn_skipn. reflexivity.
Qed.

End ReFacts.

(* ===================================================================== *)
(** ** More about the extractor *)
(* ===================================================================== *)

Lemma lstrip_split (s : str) :
  exists w, s = w ++ lstrip s /\ Forall (fun c => isspace c = true) w.
Proof.
  induction s as [|c r (w & E & Hw)]; [exists []; auto|].
  cbn [lstrip]. destruct (isspace c) eqn:C.
  - exists (c :: w). split; [cbn; congruence | constructor; assumption].
  - exists []. auto.
Qed.

Lemma lstrip_head (s : str) (c : char) :
  hd_error (lstrip s) = Some c -> isspace c = false.
Proof.
  induction s as [|x r IH]; cbn [lstrip]; [discriminate|].
  destruct (isspace x) eqn:C; [exact IH|].
  cbn. intros H; inversion H; subst; exact C.
Qed.

Lemma lstrip_id (s : str) :
  (forall c, hd_error s = Some c -> isspace c = false) -> lstrip s = s.
Proof.
  destruct s as [|x r]; [reflexivity|]. intros H. cbn [lstrip].
  rewrite (H x eq_refl). reflexivity.
Qed.

Lemma rstrip_split (s : str) :
  exists w, s = rstrip s ++ w /\ Forall (fun c => isspace c = true) w.
Proof.
  unfold rstrip. destruct (lstrip_split (rev s)) as (w & E & Hw).
  exists (rev w). split.
  - rewrite <- rev_app_distr, <- E, rev_involutive. reflexivity.
  - apply Forall_rev. exact Hw.
Qed.

Lemma rstrip_last (s : str) (c : char) :
  hd_error (rev (rstrip s)) = Some c -> isspace c = false.
Proof. unfold rstrip. rewrite rev_involutive. apply lstrip_head. Qed.

Lemma strip_id (s : str) :
  (forall c, hd_error s = Some c -> isspace c = false) ->
  (forall c, hd_error (rev s) = Some c -> isspace c = false) ->
  strip s = s.
Proof.
  intros H1 H2. unfold strip. rewrite (lstrip_id s H1).
  unfold rstrip. rewrite (lstrip_id (rev s) H2). apply rev_involutive.
Qed.

Lemma strip_substring (s : str) : exists w w', s = w ++ strip s ++ w'.
Proof.
  destruct (lstrip_split s) as (w & E & _).
  destruct (rstrip_split (lstrip s)) as (w' & E' & _).
  exists w, w'. unfold strip. rewrite <- E'. exact E.
Qed.

Lemma strip_ends (s : str) :
  (forall c, hd_error (strip s) = Some c -> isspace c = false) /\
  (forall c, hd_error (rev (strip s)) = Some c -> isspace c = false).
Proof.
  split; [|apply rstrip_last].
  intros c H. unfold strip in *.
  destruct (rstrip_split (lstrip s)) as (w' & E' & _).
  apply (lstrip_head s). rewrite E'.
  destruct (rstrip (lstrip s)); [discriminate H | exact H].
Qed.

(** What [extract_policy_from_text] returns when it returns a string: the
    stripped group of one of the two patterns, decoded without error. *)
Lemma extract_policy_inv (self : PolicyValidator) (text json_str : str) :
  extract_policy_from_text self text = Returns (Some json_str) ->
  (exists v, Json.loads json_str = Returns v) /\
  ((exists m, Re.search json_pattern_fenced text = Some m /\
              json_str = strip (Re.group1 text m)) \/
   (Re.search json_pattern_fenced text = None /\
    exists m, Re.search json_pattern_braces text = Some m /\
              json_str = strip (Re.group0 text m))).
Proof.
  unfold extract_policy_from_text, try_except, extract_policy_try, bind.
  destruct (Re.search json_pattern_fenced text) as [m|].
  - destruct (Json.loads (strip (Re.group1 text m))) as [v|e] eqn:E;
      intros H; inversion H; subst. split; [eauto|]. left. eauto.
  - destruct (Re.search json_pattern_braces text) as [m|]; [|discriminate].
    destruct (Json.loads (strip (Re.group0 text m))) as [v|e] eqn:E;
      intros H; inversion H; subst. split; [eauto|]. right. eauto.
Qed.

Lemma extract_policy_piece (self : PolicyValidator) (text json_str : str) :
  extract_policy_from_text self text = Returns (Some json_str) ->
  exists before after, text = before ++ json_str ++ after.
Proof.
  intros H. apply extract_policy_inv in H as (_ & Hshape).
  assert (Hsub : exists g, json_str = strip g /\
                           exists before after, text = before ++ g ++ after).
  { destruct Hshape as [(m & _ & E) | (_ & m & _ & E)].
    - exists (Re.group1 text m). split; [exact E | apply ReFacts.slice_substring].
    - exists (Re.group0 text m). split; [exact E | apply ReFacts.slice_substring]. }
  destruct Hsub as (g & -> & before & after & Ht).
  destruct (strip_substring g) as (w & w' & Eg).
  exists (before ++ w), (w' ++ after).
  rewrite Ht. rewrite Eg at 1. rewrite <- !app_assoc. reflexivity.
Qed.

(** X10. Whatever [extract_policy_from_text] returns other than [None]
    is a piece of the input, unchanged: a non-empty contiguous part of the
    text that neither starts nor ends with white space. *)
Theorem extracted_is_stripped_substring (self : PolicyValidator) (text json_str : str) :
  extract_policy_from_text self text = Returns (Some json_str) ->
  (exists before after, text = before ++ json_str ++ after) /\
  json_str <> [] /\
  (forall c, hd_error json_str = Some c -> isspace c = false) /\
  (forall c, hd_error (rev json_str) = Some c -> isspace c = false).
Proof.
  intros H. split; [exact (extract_policy_piece self text json_str H)|].
  apply extract_policy_inv in H as ((v & Hv) & Hshape).
  assert (Hs : exists g, json_str = strip g).
  { destruct Hshape as [(m & _ & E) | (_ & m & _ & E)]; eauto. }
  destruct Hs as (g & ->). split.
  - intros E. rewrite E in Hv. vm_compute in Hv. discriminate Hv.
  - apply strip_ends.
Qed.

Lemma extracted_is_stripped_substring_witness :
  exists before after,
    u "Here: " ++ empty_statements_text ++ [10] =
    before ++ empty_statements_text ++ after.
Proof.
  apply (extracted_is_stripped_substring __init__
           (u "Here: " ++ empty_statements_text ++ [10]) empty_statements_text).
  vm_compute. reflexivity.
Defined.

Lemma any_true (c : char) : Re.any c = true.
Proof. unfold Re.any. apply orb_negb_r. Qed.

Lemma search_from_hit (p : Re.pattern) (pos e : nat) (g : nat * nat) (s : str) :
  Re.match_here p pos (pos, pos) s = Some (e, g) ->
  Re.search_from p pos s = Some {| Re.m_start := pos; Re.m_end := e; Re.m_group1 := g |}.
Proof. intros H. destruct s; cbn [Re.search_from]; rewrite H; reflexivity. Qed.

(** A run of white space at the front of a text that starts with a body
    ending in a visible character stops inside the body. *)
Lemma space_run_inside (l : str) : forall t w r,
  l ++ t = w ++ r ->
  Forall (fun c => isspace c = true) w ->
  (exists c, hd_error (rev l) = Some c /\ isspace c = false) ->
  exists c' r', r = c' :: r' /\ In c' l.
Proof.
  induction l as [|x l IH]; intros t w r E Hw (c & Hc & Cc); [discriminate Hc|].
  destruct w as [|y w].
  - cbn [app] in E. exists x, (l ++ t). split; [symmetry; exact E | left; reflexivity].
  - cbn [app] in E. inversion E; subst y. inversion Hw as [|? ? Cx Hw']; subst.
    destruct l as [|x' l'].
    + cbn in Hc. inversion Hc; subst c. congruence.
    + destruct (IH t w r H1 Hw') as (c' & r' & Er & Hin).
      * exists c. split; [|exact Cc].
        cbn [rev] in Hc |- *.
        destruct (rev l' ++ [x']) eqn:R; [destruct (rev l'); discriminate R|].
        exact Hc.
      * exists c', r'. split; [exact Er | right; exact Hin].
Qed.

Lemma strip_prefix_head_differs (c x : char) (l s : str) :
  x <> c -> strip_prefix (c :: l) (x :: s) = None.
Proof.
  intros H. cbn [strip_prefix]. destruct (c =? x)%N eqn:E; [|reflexivity].
  apply N.eqb_eq in E. congruence.
Qed.

(** The fenced pattern on a text that starts with a well-formed block. *)
Lemma fenced_match_here (w1 body w2 post : str) (pos : nat) (g : nat * nat) :
  Forall (fun c => isspace c = true) w1 ->
  Forall (fun c => isspace c = true) w2 ->
  ~ In 96 body ->
  (exists c, hd_error body = Some c /\ isspace c = false) ->
  (exists c, hd_error (rev body) = Some c /\ isspace c = false) ->
  Re.match_here json_pattern_fenced pos g
    (fence_open ++ w1 ++ body ++ w2 ++ fence_close ++ post) =
  Some ((pos + 7 + List.length w1 + List.length body + List.length w2 + 3)%nat,
        ((pos + 7 + List.length w1)%nat,
         (pos + 7 + List.length w1 + List.length body)%nat)).
Proof.
  intros Hw1 Hw2 Hbt (c1 & Hc1 & Sc1) Hlast.
  unfold json_pattern_fenced. fold fence_open. fold fence_close.
  rewrite ReFacts.match_lit, ReFacts.strip_prefix_self.
  change (List.length fence_open) with 7%nat.
  cbn [app].
  apply ReFacts.match_greedy_all; [exact Hw1| |].
  { intros c Hc. destruct body as [|b0 body']; [discriminate Hc1|].
    cbn in Hc, Hc1. inversion Hc; inversion Hc1; subst. exact Sc1. }
  rewrite ReFacts.match_group_open. cbn [snd].
  rewrite ReFacts.match_lazy_skip.
  - rewrite ReFacts.match_lazy, ReFacts.match_group_close. cbn [fst].
    rewrite (ReFacts.match_greedy_all Re.space (Re.lit fence_close) _ w2
               (fence_close ++ post)
               ((pos + 7 + List.length w1 + List.length body + List.length w2 + 3)%nat,
                ((pos + 7 + List.length w1)%nat,
                 (pos + 7 + List.length w1 + List.length body)%nat)));
      [reflexivity | exact Hw2 | |].
    + intros c Hc. cbn in Hc. inversion Hc; subst. reflexivity.
    + rewrite <- (app_nil_r (Re.lit fence_close)).
      rewrite ReFacts.match_lit, ReFacts.strip_prefix_self, ReFacts.match_nil.
      reflexivity.
  - apply Forall_forall. intros c _. apply any_true.
  - intros b1 c b2 Hsplit.
    rewrite ReFacts.match_group_close. cbn [fst].
    apply ReFacts.match_greedy_none. intros w r E Hw.
    assert (Hlast' : exists c0, hd_error (rev (c :: b2)) = Some c0 /\ isspace c0 = false).
    { destruct Hlast as (c0 & Hc0 & Sc0). exists c0. split; [|exact Sc0].
      rewrite Hsplit, rev_app_distr in Hc0.
      destruct (rev (c :: b2)) eqn:R;
        [apply (f_equal (@List.length _)) in R; rewrite length_rev in R; discriminate R|].
      exact Hc0. }
    change (c :: b2 ++ w2 ++ fence_close ++ post)
      with ((c :: b2) ++ w2 ++ fence_close ++ post) in E.
    destruct (space_run_inside (c :: b2) _ w r E Hw Hlast') as (c' & r' & -> & Hin).
    rewrite <- (app_nil_r (Re.lit fence_close)). rewrite ReFacts.match_lit.
    change fence_close with (96 :: u "``")%N.
    rewrite strip_prefix_head_differs; [reflexivity|].
    intros ->. apply Hbt. rewrite Hsplit. apply in_or_app. right. exact Hin.
Qed.

(** X11. A well-formed fenced block is extracted verbatim.  When no
    backtick comes before the opening marker and the block holds, between
    runs of white space, a body without backticks that starts and ends
    with a visible character, [extract_policy_from_text] returns exactly
    that body if [json.loads] accepts it and [None] if not, whatever
    follows the closing fence. *)
Theorem fenced_block_verbatim (self : PolicyValidator) (pre w1 body w2 post : str) :
  ~ In 96 pre ->
  Forall (fun c => isspace c = true) w1 ->
  Forall (fun c => isspace c = true) w2 ->
  ~ In 96 body ->
  (exists c, hd_error body = Some c /\ isspace c = false) ->
  (exists c, hd_error (rev body) = Some c /\ isspace c = false) ->
  extract_policy_from_text self
    (pre ++ fence_open ++ w1 ++ body ++ w2 ++ fence_close ++ post) =
  match Json.loads body with
  | Returns _ => Returns (Some body)
  | Raises _ => Returns None
  end.
Proof.
  intros Hpre Hw1 Hw2 Hbt Hhd Hlast.
  set (text := pre ++ fence_open ++ w1 ++ body ++ w2 ++ fence_close ++ post).
  assert (Hsearch :
    Re.search json_pattern_fenced text =
    Some {| Re.m_start := List.length pre;
            Re.m_end := (List.length pre + 7 + List.length w1 + List.length body +
                         List.length w2 + 3)%nat;
            Re.m_group1 := ((List.length pre + 7 + List.length w1)%nat,
                            (List.length pre + 7 + List.length w1 +
                             List.length body)%nat) |}).
  { unfold Re.search, text. rewrite ReFacts.search_from_skip.
    - cbn [Nat.add]. apply search_from_hit. apply fenced_match_here; assumption.
    - intros s1 c s2 Hsplit. unfold json_pattern_fenced.
      rewrite ReFacts.match_lit.
      change (u "```json") with (96 :: u "``json")%N.
      rewrite strip_prefix_head_differs; [reflexivity|].
      intros ->. apply Hpre. rewrite Hsplit. apply in_or_app. right. left. reflexivity. }
  assert (Hgroup : Re.group1 text
                     {| Re.m_start := List.length pre;
                        Re.m_end := (List.length pre + 7 + List.length w1 +
                                     List.length body + List.length w2 + 3)%nat;
                        Re.m_group1 := ((List.length pre + 7 + List.length w1)%nat,
                                        (List.length pre + 7 + List.length w1 +
                                         List.length body)%nat) |} = body).
  { unfold Re.group1, text. cbn [Re.m_group1 fst snd].
    replace (pre ++ fence_open ++ w1 ++ body ++ w2 ++ fence_close ++ post)
      with ((pre ++ fence_open ++ w1) ++ body ++ (w2 ++ fence_close ++ post))
      by (rewrite <- !app_assoc; reflexivity).
    replace (List.length pre + 7 + List.length w1)%nat
      with (List.length (pre ++ fence_open ++ w1))
      by (rewrite !length_app; change (List.length fence_open) with 7%nat; lia).
    apply ReFacts.slice_app. }
  assert (Hstrip : strip body = body).
  { destruct Hhd as (c & Hc & Sc). destruct Hlast as (c' & Hc' & Sc').
    apply strip_id; intros c0 H0; congruence. }
  unfold extract_policy_from_text, extract_policy_try. rewrite Hsearch.
  cbv zeta. rewrite Hgroup, Hstrip.
  destruct (Json.loads body); reflexivity.
Qed.

Lemma fenced_block_verbatim_witness :
  extract_policy_from_text __init__
    (u "Here is the policy:" ++ fence_open ++ [10] ++ empty_statements_text ++ [10] ++
     fence_close ++ u " Use it with care.") =
  Returns (Some empty_statements_text).
Proof.
  etransitivity.
  - apply (fenced_block_verbatim __init__ (u "Here is the policy:") [10]
             empty_statements_text [10] (u " Use it with care.")).
    + vm_compute. intros H. repeat (destruct H as [H | H]; [discriminate H|]). exact H.
    + repeat constructor.
    + repeat constructor.
    + vm_compute. intros H. repeat (destruct H as [H | H]; [discriminate H|]). exact H.
    + eexists. split; vm_compute; reflexivity.
    + eexists. split; vm_compute; reflexivity.
  - vm_compute. reflexivity.
Defined.

Lemma str_contains_app (l a b : str) : str_contains l (a ++ l ++ b) = true.
Proof.
  induction a as [|x a IH]; cbn [app].
  - destruct (l ++ b) eqn:E; cbn [str_contains]; unfold startswith;
      rewrite <- E, ReFacts.strip_prefix_self; reflexivity.
  - cbn [str_contains]. rewrite IH. apply orb_true_r.
Qed.

(** What a match of the brace pattern looks like. *)
Lemma brace_match_inv (pos e : nat) (g g' : nat * nat) (s : str) :
  Re.match_here json_pattern_braces pos g s = Some (e, g') ->
  exists w a b rest,
    s = (u "{" ++ w ++ jq "'Version'" ++ a ++ jq "'Statement'" ++ b ++ u "}") ++ rest /\
    Forall (fun c => isspace c = true) w /\ ~ In 125 b /\
    e = (pos + List.length
               (u "{" ++ w ++ jq "'Version'" ++ a ++ jq "'Statement'" ++ b ++ u "}"))%nat.
Proof.
  unfold json_pattern_braces. intros H.
  rewrite ReFacts.match_lit in H.
  destruct (strip_prefix (u "{") s) as [s1|] eqn:E1; [|discriminate].
  apply ReFacts.strip_prefix_app in E1. cbn [app] in H.
  apply ReFacts.match_greedy_inv in H as (w & s2 & -> & Hw & H).
  rewrite ReFacts.match_lit in H.
  destruct (strip_prefix (jq "'Version'") s2) as [s3|] eqn:E3; [|discriminate].
  apply ReFacts.strip_prefix_app in E3. cbn [app] in H.
  apply ReFacts.match_lazy_inv in H as (a & s4 & -> & _ & H & _).
  rewrite ReFacts.match_lit in H.
  destruct (strip_prefix (jq "'Statement'") s4) as [s5|] eqn:E5; [|discriminate].
  apply ReFacts.strip_prefix_app in E5. cbn [app] in H.
  apply ReFacts.match_lazy_inv in H as (b & s6 & -> & _ & H & Hmin).
  rewrite <- (app_nil_r (Re.lit (u "}"))) in H, Hmin.
  rewrite ReFacts.match_lit in H.
  destruct (strip_prefix (u "}") s6) as [s7|] eqn:E7; [|discriminate].
  apply ReFacts.strip_prefix_app in E7. rewrite ReFacts.match_nil in H.
  inversion H; subst e g'. subst s s2 s4 s6.
  exists w, a, b, s7. split; [|split; [exact Hw|split]].
  - rewrite <- !app_assoc. reflexivity.
  - intros Hin. apply in_split in Hin as (b1 & b2 & ->).
    specialize (Hmin b1 125%N b2 eq_refl). rewrite ReFacts.match_lit in Hmin.
    cbn [strip_prefix u chr app] in Hmin. discriminate Hmin.
  - rewrite !length_app.
    change (List.length (u "{")) with 1%nat.
    change (List.length (u "}")) with 1%nat.
    change (List.length (jq "'Version'")) with 9%nat.
    change (List.length (jq "'Statement'")) with 11%nat.
    lia.
Qed.

Lemma brace_scan_result_shape (self : PolicyValidator) (text json_str : str) :
  Re.search json_pattern_fenced text = None ->
  extract_policy_from_text self text = Returns (Some json_str) ->
  brace_scan_shape json_str.
Proof.
  intros Hnone H. apply extract_policy_inv in H as (_ & Hshape).
  destruct Hshape as [(m & Hm & _) | (_ & m & Hm & ->)]; [congruence|].
  unfold Re.search in Hm. apply ReFacts.search_from_inv in Hm as (sk & s' & Ht & Hst & Hm).
  apply brace_match_inv in Hm as (w & a & b & rest & -> & Hw & Hb & He).
  set (matched := u "{" ++ w ++ jq "'Version'" ++ a ++ jq "'Statement'" ++ b ++ u "}") in *.
  assert (Hg : Re.group0 text m = matched).
  { unfold Re.group0. rewrite Ht, He, Hst. cbn [Nat.add]. apply ReFacts.slice_app. }
  rewrite Hg.
  assert (Hs : strip matched = matched).
  { apply strip_id.
    - intros c Hc. unfold matched in Hc. cbn in Hc. inversion Hc; subst. reflexivity.
    - intros c Hc. unfold matched in Hc.
      rewrite !rev_app_distr in Hc. cbn in Hc. inversion Hc; subst. reflexivity. }
  rewrite Hs. exists w, a, b. auto.
Qed.

(** X12. Without a fenced block, what [extract_policy_from_text] returns
    is a match of the brace pattern, left as it is by [strip]: an
    opening brace, white space, the quoted text [Version], any text, the
    quoted text [Statement], a text without a closing brace, and one
    closing brace.  The match ends at the first closing brace after the
    quoted [Statement] it found, which is the key or, as in
    [brace_scan_whole_document] below, a later string value. *)
Theorem brace_scan_stops_at_first_brace (self : PolicyValidator) (text json_str : str) :
  Re.search json_pattern_fenced text = None ->
  extract_policy_from_text self text = Returns (Some json_str) ->
  brace_scan_shape json_str.
Proof. exact (brace_scan_result_shape self text json_str). Qed.

Lemma brace_scan_stops_at_first_brace_witness :
  brace_scan_shape (jq "{ 'Version': '2012-10-17', 'Statement': [] }").
Proof.
  apply (brace_scan_stops_at_first_brace __init__
           (jq "policy: { 'Version': '2012-10-17', 'Statement': [] } done }"));
    vm_compute; reflexivity.
Defined.

(** The quoted text [Statement] the brace scan finds need not be the key:
    with the key spelled through an escape and a later string value
    [Statement], the match runs to the last brace and the whole document
    comes back, its statement an object. *)
Example brace_scan_whole_document :
  let text :=
    jq "{'Version':'2012-10-17','\u0053tatement':[{'Action':'s3:GetObject','Resource':'arn:aws:s3:::b/*'}],'Sid':'Statement'}" in
  extract_policy_from_text __init__ text = Returns (Some text) /\
  Json.loads text =
  Returns (VDict [(u "Version", VStr (u "2012-10-17"));
                  (u "Statement",
                   VList [VDict [(u "Action", VStr (u "s3:GetObject"));
                                 (u "Resource", VStr (u "arn:aws:s3:::b/*"))]]);
                  (u "Sid", VStr (u "Statement"))]).
Proof. cbv zeta. split; vm_compute; reflexivity. Qed.

(** X13. A text that holds neither the opening marker of a fenced block
    nor the quoted [Statement] key yields [None]. *)
Theorem no_marker_not_found (self : PolicyValidator) (text : str) :
  str_contains fence_open text = false ->
  str_contains (jq "'Statement'") text = false ->
  extract_policy_from_text self text = Returns None.
Proof.
  intros Hf Hs.
  destruct (extract_policy_from_text self text) as [[json_str|]|e] eqn:E.
  - exfalso. apply extract_policy_inv in E as (_ & Hshape).
    destruct Hshape as [(m & Hm & _) | (_ & m & Hm & _)]; unfold Re.search in Hm;
      apply ReFacts.search_from_inv in Hm as (sk & s' & Ht & _ & Hm).
    + unfold json_pattern_fenced in Hm. rewrite ReFacts.match_lit in Hm.
      destruct (strip_prefix (u "```json") s') as [r|] eqn:P; [|discriminate].
      apply ReFacts.strip_prefix_app in P. subst s' text.
      unfold fence_open in Hf. rewrite str_contains_app in Hf. discriminate Hf.
    + apply brace_match_inv in Hm as (w & a & b & rest & -> & _).
      subst text.
      replace (sk ++ (u "{" ++ w ++ jq "'Version'" ++ a ++ jq "'Statement'" ++ b ++ u "}")
                  ++ rest)
        with ((sk ++ u "{" ++ w ++ jq "'Version'" ++ a) ++ jq "'Statement'" ++
              (b ++ u "}" ++ rest)) in Hs
        by (rewrite <- !app_assoc; reflexivity).
      rewrite str_contains_app in Hs. discriminate Hs.
  - reflexivity.
  - unfold extract_policy_from_text, try_except in E.
    destruct (extract_policy_try text); discriminate E.
Qed.

Lemma no_marker_not_found_witness :
  extract_policy_from_text __init__ (u "I cannot help with that {request}.") =
  Returns None.
Proof.
  apply (no_marker_not_found __init__ (u "I cannot help with that {request}."));
    vm_compute; reflexivity.
Defined.

(* ===================================================================== *)
(** ** The three copies of the extraction, and the application around it *)
(* ===================================================================== *)

Lemma extraction_agree (self : PolicyValidator) (text : str) :
  exists json_str policy,
    extract_policy_json text = Returns (json_str, policy) /\
    extract_policy_from_text self text = Returns json_str /\
    match json_str with
    | Some s => Json.loads s = Returns policy
    | None => policy = VNone
    end /\
    forall save_policy name description,
      match json_str with
      | Some s =>
          extract_and_save_policy save_policy text name description =
          Returns (true, save_policy s name description)
      | None =>
          exists msg,
            extract_and_save_policy save_policy text name description =
            Returns (false, Some msg)
      end.
Proof.
  unfold extract_policy_json, extract_policy_from_text, extract_policy_try,
    extract_and_save_policy, extract_and_save_try, try_except, bind.
  destruct (Re.search json_pattern_fenced text) as [m|].
  - destruct (Json.loads (strip (Re.group1 text m))) as [v|e] eqn:E.
    + exists (Some (strip (Re.group1 text m))), v. repeat split; auto.
    + exists None, VNone. repeat split; auto.
      intros save_policy name description. destruct e; eauto.
  - destruct (Re.search json_pattern_braces text) as [m|].
    + destruct (Json.loads (strip (Re.group0 text m))) as [v|e] eqn:E.
      * exists (Some (strip (Re.group0 text m))), v. repeat split; auto.
      * exists None, VNone. repeat split; auto.
        intros save_policy name description. destruct e; eauto.
    + exists None, VNone. repeat split; auto.
      intros save_policy name description. eauto.
Qed.

(** X14. The three copies of the extraction code agree on every text.
    [app.extract_policy_json] never raises; its first component is what
    [PolicyValidator.extract_policy_from_text] returns; its second
    component is the decoding of the first, or [None] when nothing was
    found; and [PolicyUtils.extract_and_save_policy] hands exactly that
    string to [save_policy] and reports success, or reports failure with
    a message when nothing was found. *)
Theorem extraction_copies_agree (self : PolicyValidator) (text : str) :
  exists json_str policy,
    extract_policy_json text = Returns (json_str, policy) /\
    extract_policy_from_text self text = Returns json_str /\
    match json_str with
    | Some s => Json.loads s = Returns policy
    | None => policy = VNone
    end /\
    forall save_policy name description,
      match json_str with
      | Some s =>
          extract_and_save_policy save_policy text name description =
          Returns (true, save_policy s name description)
      | None =>
          exists msg,
            extract_and_save_policy save_policy text name description =
            Returns (false, Some msg)
      end.
Proof. exact (extraction_agree self text). Qed.

Lemma format_results_not_notice (r : report) : format_results r <> no_valid_policy_found.
Proof.
  intros E. apply (f_equal (@hd_error _)) in E. unfold format_results in E.
  destruct (valid r); destruct (issues r); destruct (recommendations r);
    vm_compute in E; discriminate E.
Qed.

(** X15. [validate_policy_from_text] never raises, and it answers
    [No valid policy found in the response.] exactly when the policy that
    [extract_policy_json] decoded is falsy: nothing was found, or the
    document found is an empty object or list, an empty string, zero,
    [false] or [null].  In every other case the answer is the formatted
    report of the validator on the decoded policy. *)
Theorem validate_policy_from_text_answer (text : str) :
  exists json_str policy out,
    extract_policy_json text = Returns (json_str, policy) /\
    validate_policy_from_text text = Returns out /\
    (out = no_valid_policy_found <-> truthy policy = false) /\
    (truthy policy = true ->
     exists r, validate_policy policy_validator policy = Returns r /\
               out = format_results r).
Proof.
  destruct (extraction_agree policy_validator text)
    as (json_str & policy & Hx & _).
  unfold validate_policy_from_text. rewrite Hx. cbn [bind].
  destruct (truthy policy) eqn:T; cbn [negb].
  - destruct (validate_policy_total policy_validator policy) as (r & Hr).
    rewrite Hr. cbn [bind].
    exists json_str, policy, (format_results r). rewrite T.
    split; [reflexivity|]. split; [reflexivity|]. split.
    + split; [|discriminate].
      intros E. exfalso. exact (format_results_not_notice r E).
    + intros _. exists r. auto.
  - exists json_str, policy, no_valid_policy_found. rewrite T.
    split; [reflexivity|]. split; [reflexivity|]. split.
    + split; reflexivity.
    + discriminate.
Qed.

Lemma validate_policy_from_text_answer_witness :
  extract_policy_json (fence_open ++ [10] ++ u "{}" ++ [10] ++ fence_close) =
    Returns (Some (u "{}"), VDict []) /\
  validate_policy_from_text (fence_open ++ [10] ++ u "{}" ++ [10] ++ fence_close) =
    Returns no_valid_policy_found.
Proof.
  destruct (validate_policy_from_text_answer
              (fence_open ++ [10] ++ u "{}" ++ [10] ++ fence_close))
    as (json_str & policy & out & Hx & Hv & Hiff & _).
  assert (E : extract_policy_json (fence_open ++ [10] ++ u "{}" ++ [10] ++ fence_close) =
              Returns (Some (u "{}"), VDict [])) by (vm_compute; reflexivity).
  split; [exact E|].
  rewrite E in Hx. inversion Hx; subst json_str policy.
  rewrite Hv. f_equal. apply Hiff. reflexivity.
Defined.

Lemma str_contains_fence_search (text : str) :
  str_contains fence_open text = false ->
  Re.search json_pattern_fenced text = None.
Proof.
  intros Hf. destruct (Re.search json_pattern_fenced text) as [m|] eqn:Hm; [|reflexivity].
  exfalso. unfold Re.search in Hm.
  apply ReFacts.search_from_inv in Hm as (sk & s' & Ht & _ & Hm).
  unfold json_pattern_fenced in Hm. rewrite ReFacts.match_lit in Hm.
  destruct (strip_prefix (u "```json") s') as [r|] eqn:P; [|discriminate].
  apply ReFacts.strip_prefix_app in P. subst s' text.
  unfold fence_open in Hf. rewrite str_contains_app in Hf. discriminate Hf.
Qed.

(** X16. Saving from the application runs the extraction again on the
    JSON text it is given.  For a text without a fenced block,
    [save_current_policy] never raises, and it reports success only for
    a string that has the shape of a brace-scan match, a piece of the
    text that ends at the first closing brace after [Statement]; that
    string is what [save_policy] receives.  Otherwise the answer is a
    failure message or [No valid policy to save.] *)
Theorem save_current_policy_rescans (save_policy : str -> option str -> option str -> option str)
  (policy_json : str) (policy_name : option str) :
  str_contains fence_open policy_json = false ->
  exists out,
    save_current_policy save_policy (Some policy_json) policy_name = Returns out /\
    (out = no_policy_to_save \/
     (exists reason, out = failed_prefix ++ reason) \/
     (exists s,
        brace_scan_shape s /\
        (exists before after, policy_json = before ++ s ++ after) /\
        out = saved_prefix ++ format_optional (save_policy s policy_name None))).
Proof.
  intros Hf. unfold save_current_policy.
  destruct (_ || _); [eexists; split; [reflexivity | left; reflexivity]|].
  unfold save_policy_from_text.
  destruct (extraction_agree __init__ policy_json)
    as (json_str & policy & _ & Hx & _ & Hs).
  specialize (Hs save_policy policy_name None).
  destruct json_str as [s|].
  - rewrite Hs. cbn [bind]. eexists. split; [reflexivity|]. right. right.
    exists s. split; [|split; [|reflexivity]].
    + apply (brace_scan_result_shape __init__ policy_json s);
        [apply str_contains_fence_search; exact Hf | exact Hx].
    + apply (extract_policy_piece __init__ policy_json s Hx).
  - destruct Hs as (msg & Hs). rewrite Hs. cbn [bind].
    eexists. split; [reflexivity|]. right. left. exists msg. reflexivity.
Qed.

Lemma save_current_policy_rescans_witness :
  exists out,
    save_current_policy (fun _ _ _ => None) (Some two_statements_text) None =
    Returns out /\
    out = failed_prefix ++ u "Invalid JSON format in the extracted policy".
Proof.
  destruct (save_current_policy_rescans (fun _ _ _ => None) two_statements_text None)
    as (out & Hout & _).
  - vm_compute. reflexivity.
  - exists out. split; [exact Hout|].
    assert (E : save_current_policy (fun _ _ _ => None) (Some two_statements_text) None =
                Returns (failed_prefix ++ u "Invalid JSON format in the extracted policy"))
      by (vm_compute; reflexivity).
    rewrite E in Hout. inversion Hout. reflexivity.
Defined.

(* ===================================================================== *)
(** ** Where a policy is saved *)
(* ===================================================================== *)

Section SavePathFacts.
Variable isalnum_unicode : char -> bool.

Lemma clean_name_chars (name : str) :
  Forall (fun c => isalnum isalnum_unicode c = true \/ c = 45 \/ c = 95)
         (clean_name isalnum_unicode name).
Proof.
  induction name as [|c name IH]; [constructor|].
  cbn [clean_name map]. constructor; [|exact IH].
  destruct (isalnum isalnum_unicode c) eqn:A; cbn [orb]; [left; exact A|].
  destruct (c =? 45) eqn:B; cbn [orb]; [apply N.eqb_eq in B; auto|].
  destruct (c =? 95) eqn:C; [apply N.eqb_eq in C; auto | auto].
Qed.

Lemma clean_name_excludes (name : str) (c : char) :
  c < 128 -> isalnum isalnum_unicode c = false -> c <> 45 -> c <> 95 ->
  ~ In c (clean_name isalnum_unicode name).
Proof.
  intros _ Hc H45 H95 Hin.
  pose proof (clean_name_chars name) as H. rewrite Forall_forall in H.
  destruct (H c Hin) as [A | [A | A]]; congruence.
Qed.

Lemma clean_name_fixed (l : str) :
  Forall (fun c => isalnum isalnum_unicode c = true \/ c = 45 \/ c = 95) l ->
  clean_name isalnum_unicode l = l.
Proof.
  induction 1 as [|c l Hc _ IH]; [reflexivity|].
  cbn [clean_name map]. fold (clean_name isalnum_unicode l). rewrite IH. f_equal.
  destruct Hc as [A | [-> | ->]].
  - rewrite A. reflexivity.
  - rewrite orb_true_r. reflexivity.
  - rewrite N.eqb_refl, orb_true_r. reflexivity.
Qed.

Lemma startswith_slash (c : char) (s : str) :
  c <> 47 -> startswith (u "/") (c :: s) = false.
Proof.
  intros H. unfold startswith.
  change (u "/") with [47]. rewrite strip_prefix_head_differs; auto.
Qed.

Lemma path_join_relative (a b : str) :
  startswith (u "/") b = false -> path_join a b = with_separator a ++ b.
Proof.
  intros H. unfold path_join, with_separator. rewrite H.
  destruct (rev a) as [|last ?]; [reflexivity|].
  destruct (last =? 47); [reflexivity|]. rewrite <- app_assoc. reflexivity.
Qed.

(** X17. A name given by the caller cannot move the file out of the
    policies directory.  For a non-empty name, the path [save_policy]
    writes to is the directory, a separator unless the directory is empty
    or ends with one, a stem and [.json]; the stem has the length of the
    name, consists of alphanumeric characters, [-] and [_] only, holds no
    slash, backslash, dot or NUL, and cleaning it again changes nothing. *)
Theorem named_policy_stays_in_directory (policies_dir name timestamp : str) :
  name <> [] ->
  exists stem,
    policy_filepath isalnum_unicode policies_dir (Some name) timestamp =
    with_separator policies_dir ++ stem ++ u ".json" /\
    List.length stem = List.length name /\
    Forall (fun c => isalnum isalnum_unicode c = true \/ c = 45 \/ c = 95) stem /\
    ~ In 47 stem /\ ~ In 92 stem /\ ~ In 46 stem /\ ~ In 0 stem /\
    clean_name isalnum_unicode stem = stem.
Proof.
  intros Hne. exists (clean_name isalnum_unicode name).
  assert (Hex : forall c, c < 128 -> isalnum isalnum_unicode c = false ->
                          c <> 45 -> c <> 95 ->
                          ~ In c (clean_name isalnum_unicode name))
    by (intros; apply clean_name_excludes; assumption).
  split; [|split; [|split; [|split; [|split; [|split; [|split]]]]]].
  - unfold policy_filepath, file_stem.
    destruct name as [|c name]; [congruence|].
    apply path_join_relative.
    pose proof (Hex 47) as H47.
    cbn [clean_name map app] in *. apply startswith_slash.
    intros E. apply H47; [reflexivity | reflexivity | discriminate | discriminate|].
    left. exact E.
  - apply length_map.
  - apply clean_name_chars.
  - apply Hex; [reflexivity | reflexivity | discriminate | discriminate].
  - apply Hex; [reflexivity | reflexivity | discriminate | discriminate].
  - apply Hex; [reflexivity | reflexivity | discriminate | discriminate].
  - apply Hex; [reflexivity | reflexivity | discriminate | discriminate].
  - apply clean_name_fixed, clean_name_chars.
Qed.

End SavePathFacts.

Lemma named_policy_stays_in_directory_witness :
  policy_filepath (fun _ => false) (u "saved_policies") (Some (u "../../etc/passwd"))
    (u "20240101_000000") =
  u "saved_policies/______etc_passwd.json".
Proof.
  destruct (named_policy_stays_in_directory (fun _ => false) (u "saved_policies")
              (u "../../etc/passwd") (u "20240101_000000"))
    as (stem & Hp & _); [discriminate|].
  vm_compute. reflexivity.
Defined.

(** The four cases of [test_policy_validator.py], with the verdict each
    expects. *)
Example repository_test_cases :
  let statement actions resources condition :=
    VDict ([(u "Effect", VStr (u "Allow")); (u "Action", actions);
            (u "Resource", resources)] ++ condition) in
  let bucket := VList [VStr (u "arn:aws:s3:::specific-bucket");
                       VStr (u "arn:aws:s3:::specific-bucket/*")] in
  let read := VList [VStr (u "s3:GetObject"); VStr (u "s3:ListBucket")] in
  let versioned st := VDict [(u "Version", VStr (u "2012-10-17"));
                             (u "Statement", VList [st])] in
  let verdict policy :=
    match validate_policy __init__ policy with
    | Returns r => Some (valid r)
    | Raises _ => None
    end in
  verdict (versioned (statement read bucket
                        [(u "Condition",
                          VDict [(u "StringEquals",
                                  VDict [(u "aws:PrincipalTag/Department",
                                          VStr (u "DataScience"))])])])) = Some true /\
  verdict (versioned (statement read (VStr (u "*")) [])) = Some false /\
  verdict (versioned (statement (VStr (u "s3:*")) bucket [])) = Some false /\
  verdict (VDict [(u "Statement", VList [statement read bucket []])]) = Some false.
Proof. cbv zeta. repeat split; vm_compute; reflexivity. Qed.
